(** * electron-simple-publisher: the publish pipeline and option normalization

    A shallow embedding of the abstract transport and of the publish command
    that follows it in [lib/transport/abstract.js] (asset publishing,
    manifest record, release file, archive, progress rendering), and of
    [lib/utils/normalize-options.js] (the sources of the options, the builds
    of a command, build normalization and the validation of the remove
    command), with the properties the specification states about them and
    further properties of the code.

    Conventions.
    - A JavaScript string is a [string]; its characters stand for code units
      below 256.
    - A JavaScript number is an IEEE 754 binary64 value, [spec_float] of the
      standard library at precision 53.
    - A plain object used as a dictionary is a [gmap string value] of its own
      properties; reads fall back to the members of [Object.prototype].
    - [undefined] in a field read from a build or from the options is [None].
    - A promise that rejects with [e] and a statement that throws [e] are both
      [Throw e]: every function below runs inside a [then] callback or returns
      its promise to one. *)

From Stdlib Require Import ZArith String Ascii List Bool Lia.
From Stdlib Require Import Floats.SpecFloat.
From stdpp Require Import gmap strings list fin_maps.
From stdpp Require Import pretty.

#[local] Set Warnings "-register-all".
#[local] Open Scope string_scope.
#[local] Open Scope list_scope.

(** ** JavaScript strings *)

Module JsString.

Definition slash : ascii := "/"%char.
Definition hyphen : ascii := "-"%char.

(** The characters [\s] matches among the code units below 256: tab, line
    feed, vertical tab, form feed, carriage return, space and the no-break
    space. *)
Definition is_whitespace (c : ascii) : bool :=
  let n := nat_of_ascii c in
  ((9 <=? n)%nat && (n <=? 13)%nat) || (n =? 32)%nat || (n =? 160)%nat.

Fixpoint map_chars (f : ascii → ascii) (s : string) : string :=
  match s with
  | EmptyString => EmptyString
  | String c r => String (f c) (map_chars f r)
  end.

Fixpoint has_char (p : ascii → bool) (s : string) : bool :=
  match s with
  | EmptyString => false
  | String c r => p c || has_char p r
  end.

Definition is_slash (c : ascii) : bool := Ascii.eqb c slash.

Definition is_empty (s : string) : bool :=
  match s with EmptyString => true | _ => false end.

(** [s.startsWith(p)], which is also [s.indexOf(p) === 0]. *)
Fixpoint starts_with (p s : string) : bool :=
  match p, s with
  | EmptyString, _ => true
  | String a p', String b s' => Ascii.eqb a b && starts_with p' s'
  | String _ _, EmptyString => false
  end.

Fixpoint drop (n : nat) (s : string) : string :=
  match n, s with
  | O, _ => s
  | S n', String _ r => drop n' r
  | S _, EmptyString => EmptyString
  end.

(** [s.substring(1)] *)
Definition substring1 (s : string) : string := drop 1 s.

(** [s.replace(pat, rep)] with a string pattern: only the first occurrence
    is replaced. *)
Fixpoint replace_first (pat rep s : string) : string :=
  if starts_with pat s then rep +:+ drop (String.length pat) s
  else match s with
       | EmptyString => EmptyString
       | String c r => String c (replace_first pat rep r)
       end.

(** [s.replace(/\s/g, '-')]: the pattern matches one character at a time. *)
Definition replace_whitespace (s : string) : string :=
  map_chars (λ c, if is_whitespace c then hyphen else c) s.

(** [s.split(sep)] for a one-character separator. *)
Fixpoint split (sep : ascii) (s : string) : list string :=
  match s with
  | EmptyString => [EmptyString]
  | String c r =>
      if Ascii.eqb c sep then EmptyString :: split sep r
      else match split sep r with
           | h :: t => String c h :: t
           | [] => [String c EmptyString]
           end
  end.

(** [parts.join(sep)] *)
Fixpoint join (sep : string) (parts : list string) : string :=
  match parts with
  | [] => EmptyString
  | [p] => p
  | p :: rest => p +:+ sep +:+ join sep rest
  end.

(** [s.endsWith('/') ? s.slice(0, -1) : s] *)
Fixpoint chop_slash (s : string) : string :=
  match s with
  | EmptyString => EmptyString
  | String c EmptyString => if is_slash c then EmptyString else s
  | String c r => String c (chop_slash r)
  end.

End JsString.

(** ** Node's [path] module (POSIX flavour) *)

Module Path.
Import JsString.

Fixpoint drop_trailing_slashes (s : string) : string :=
  match s with
  | EmptyString => EmptyString
  | String c r =>
      let r' := drop_trailing_slashes r in
      if is_slash c && is_empty r' then EmptyString else String c r'
  end.

Fixpoint last_segment (s : string) : string :=
  match s with
  | EmptyString => EmptyString
  | String c r =>
      if has_char is_slash r then last_segment r
      else if is_slash c then r else s
  end.

(** [path.basename(p)]: trailing separators are ignored, then everything up
    to the last separator is dropped. *)
Definition basename (p : string) : string :=
  last_segment (drop_trailing_slashes p).

End Path.

(** ** JavaScript values *)

Module Js.

(** Numbers: binary64. *)
Definition num : Type := spec_float.
Definition prec : Z := 53.
Definition emax : Z := 1024.

Definition num_of_Z (z : Z) : num := binary_normalize prec emax z 0 false.
Definition num_div (x y : num) : num := SFdiv prec emax x y.
Definition num_mul (x y : num) : num := SFmul prec emax x y.

Definition is_nan (x : num) : bool :=
  match x with S754_nan => true | _ => false end.
Definition is_zero (x : num) : bool :=
  match x with S754_zero _ => true | _ => false end.

Inductive value : Type :=
  | VUndef
  | VNull
  | VBool (b : bool)
  | VNum (x : num)
  | VStr (s : string)
  | VObj (o : gmap string value)
  | VBuiltin (name : string).

(** A field that is a string or [undefined]. *)
Definition of_field (f : option string) : value :=
  match f with Some s => VStr s | None => VUndef end.

(** ToBoolean *)
Definition truthy (v : value) : bool :=
  match v with
  | VUndef | VNull => false
  | VBool b => b
  | VNum x => negb (is_zero x || is_nan x)
  | VStr s => negb (JsString.is_empty s)
  | VObj _ | VBuiltin _ => true
  end.

Definition truthy_field (f : option string) : bool := truthy (of_field f).

(** [typeof v] *)
Definition type_of (v : value) : string :=
  match v with
  | VUndef => "undefined"
  | VNull => "object"
  | VBool _ => "boolean"
  | VNum _ => "number"
  | VStr _ => "string"
  | VObj _ => "object"
  | VBuiltin n => if String.eqb n "__proto__" then "object" else "function"
  end.

(** [a === b].  Two object operands are never the same allocation at the
    comparisons of this development (a field of a build against a field of
    a parsed manifest, a cache entry against [undefined], a number against
    [0]), so they compare unequal. *)
Definition strict_eq (a b : value) : bool :=
  match a, b with
  | VUndef, VUndef | VNull, VNull => true
  | VBool x, VBool y => Bool.eqb x y
  | VNum x, VNum y => SFeqb x y
  | VStr x, VStr y => String.eqb x y
  | VBuiltin x, VBuiltin y => String.eqb x y
  | _, _ => false
  end.

(** [a || b] *)
Definition or_else (a b : value) : value := if truthy a then a else b.

(** The property names every plain object inherits from
    [Object.prototype]. *)
Definition Object_prototype : list string :=
  [ "constructor"; "__proto__"; "hasOwnProperty"; "isPrototypeOf";
    "propertyIsEnumerable"; "toLocaleString"; "toString"; "valueOf";
    "__defineGetter__"; "__defineSetter__"; "__lookupGetter__";
    "__lookupSetter__" ].

Definition inherited (k : string) : bool :=
  existsb (String.eqb k) Object_prototype.

(** [o[k]] on a plain object: the own property, else the inherited member,
    else [undefined]. *)
Definition obj_get (o : gmap string value) (k : string) : value :=
  match o !! k with
  | Some v => v
  | None => if inherited k then VBuiltin k else VUndef
  end.

(** [o[k] = v] on a plain object.  The key [__proto__] reaches the setter
    of [Object.prototype], which stores no own property (and ignores a [v]
    that is neither an object nor [null]). *)
Definition obj_set (k : string) (v : value) (o : gmap string value)
  : gmap string value :=
  if String.eqb k "__proto__" then o else <[k := v]> o.

(** [delete o[k]] *)
Definition obj_delete (k : string) (o : gmap string value)
  : gmap string value := delete k o.

(** [v[k]] on any value, for a [k] that is neither an index, [length] nor a
    method of the primitive wrappers; [None] is the TypeError of reading a
    property of [undefined] or [null]. *)
Definition get_prop (v : value) (k : string) : option value :=
  match v with
  | VUndef | VNull => None
  | VObj o => Some (obj_get o k)
  | VBool _ | VNum _ | VStr _ | VBuiltin _ =>
      Some (if inherited k then VBuiltin k else VUndef)
  end.

(** What a function call can end in. *)
Inductive error : Type :=
  | Error (message : string)
  | TypeError (message : string)
  | RangeError (message : string)
  | External (reason : string).

Inductive outcome (A : Type) : Type :=
  | Return (a : A)
  | Throw (e : error).
Arguments Return {A} a.
Arguments Throw {A} e.

End Js.

Export Js.

(** ** Builds and the run-time environment *)

(** A build: [{platform, arch, channel, version, assets}].  [assets] lists
    the own enumerable properties of [build.assets] in the order [for ... in]
    visits them. *)
Record Build : Type := mkBuild {
  platform : option string;
  arch : option string;
  channel : option string;
  version : option string;
  assets : list (string * string)
}.

(** The options a transport is constructed with: [commandOptions] (its
    identity fields, [updatesJsonUrl], [path], [local-data]) and
    [options.transport.remoteUrl].  [local_data = None] is a missing
    ['local-data'] object; inside it, [None] is a missing
    ['archive-local-directory']. *)
Record TransportOptions : Type := mkTransportOptions {
  commandBuild : Build;
  updatesJsonUrl : option string;
  remoteUrl : option string;
  path : option string;
  local_data : option (option string)
}.

(** What [http.get] hands to its callback: [(err, res)]. *)
Inductive http_result : Type :=
  | HttpError (err : string)
  | HttpResponse (statusCode : Z) (body : string).

(** The calls that leave the process, in the order they were made. *)
Inductive call : Type :=
  | CallUploadFile (filePath : string)
  | CallPushUpdatesJson (json : value)
  | CallHttpGet (url : string)
  | CallMkdirSync (dir : string)
  | CallCopyFileSync (src dst : string)
  | CallAppendFileSync (file data : string).

(** The backend and the host, over a world [W] they may change: the two
    abstract methods a backend supplies, [http.get], [JSON.parse],
    [JSON.stringify(data, null, '  ')] and the [fs] calls of the mirror. *)
Record Host (W : Type) : Type := mkHost {
  host_uploadFile : string → Build → W → W * outcome value;
  host_pushUpdatesJson : value → W → W * outcome value;
  host_http_get : string → W → W * http_result;
  host_JSON_parse : string → option value;
  host_JSON_stringify : value → string;
  host_mkdirSync : string → W → W * outcome unit;
  host_copyFileSync : string → string → W → W * outcome unit;
  host_appendFileSync : string → string → W → W * outcome unit
}.
Arguments host_uploadFile {W} _ _ _ _.
Arguments host_pushUpdatesJson {W} _ _ _.
Arguments host_http_get {W} _ _ _.
Arguments host_JSON_parse {W} _ _.
Arguments host_JSON_stringify {W} _ _.
Arguments host_mkdirSync {W} _ _ _.
Arguments host_copyFileSync {W} _ _ _ _.
Arguments host_appendFileSync {W} _ _ _ _.

(** A computation over the world and the log of calls; a [Throw] skips what
    is chained after it, as a rejected promise skips its [then] callbacks. *)
Module IO.

Definition state (W : Type) : Type := W * list call.
Definition io (W A : Type) : Type := state W → state W * outcome A.

Definition ret {W A} (a : A) : io W A := λ s, (s, Return a).
Definition throw {W A} (e : error) : io W A := λ s, (s, Throw e).
Definition lift {W A} (r : outcome A) : io W A := λ s, (s, r).

Definition bind {W A B} (m : io W A) (k : A → io W B) : io W B :=
  λ s, match m s with
       | (s', Return a) => k a s'
       | (s', Throw e) => (s', Throw e)
       end.

(** Performs [f] on the world and logs [c]. *)
Definition perform {W A} (c : call) (f : W → W * A) : io W A :=
  λ s, let '(w', a) := f (fst s) in ((w', snd s ++ [c]), Return a).

Definition perform_outcome {W A} (c : call) (f : W → W * outcome A)
  : io W A :=
  λ s, let '(w', r) := f (fst s) in ((w', snd s ++ [c]), r).

(** Runs [m] from world [w] with an empty log. *)
Definition run {W A} (m : io W A) (w : W) : state W * outcome A :=
  m (w, []).

Definition calls_of {W A} (r : state W * outcome A) : list call :=
  snd (fst r).
Definition result_of {W A} (r : state W * outcome A) : outcome A := snd r.

End IO.

Export IO.

Notation "'do' x <- m ; k" := (IO.bind m (λ x, k))
  (at level 10, x name, m at level 100, k at level 200).

(** ** [lib/transport/abstract.js] *)

Module AbstractTransport.
Import JsString.

(** [[a, b, ...].join(sep)] where an [undefined] element prints as the
    empty string. *)
Definition join_fields (sep : string) (parts : list (option string))
  : string :=
  join sep (map (default "") parts).

(** A template literal [`${x}`] of a field. *)
Definition template (f : option string) : string := default "undefined" f.

(** [normalizeOptions(options)], run by the constructor. *)
Definition normalizeOptions (o : TransportOptions)
  : outcome TransportOptions :=
  let remote :=
    match remoteUrl o with
    | Some u => if truthy (VStr u) then Some (chop_slash u) else Some u
    | None => None
    end in
  let updates :=
    if negb (truthy_field (updatesJsonUrl o)) && truthy_field remote
    then Some (template remote +:+ "/updates.json")
    else updatesJsonUrl o in
  if negb (truthy_field updates)
  then Throw (Error ("You should set either a package.json:updater.url " +:+
                     "option or updatesJsonUrl option"))
  else Return (mkTransportOptions (commandBuild o) updates remote
                                  (path o) (local_data o)).

Section Methods.
Context {W : Type} (host : Host W) (opts : TransportOptions).

(** [getUpdatesJsonUrl()] *)
Definition getUpdatesJsonUrl : outcome string :=
  match updatesJsonUrl opts with
  | Some url => Return (chop_slash url)
  | None => Throw (TypeError "Cannot read properties of undefined")
  end.

(** [getBuildId(build = null, includeVersion = true)] *)
Definition getBuildId (build : option Build) (includeVersion : bool)
  : string :=
  let b := default (commandBuild opts) build in
  let parts :=
    [template (platform b); template (arch b); template (channel b)] in
  let parts :=
    if includeVersion then parts ++ ["v" +:+ template (version b)]
    else parts in
  join "-" parts.

(** [normalizeFileName(fileName)] *)
Definition normalizeFileName (fileName : string) : string :=
  let fileName := Path.basename fileName in
  replace_whitespace fileName.

(** [getFileUrl(localFilePath, build)] *)
Definition getFileUrl (localFilePath : string) (build : Build)
  : outcome string :=
  match remoteUrl opts with
  | None => Throw (TypeError "Cannot read properties of undefined")
  | Some url =>
      let url := chop_slash url in
      Return (join "/" [url; getBuildId (Some build) true;
                        normalizeFileName localFilePath])
  end.

(** [fetchUpdatesJson()], the default a backend may override. *)
Definition fetchUpdatesJson : io W value :=
  do url <- lift getUpdatesJsonUrl;
  do r <- perform (CallHttpGet url) (host_http_get host url);
  match r with
  | HttpError err => throw (External err)
  | HttpResponse statusCode body =>
      if negb (statusCode =? 200)%Z then ret (VObj ∅)
      else match host_JSON_parse host body with
           | Some json => ret json
           | None => ret (VObj ∅)
           end
  end.

(** The first [then] callback of [updateUpdatesJson]: the fetched [json]
    with the section of [build] replaced by [data] or removed.  In
    strict mode an assignment to a property of a primitive throws. *)
Definition updateSection (build : Build) (data json : value)
  : outcome value :=
  let json := or_else json (VObj ∅) in
  let buildId := getBuildId (Some build) false in
  if String.eqb (type_of data) "object" then
    match json with
    | VObj o => Return (VObj (obj_set buildId data o))
    | VBuiltin _ => Return json
    | _ => Throw (TypeError "Cannot create property on a primitive")
    end
  else
    match get_prop json buildId with
    | None => Throw (TypeError "Cannot read properties of undefined")
    | Some entry =>
        let same_version :=
          if truthy entry then
            match get_prop entry "version" with
            | Some v => strict_eq (of_field (version build)) v
            | None => false
            end
          else false in
        if same_version then
          match json with
          | VObj o => Return (VObj (obj_delete buildId o))
          | _ => Return json
          end
        else Return json
    end.

(** [updateUpdatesJson(build, data)]; [fetch] is [this.fetchUpdatesJson]. *)
Definition updateUpdatesJson (fetch : io W value) (build : Build)
    (data : value) : io W value :=
  do json <- fetch;
  do json <- lift (updateSection build data json);
  perform_outcome (CallPushUpdatesJson json)
                  (host_pushUpdatesJson host json).

(** The mirror directory of [duplicateMetaFiles]. *)
Definition archiveDirectory : outcome string :=
  match local_data opts with
  | None => Throw (TypeError "Cannot read properties of undefined")
  | Some dir => Return (join_fields "/" [path opts; dir])
  end.

(** [try { fs.mkdirSync(dir); } catch (e) { ; }] *)
Definition try_mkdirSync (dir : string) : io W unit :=
  λ s, let '(s', _) :=
         perform_outcome (CallMkdirSync dir) (host_mkdirSync host dir) s in
       (s', Return tt).

(** [duplicateMetaFiles(filePath, build)] *)
Definition duplicateMetaFiles (filePath : string) (build : Build)
  : io W unit :=
  let buildId := getBuildId (Some build) true in
  do archiveDirectory <- lift archiveDirectory;
  do _ <- try_mkdirSync archiveDirectory;
  do _ <- try_mkdirSync (join "/" [archiveDirectory; buildId]);
  let target :=
    join "/" [archiveDirectory; buildId; Path.basename filePath] in
  perform_outcome (CallCopyFileSync filePath target)
                  (host_copyFileSync host filePath target).

(** [duplicateUpdatesJson(build, data)] *)
Definition duplicateUpdatesJson (build : Build) (data : value) : io W unit :=
  do archiveDirectory <- lift archiveDirectory;
  let file := join "/" [archiveDirectory; "updates.json"] in
  let text := host_JSON_stringify host data in
  perform_outcome (CallAppendFileSync file text)
                  (host_appendFileSync host file text).

(** [uploadFile(filePath, build)], as the backend implements it. *)
Definition uploadFile (filePath : string) (build : Build) : io W value :=
  perform_outcome (CallUploadFile filePath)
                  (host_uploadFile host filePath build).

End Methods.

End AbstractTransport.

(** ** [Math] and number conversions *)

Module JsMath.

(** The value of a finite number is [±m·2^e]; with [e < 0] it lies strictly
    inside the range where every integer is a binary64 value. *)
Definition signed (s : bool) (z : Z) : Z := if s then (- z)%Z else z.

(** [Math.floor(x)] *)
Definition floor (x : num) : num :=
  match x with
  | S754_finite s m e =>
      if (0 <=? e)%Z then x
      else num_of_Z (signed s (Z.pos m) / 2 ^ (- e))%Z
  | _ => x
  end.

(** [Math.round(x)]: the nearest integer, a tie going up; a result of zero
    keeps the sign of [x]. *)
Definition round (x : num) : num :=
  match x with
  | S754_finite s m e =>
      if (0 <=? e)%Z then x
      else
        let n := ((2 * signed s (Z.pos m) + 2 ^ (- e)) / 2 ^ (- e + 1))%Z in
        if (n =? 0)%Z then S754_zero s else num_of_Z n
  | _ => x
  end.

(** The integer a number is, when it is one. *)
Definition integer_value (x : num) : option Z :=
  match x with
  | S754_zero _ => Some 0%Z
  | S754_finite s m e =>
      if (0 <=? e)%Z then Some (signed s (Z.pos m * 2 ^ e))%Z
      else if (Z.pos m mod 2 ^ (- e) =? 0)%Z
           then Some (signed s (Z.pos m / 2 ^ (- e)))%Z
           else None
  | _ => None
  end.

(** ToIntegerOrInfinity: [NaN] is 0, a fraction is cut off, [None] is an
    infinity. *)
Definition to_integer (x : num) : option Z :=
  match x with
  | S754_nan | S754_zero _ => Some 0%Z
  | S754_infinity _ => None
  | S754_finite s m e =>
      if (0 <=? e)%Z then Some (signed s (Z.pos m * 2 ^ e))%Z
      else Some (signed s (Z.pos m / 2 ^ (- e)))%Z
  end.

(** [new Array(len)] with a number argument: the length of the array of
    holes, or a RangeError unless [len] is an integer below [2^32]. *)
Definition new_Array (len : num) : outcome nat :=
  match integer_value len with
  | Some n =>
      if (0 <=? n)%Z && (n <? 2 ^ 32)%Z then Return (Z.to_nat n)
      else Throw (RangeError "Invalid array length")
  | None => Throw (RangeError "Invalid array length")
  end.

Fixpoint repeat_char (c : ascii) (n : nat) : string :=
  match n with
  | O => EmptyString
  | S n' => String c (repeat_char c n')
  end.

(** [holes.join(sep)] for an array of [n] holes: [n - 1] separators. *)
Definition join_holes (sep : ascii) (n : nat) : string :=
  repeat_char sep (n - 1).

(** [s.charAt(i)] *)
Definition charAt (s : string) (i : num) : string :=
  match to_integer i with
  | Some z =>
      if (0 <=? z)%Z then
        match String.get (Z.to_nat z) s with
        | Some c => String c EmptyString
        | None => EmptyString
        end
      else EmptyString
  | None => EmptyString
  end.

(** The numeric functions that are left to the engine: [Math.log],
    [Math.pow], [x.toFixed(digits)], the unary [+] on a string and the
    conversion of a number to a string. *)
Record Engine : Type := mkEngine {
  Math_log : num → num;
  Math_pow : num → num → num;
  toFixed : num → Z → string;
  to_number : string → num;
  num_to_string : num → string
}.

End JsMath.

(** ** The publish command *)

Module Publish.
Import JsString JsMath AbstractTransport.

(** *** Progress rendering *)

Record Progress : Type := mkProgress {
  name : string;
  transferred : num;
  total : num
}.

(** The full block of the bar, at its code page 437 position. *)
Definition block : ascii := ascii_of_nat 219.
Definition dot : ascii := "."%char.

Section Rendering.
Context (engine : Engine).

(** [formatSize(bytes)] *)
Definition formatSize (bytes : num) : string :=
  if strict_eq (VNum bytes) (VNum (num_of_Z 0)) then "0 B"
  else
    let e :=
      floor (num_div (Math_log engine bytes)
                     (Math_log engine (num_of_Z 1024))) in
    num_to_string engine
      (to_number engine
         (toFixed engine
            (num_div bytes (Math_pow engine (num_of_Z 1024) e)) 2))
    +:+ " " +:+ replace_first "B" "" (charAt "BKMGTP" e) +:+ "B".

(** [onProgress(progress)]: the text handed to [line], or the exception
    that escapes the handler. *)
Definition onProgress (progress : Progress) : outcome string :=
  let value := num_div (transferred progress) (total progress) in
  let percentage := round (num_mul value (num_of_Z 100)) in
  match new_Array (floor (num_mul (num_of_Z 50) value)) with
  | Throw e => Throw e
  | Return holes =>
      let bar := join_holes block holes in
      let bar := bar +:+ repeat_char dot (49 - String.length bar) in
      let size :=
        formatSize (transferred progress) +:+ " / " +:+
        formatSize (total progress) in
      Return (join "" [
        String "010" ("Uploading " +:+ name progress +:+ String "010" "");
        "[" +:+ bar +:+ "] " +:+ num_to_string engine percentage +:+
          "% (" +:+ size +:+ ")" +:+ String "010" "" ])
  end.

End Rendering.

(** *** Asset publishing *)

(** The two objects [publishAssets] fills: [result] (with its nested
    [local] object under the key ["local"]) and the cache [uploaded]. *)
Record Acc : Type := mkAcc {
  result : gmap string value;
  uploaded : gmap string value
}.

Section Commands.
Context {W : Type} (host : Host W) (opts : TransportOptions).

(** The third callback of the chain of one asset. *)
Definition recordAsset (build : Build) (name filePath : string)
    (fileUrl : value) (acc : Acc) : outcome Acc :=
  let uploaded' :=
    obj_set filePath (or_else fileUrl (VStr "")) (uploaded acc) in
  if truthy fileUrl then
    let result := obj_set name fileUrl (result acc) in
    match obj_get result "local", fileUrl with
    | VObj local, VStr url =>
        let entry :=
          join "/" [getBuildId opts (Some build) true;
                    Path.basename url] in
        Return
          (mkAcc (<["local" := VObj (obj_set name (VStr entry) local)]>
                    result)
                 uploaded')
    | _, VStr _ =>
        Throw (TypeError "Cannot create property on a primitive")
    | _, _ =>
        Throw (TypeError "The path argument must be of type string")
    end
  else Return (mkAcc (result acc) uploaded').

(** The three callbacks chained for one asset. *)
Definition publishAsset (build : Build) (name filePath : string)
    (acc : Acc) : io W Acc :=
  do fileUrl <-
    (if strict_eq (obj_get (uploaded acc) filePath) VUndef
     then uploadFile host filePath build
     else ret (obj_get (uploaded acc) filePath));
  do _ <- duplicateMetaFiles host opts filePath build;
  lift (recordAsset build name filePath fileUrl acc).

(** The promise the [for ... in] loop has built when it ends: the three
    callbacks of each asset it kept, in the order of the loop.  The loop
    only chains them; they run after it. *)
Fixpoint publishChain (build : Build) (assets : list (string * string))
    (acc : Acc) : io W Acc :=
  match assets with
  | [] => ret acc
  | (name, filePath) :: rest =>
      do acc <- publishAsset build name filePath acc;
      publishChain build rest acc
  end.

(** [assets] has an own property called [name]. *)
Definition has_own (name : string) (assets : list (string * string))
  : bool :=
  existsb (λ asset, String.eqb (fst asset) name) assets.

(** [assets.hasOwnProperty(name)], the guard of the loop.  An own property
    called [hasOwnProperty] hides the method of [Object.prototype]; it is a
    file path, and calling it throws. *)
Definition hasOwnProperty (assets : list (string * string)) (name : string)
  : outcome bool :=
  if has_own "hasOwnProperty" assets
  then Throw (TypeError "assets.hasOwnProperty is not a function")
  else Return (has_own name assets).

(** [for (let name in assets) { if (!assets.hasOwnProperty(name)) continue;
    ... }] over the names [todo]: the assets that get their callbacks
    chained, or the exception of the guard. *)
Fixpoint publishLoop (assets todo : list (string * string))
  : outcome (list (string * string)) :=
  match todo with
  | [] => Return []
  | (name, filePath) :: rest =>
      match hasOwnProperty assets name with
      | Throw e => Throw e
      | Return own =>
          match publishLoop assets rest with
          | Throw e => Throw e
          | Return kept =>
              Return (if own then (name, filePath) :: kept else kept)
          end
      end
  end.

(** [publishAssets(build, transport)] *)
Definition publishAssets (build : Build) : io W (gmap string value) :=
  if (length (assets build) =? 0)%nat then
    let buildId := getBuildId opts (Some build) true in
    throw (Error ("There are no assets for build " +:+ buildId +:+
                  ". Check the dist folder."))
  else
    do kept <- lift (publishLoop (assets build) (assets build));
    do acc <- publishChain build kept (mkAcc {["local" := VObj ∅]} ∅);
    ret (result acc).

(** [Object.assign({}, a, b)] *)
Definition assign (a b : gmap string value) : gmap string value :=
  delete "__proto__" b ∪ delete "__proto__" a.

(** [v.replace('/RELEASES', '')] *)
Definition strip_releases (v : value) : outcome value :=
  match v with
  | VStr s => Return (VStr (replace_first "/RELEASES" "" s))
  | VUndef | VNull =>
      Throw (TypeError "Cannot read properties of undefined")
  | _ => Throw (TypeError "replace is not a function")
  end.

(** The record [publish] stores in the manifest: the start of its third
    callback, up to the call of [duplicateUpdatesJson]. *)
Definition manifestRecord (build : Build) (fields assets : gmap string value)
  : outcome (gmap string value) :=
  let local := obj_get assets "local" in
  match get_prop local "update", get_prop local "install" with
  | Some local_update, Some local_install =>
      let data :=
        assign fields
          (<["update" := obj_get assets "update"]>
           (<["update-local" := local_update]>
            (<["install" := obj_get assets "install"]>
             (<["install-local" := local_install]>
              {["version" := of_field (version build)]})))) in
      if strict_eq (of_field (platform build)) (VStr "win32") then
        match strip_releases (obj_get assets "metaFile") with
        | Throw e => Throw e
        | Return update =>
            let data := obj_set "update" update data in
            match get_prop local "metaFile" with
            | None =>
                Throw (TypeError "Cannot read properties of undefined")
            | Some local_metaFile =>
                match strip_releases local_metaFile with
                | Throw e => Throw e
                | Return update_local =>
                    Return (obj_set "update-local" update_local data)
                end
            end
        end
      else Return data
  | _, _ => Throw (TypeError "Cannot read properties of undefined")
  end.

(** The third callback of [publish]: the record is appended to the mirror
    copy of the manifest and stored in the manifest of the backend.  [fetch]
    is [transport.fetchUpdatesJson]. *)
Definition publishRecord (fetch : io W value) (build : Build)
    (fields assets : gmap string value) : io W value :=
  do data <- lift (manifestRecord build fields assets);
  do _ <- duplicateUpdatesJson host opts build (VObj data);
  updateUpdatesJson host opts fetch build (VObj data).

End Commands.

End Publish.

(** ** [lib/utils/normalize-options.js] *)

Module NormalizeOptions.
Import JsString.

(** A build as the caller gives it: a buildId string or an object. *)
Inductive BuildArg : Type :=
  | BuildString (s : string)
  | BuildObject (b : Build).

(** The fields of [options] read by the functions below. *)
Record Options : Type := mkOptions {
  command : option string;
  options_platform : option string;
  options_arch : option string;
  options_channel : option string;
  options_version : option string;
  builds : list Build
}.

Definition is_remove (options : Options) : bool :=
  strict_eq (of_field (command options)) (VStr "remove").

Definition is_digit (c : ascii) : bool :=
  let n := nat_of_ascii c in (48 <=? n)%nat && (n <=? 57)%nat.

(** [\w]: a letter, a digit or the underscore. *)
Definition is_word (c : ascii) : bool :=
  let n := nat_of_ascii c in
  is_digit c || ((65 <=? n)%nat && (n <=? 90)%nat)
  || ((97 <=? n)%nat && (n <=? 122)%nat) || (n =? 95)%nat.

(** [s.match(/\w+/)] finds a match. *)
Definition matches_word (s : string) : bool := has_char is_word s.

Fixpoint skip_digits (s : string) : string :=
  match s with
  | String c r => if is_digit c then skip_digits r else s
  | EmptyString => EmptyString
  end.

(** The rest of [s] after [\d+], when [s] starts with a digit. *)
Definition digits_then (s : string) : option string :=
  match s with
  | String c r => if is_digit c then Some (skip_digits r) else None
  | EmptyString => None
  end.

(** The rest of [s] after [\.], when [s] starts with a dot. *)
Definition dot_then (s : string) : option string :=
  match s with
  | String c r => if Ascii.eqb c "."%char then Some r else None
  | EmptyString => None
  end.

Definition and_then {A B} (o : option A) (f : A → option B) : option B :=
  match o with Some a => f a | None => None end.

(** [\d+\.\d+\.\d+] matches at the start of [s]. *)
Definition semver_at (s : string) : bool :=
  match and_then (and_then (and_then (digits_then s) dot_then)
                           digits_then) dot_then with
  | Some (String c _) => is_digit c
  | _ => false
  end.

(** [s.match(/\d+\.\d+\.\d+/)] finds a match: the pattern is not anchored. *)
Fixpoint matches_semver (s : string) : bool :=
  semver_at s ||
  match s with
  | String _ r => matches_semver r
  | EmptyString => false
  end.

(** [if (!build[field] && options[field]) build[field] = options[field]] *)
Definition inherit_field (build_field options_field : option string)
  : option string :=
  if negb (truthy_field build_field) && truthy_field options_field
  then options_field else build_field.

(** The build after the defaults of [options] were copied in. *)
Definition withDefaults (build : Build) (options : Options) : Build :=
  if negb (is_remove options) then
    mkBuild (inherit_field (platform build) (options_platform options))
            (inherit_field (arch build) (options_arch options))
            (inherit_field (channel build) (options_channel options))
            (inherit_field (version build) (options_version options))
            (assets build)
  else build.

(** [const [platform, arch, channel, version] = build.split('-')] *)
Definition parseBuildId (s : string) : Build :=
  let parts := split hyphen s in
  mkBuild (parts !! 0%nat) (parts !! 1%nat) (parts !! 2%nat)
          (parts !! 3%nat) [].

(** [if (build.version && build.version.indexOf('v') === 0)
      build.version = build.version.substring(1)] *)
Definition stripPrefix (v : option string) : option string :=
  match v with
  | Some s =>
      if truthy (VStr s) && starts_with "v" s then Some (substring1 s)
      else v
  | None => None
  end.

(** [if (typeof build === 'string') { ... build = {...}; }] *)
Definition asBuild (build : BuildArg) : Build :=
  match build with
  | BuildString s => parseBuildId s
  | BuildObject b => b
  end.

(** [normalizeBuild(build, options)] *)
Definition normalizeBuild (build : BuildArg) (options : Options)
  : outcome Build :=
  let build := asBuild build in
  let build := withDefaults build options in
  let build :=
    mkBuild (platform build) (arch build) (channel build)
            (stripPrefix (version build)) (assets build) in
  if negb (truthy_field (version build)) && negb (is_remove options) then
    Throw (Error ("Could not determine a version for build. It seems " +:+
                  "that you've not set a version in your package.json"))
  else Return build.

(** The callback of [options.builds.filter] in
    [validateIfRemoveCommand]. *)
Definition invalidBuild (build : Build) : bool :=
  match platform build, arch build, channel build, version build with
  | Some p, Some a, Some c, Some v =>
      if negb (truthy (VStr p)) || negb (truthy (VStr a))
         || negb (truthy (VStr c)) || negb (truthy (VStr v))
      then true
      else negb (matches_word p && matches_word a && matches_word c
                 && matches_semver v)
  | _, _, _, _ => true
  end.

(** [validateIfRemoveCommand(options)] *)
Definition validateIfRemoveCommand (options : Options) : outcome unit :=
  if negb (is_remove options) then Return tt
  else
    let invalidBuilds := List.filter invalidBuild (builds options) in
    if (length (builds options) =? 0)%nat then
      Throw (Error "You should specify one or more builds to remove.")
    else if negb (length invalidBuilds =? 0)%nat then
      Throw (Error
        "For the remove command you need to specify a full buildId.")
    else Return tt.

End NormalizeOptions.

(** ** Two small backends, for concrete runs *)

Module Backends.
Import AbstractTransport.

(** A backend in the manner of the local one: a file lands under
    [remoteUrl/buildId/] and its URL is [getFileUrl]; the world is the
    manifest last pushed, which [mirrorFetch] reads in place of the HTTP
    fetch; the file system accepts everything. *)
Definition mirrorHost (opts : TransportOptions) : Host value :=
  mkHost value
    (λ filePath build w,
       (w, match getFileUrl opts filePath build with
           | Return url => Return (VStr url)
           | Throw e => Throw e
           end))
    (λ json _, (json, Return (VStr "updates.json")))
    (λ _ w, (w, HttpResponse 404 ""))
    (λ _, None)
    (λ _, "")
    (λ _ w, (w, Return tt))
    (λ _ _ w, (w, Return tt))
    (λ _ _ w, (w, Return tt)).

Definition mirrorFetch : io value value := λ s, (s, Return (fst s)).

(** A backend that stores every file under an opaque object key and
    answers with the URL of that key; its host refuses HTTP connections. *)
Definition keyedHost (url : string) : Host unit :=
  mkHost unit
    (λ _ _ w, (w, Return (VStr url)))
    (λ _ w, (w, Return (VStr "updates.json")))
    (λ _ w, (w, HttpError "ECONNREFUSED"))
    (λ _, None)
    (λ _, "")
    (λ _ w, (w, Return tt))
    (λ _ _ w, (w, Return tt))
    (λ _ _ w, (w, Return tt)).

(** The options of a publish run and of a remove run. *)
Definition publishOptions : NormalizeOptions.Options :=
  NormalizeOptions.mkOptions (Some "publish") (Some "win32") (Some "x64")
    (Some "prod") (Some "1.2.3") [].

Definition removeOptions : NormalizeOptions.Options :=
  NormalizeOptions.mkOptions (Some "remove") None None None None
    [mkBuild (Some "darwin") (Some "x64") (Some "prod") (Some "9.9.9") []].

Definition exampleOptions : TransportOptions :=
  mkTransportOptions (mkBuild None None None None [])
    (Some "http://cdn.example/updates.json") (Some "http://cdn.example")
    (Some "dist") (Some (Some "archive")).

(** The build of the end-to-end scenario. *)
Definition exampleBuild : Build :=
  mkBuild (Some "win32") (Some "x64") (Some "prod") (Some "1.2.3")
    [("install", "./Setup.exe"); ("update", "./Setup.exe");
     ("metaFile", "./RELEASES")].

(** The same options with a base URL that ends in a [RELEASES]
    directory. *)
Definition releasesOptions : TransportOptions :=
  mkTransportOptions (mkBuild None None None None [])
    None (Some "http://cdn.example/RELEASES")
    (Some "dist") (Some (Some "archive")).

(** The build and the manifest of the removal scenario. *)
Definition darwinBuild : Build :=
  mkBuild (Some "darwin") (Some "x64") (Some "prod") (Some "9.9.9") [].

Definition exampleRecord (version : string) : gmap string value :=
  {[ "version" := VStr version;
     "update" := VStr "http://cdn.example/darwin-x64-prod/release.json" ]}.

Definition exampleManifest : gmap string value :=
  {[ "darwin-x64-prod" := VObj (exampleRecord "9.9.9");
     "linux-x64-prod" := VObj (exampleRecord "9.9.9") ]}.

End Backends.

(** ** The publish command, end to end *)

Module Pipeline.
Import JsString AbstractTransport Publish.

(** What a run of [publish] does, in order: the calls of the functions
    above, and the calls made around them. *)
Inductive step : Type :=
  | Core (c : call)
  | BeforeUpload (build : Build)
  | WriteFileSync (file data : string)
  | Compress (source destination : string) (entries : list string)
  | UploadReleaseArchive (filePath : string)
  | AfterUpload (build : Build).

(** What [publish] needs beyond the host: three more methods of the
    transport, [tarGzip.compress] (which either throws or ends by calling
    its callback), [fs.writeFileSync], [path.join] and
    [new Date().toISOString()]. *)
Record Backend (W : Type) : Type := mkBackend {
  backend_beforeUpload : Build → W → W * outcome unit;
  backend_afterUpload : Build → W → W * outcome value;
  backend_uploadReleaseArchive : string → W → W * outcome value;
  env_compress : string → string → list string → W → W * outcome unit;
  env_writeFileSync : string → string → W → W * outcome unit;
  env_path_join : string → string → string;
  env_toISOString : W → string
}.
Arguments backend_beforeUpload {W} _ _ _.
Arguments backend_afterUpload {W} _ _ _.
Arguments backend_uploadReleaseArchive {W} _ _ _.
Arguments env_compress {W} _ _ _ _ _.
Arguments env_writeFileSync {W} _ _ _ _.
Arguments env_path_join {W} _ _ _.
Arguments env_toISOString {W} _ _.

(** The methods a transport inherits from [AbstractTransport] unless it
    overrides them: [beforeUpload], [afterUpload] and
    [uploadReleaseArchive]. *)
Definition beforeUpload {W} (build : Build) (w : W) : W * outcome unit :=
  (w, Return tt).

Definition afterUpload {W} (build : Build) (w : W) : W * outcome value :=
  (w, Return VUndef).

Definition not_implemented {W A} (w : W) : W * outcome A :=
  (w, Throw (Error "Not implemented")).

Definition uploadReleaseArchive {W} (filePath : string)
  : W → W * outcome value := not_implemented.

(** A computation over the world and the log of steps. *)
Definition pio (W A : Type) : Type :=
  W * list step → (W * list step) * outcome A.

Definition pret {W A} (a : A) : pio W A := λ s, (s, Return a).
Definition pthrow {W A} (e : error) : pio W A := λ s, (s, Throw e).
Definition plift {W A} (r : outcome A) : pio W A := λ s, (s, r).

Definition pbind {W A B} (m : pio W A) (k : A → pio W B) : pio W B :=
  λ s, match m s with
       | (s', Return a) => k a s'
       | (s', Throw e) => (s', Throw e)
       end.

(** Performs [f] on the world and logs [e]. *)
Definition effect {W A} (e : step) (f : W → W * outcome A) : pio W A :=
  λ s, let '(w', r) := f (fst s) in ((w', snd s ++ [e]), r).

(** Runs a computation of the functions above and logs its calls. *)
Definition core {W A} (m : io W A) : pio W A :=
  λ s, let '((w', cs), r) := run m (fst s) in
       ((w', snd s ++ map Core cs), r).

Definition prun {W A} (m : pio W A) (w : W) : (W * list step) * outcome A :=
  m (w, []).

Definition steps_of {W A} (r : (W * list step) * outcome A) : list step :=
  snd (fst r).

Notation "'await' x <- m ; k" := (pbind m (λ x, k))
  (at level 10, x name, m at level 100, k at level 200).

(** *** [commandOptions.builds], an array *)

(** The methods of [Array.prototype]. *)
Definition Array_prototype : list string :=
  [ "at"; "concat"; "copyWithin"; "entries"; "every"; "fill"; "filter";
    "find"; "findIndex"; "findLast"; "findLastIndex"; "flat"; "flatMap";
    "forEach"; "includes"; "indexOf"; "join"; "keys"; "lastIndexOf"; "map";
    "pop"; "push"; "reduce"; "reduceRight"; "reverse"; "shift"; "slice";
    "some"; "sort"; "splice"; "toReversed"; "toSorted"; "toSpliced";
    "unshift"; "values"; "with" ].

Fixpoint decimal (acc : nat) (s : string) : option nat :=
  match s with
  | EmptyString => Some acc
  | String c r =>
      if NormalizeOptions.is_digit c then decimal (10 * acc + (nat_of_ascii c - 48)) r
      else None
  end.

(** The index a property key denotes: the key is the decimal text of a
    number, without a leading zero. *)
Definition array_index (key : string) : option nat :=
  match key with
  | EmptyString => None
  | String "0" EmptyString => Some 0%nat
  | String "0" _ => None
  | _ => decimal 0 key
  end.

(** What [builds[key]] finds. *)
Inductive array_member : Type :=
  | Element (build : Build)
  | Length (n : nat)
  | Method (name : string)
  | Missing.

Definition array_get (builds : list Build) (key : string) : array_member :=
  match array_index key with
  | Some i =>
      match builds !! i with
      | Some build => Element build
      | None => Missing
      end
  | None =>
      if String.eqb key "length" then Length (length builds)
      else if existsb (String.eqb key) Array_prototype || inherited key
           then Method key
           else Missing
  end.

Definition member_truthy (m : array_member) : bool :=
  match m with
  | Element _ | Method _ => true
  | Length n => negb (n =? 0)%nat
  | Missing => false
  end.

(** [m.assets], as [for ... in] walks it: a number and a function have no
    such property, and the loop over [undefined] has no round. *)
Definition member_assets (m : array_member)
  : outcome (list (string * string)) :=
  match m with
  | Element build => Return (assets build)
  | Length _ | Method _ => Return []
  | Missing => Throw (TypeError "Cannot read properties of undefined")
  end.

(** The entries [compressReleases] asks the archive to hold. *)
Definition archiveEntries (buildId : string)
    (buildAssets : list (string * string)) : list string :=
  map (λ asset, join "/" [buildId; Path.basename (snd asset)]) buildAssets
  ++ ["updates.json"].

(** The content of [release.json]. *)
Definition releaseData (fields assets : gmap string value)
    (pub_date : string) : gmap string value :=
  {[ "url" := obj_get assets "update";
     "name" := or_else (obj_get fields "name") (VStr "");
     "notes" := or_else (obj_get fields "notes") (VStr "");
     "pub_date" := VStr pub_date ]}.

Section Commands.
Context {W : Type} (host : Host W) (backend : Backend W)
  (opts : TransportOptions).

(** [compressReleases(build)]; [builds] is [commandOptions.builds]. *)
Definition compressReleases (builds : list Build) (build : Build)
  : pio W string :=
  let buildId := getBuildId opts (Some build) true in
  await archiveDirectory <- plift (archiveDirectory opts);
  let buildIndex :=
    if member_truthy (array_get builds buildId) then buildId else "0" in
  await buildAssets <- plift (member_assets (array_get builds buildIndex));
  let archivePath :=
    join_fields "/" [path opts; Some (buildId +:+ ".tar.gz")] in
  let entries := archiveEntries buildId buildAssets in
  await _ <- effect (Compress archiveDirectory archivePath entries)
               (env_compress backend archiveDirectory archivePath entries);
  pret archivePath.

(** [publishOsxReleaseFile(build, options, assets, transport)];
    [assetsPath] is [build.assetsPath] and [fields] is [options.fields]. *)
Definition publishOsxReleaseFile (build : Build)
    (assetsPath : option string) (fields assets : gmap string value)
  : pio W (gmap string value) :=
  λ s,
    let data :=
      releaseData fields assets (env_toISOString backend (fst s)) in
    match assetsPath with
    | None =>
        (s, Throw (TypeError "The path argument must be of type string"))
    | Some dir =>
        let releaseFilePath := env_path_join backend dir "release.json" in
        let text := host_JSON_stringify host (VObj data) in
        (await _ <- effect (WriteFileSync releaseFilePath text)
                      (env_writeFileSync backend releaseFilePath text);
         await releaseUrl <- core (uploadFile host releaseFilePath build);
         pret (obj_set "update" releaseUrl assets)) s
    end.

(** [publish(build, options)].  [fetch] is [transport.fetchUpdatesJson];
    registering the progress listener takes no step. *)
Definition publish (fetch : io W value) (builds : list Build)
    (build : Build) (assetsPath : option string)
    (fields : gmap string value) : pio W value :=
  await _ <- effect (BeforeUpload build)
               (backend_beforeUpload backend build);
  await assets <- core (publishAssets host opts build);
  await assets <-
    (if strict_eq (of_field (platform build)) (VStr "darwin")
     then publishOsxReleaseFile build assetsPath fields assets
     else pret assets);
  await _ <- core (publishRecord host opts fetch build fields assets);
  await filePath <- compressReleases builds build;
  await _ <- effect (UploadReleaseArchive filePath)
               (backend_uploadReleaseArchive backend filePath);
  effect (AfterUpload build) (backend_afterUpload backend build).

End Commands.

End Pipeline.

(** ** [lib/utils/normalize-options.js]: the builds of a command *)

Module TransformBuilds.
Import JsString NormalizeOptions.

(** [builds.map(b => normalizeBuild(b, options))]: the first build that
    throws ends the loop. *)
Fixpoint normalizeBuilds (builds : list BuildArg) (options : Options)
  : outcome (list Build) :=
  match builds with
  | [] => Return []
  | b :: rest =>
      match normalizeBuild b options with
      | Throw e => Throw e
      | Return b =>
          match normalizeBuilds rest options with
          | Throw e => Throw e
          | Return rest => Return (b :: rest)
          end
      end
  end.

Definition with_builds (options : Options) (builds : list Build) : Options :=
  mkOptions (command options) (options_platform options)
            (options_arch options) (options_channel options)
            (options_version options) builds.

(** [transformBuilds(options)].  [given] is [options.builds] on entry,
    [None] when it is not set; [getAvailableBuilds] is the function of
    [./add-assets-info] of that name. *)
Definition transformBuilds
    (getAvailableBuilds : Options → list BuildArg)
    (given : option (list BuildArg)) (options : Options)
  : outcome Options :=
  let builds := default [] given in
  let builds :=
    match builds with
    | BuildString first :: _ =>
        if String.eqb first "all" then getAvailableBuilds options
        else builds
    | _ => builds
    end in
  match normalizeBuilds builds options with
  | Throw e => Throw e
  | Return builds =>
      let options := with_builds options builds in
      if is_remove options then Return options
      else if (length builds =? 0)%nat then
        let build :=
          mkBuild (options_platform options) (options_arch options)
                  (options_channel options) (options_version options) [] in
        if negb (truthy_field (version build)) then
          Throw (Error ("Could not determine a version for build. It " +:+
                        "seems that you've not set a version in your " +:+
                        "package.json"))
        else Return (with_builds options [build])
      else Return options
  end.

End TransformBuilds.

(** ** [lib/utils/normalize-options.js]: the sources of the options *)

Module ApplyOptions.
Import JsString.

(** The characters of a string, as the properties [0], [1], ... that
    [Object.assign] copies from a string source. *)
Fixpoint characters (i : nat) (s : string) : gmap string value :=
  match s with
  | EmptyString => ∅
  | String c r => <[pretty i := VStr (String c "")]> (characters (S i) r)
  end.

(** The own enumerable properties of a source of [Object.assign]:
    [undefined] and [null] are skipped, a number, a boolean and a function
    have none. *)
Definition own_properties (v : value) : gmap string value :=
  match v with
  | VObj o => o
  | VStr s => characters 0 s
  | _ => ∅
  end.

(** [Object.assign({}, a, b)] for any two sources. *)
Definition assign_values (a b : value) : gmap string value :=
  Publish.assign (own_properties a) (own_properties b).

(** [applyConfigJson(options, configJson)] *)
Definition applyConfigJson (options configJson : gmap string value)
  : gmap string value :=
  let configJson :=
    if String.eqb (type_of (obj_get configJson "transport")) "string"
    then obj_set "transport"
           (VObj {["name" := obj_get configJson "transport"]}) configJson
    else configJson in
  let options :=
    obj_set "transport"
      (VObj (assign_values (obj_get configJson "transport")
                           (obj_get options "transport"))) options in
  let options :=
    obj_set "fields"
      (VObj (assign_values (obj_get configJson "fields")
                           (obj_get options "fields"))) options in
  Publish.assign configJson options.

(** [if (v) values[k] = v] *)
Definition set_if_truthy (k : string) (v : value)
    (values : gmap string value) : gmap string value :=
  if truthy v then obj_set k v values else values.

(** The object [values] that [applyPackageJson] fills. *)
Definition packageValues (packageJson : gmap string value)
  : outcome (gmap string value) :=
  let values : gmap string value := ∅ in
  let updater := or_else (obj_get packageJson "updater") (VObj ∅) in
  let values :=
    set_if_truthy "version" (obj_get packageJson "version") values in
  match get_prop updater "channel", get_prop updater "url",
        get_prop updater "build" with
  | Some channel, Some url, Some build =>
      let values := set_if_truthy "channel" channel values in
      let values := set_if_truthy "updatesJsonUrl" url values in
      if truthy build then
        match build with
        | VStr s =>
            let parts := split hyphen s in
            let values :=
              set_if_truthy "platform" (of_field (parts !! 0%nat)) values in
            let values :=
              set_if_truthy "arch" (of_field (parts !! 1%nat)) values in
            Return values
        | _ => Throw (TypeError "updater.build.split is not a function")
        end
      else Return values
  | _, _, _ => Throw (TypeError "Cannot read properties of undefined")
  end.

(** [applyPackageJson(options, packageJson)] *)
Definition applyPackageJson (options packageJson : gmap string value)
  : outcome (gmap string value) :=
  let options := obj_set "packageJson" (VObj packageJson) options in
  match packageValues packageJson with
  | Throw e => Throw e
  | Return values => Return (Publish.assign values options)
  end.

(** [applyPlatformDefaults(options, process)]; [platform] and [arch] are
    [process.platform] and [process.arch]. *)
Definition applyPlatformDefaults (options : gmap string value)
    (platform arch : value) : gmap string value :=
  let info : gmap string value :=
    {[ "platform" := platform; "arch" := arch ]} in
  Publish.assign info options.

(** [applyDefaults(options)] *)
Definition applyDefaults (options : gmap string value)
  : gmap string value :=
  let defaults : gmap string value :=
    {[ "channel" := VStr "prod"; "path" := VStr "dist" ]} in
  Publish.assign defaults options.

(** The four steps of [normalize] that merge the sources of the options:
    the file of the publisher, [package.json], the process and the
    defaults. *)
Definition applySources (options configJson packageJson : gmap string value)
    (platform arch : value) : outcome (gmap string value) :=
  let options := applyConfigJson options configJson in
  match applyPackageJson options packageJson with
  | Throw e => Throw e
  | Return options =>
      let options := applyPlatformDefaults options platform arch in
      Return (applyDefaults options)
  end.

End ApplyOptions.

(** ** Backends and builds for concrete runs of [publish] *)

Module Fixtures.
Import Pipeline.

(** A backend that keeps the inherited hooks, stores the archive and
    answers with its URL; the file system accepts everything and the clock
    stands still. *)
Definition plainBackend : Backend value :=
  mkBackend value
    beforeUpload
    afterUpload
    (λ filePath w, (w, Return (VStr ("http://cdn.example/" +:+ filePath))))
    (λ _ _ _ w, (w, Return tt))
    (λ _ _ w, (w, Return tt))
    (λ dir file, dir +:+ "/" +:+ file)
    (λ _, "2020-01-01T00:00:00.000Z").

(** The same backend without an [uploadReleaseArchive] of its own. *)
Definition inheritingBackend : Backend value :=
  mkBackend value
    beforeUpload
    afterUpload
    uploadReleaseArchive
    (λ _ _ _ w, (w, Return tt))
    (λ _ _ w, (w, Return tt))
    (λ dir file, dir +:+ "/" +:+ file)
    (λ _, "2020-01-01T00:00:00.000Z").

(** A darwin build with its two files. *)
Definition macBuild : Build :=
  mkBuild (Some "darwin") (Some "x64") (Some "prod") (Some "9.9.9")
    [("install", "dist/mac/My App.dmg"); ("update", "dist/mac/App.zip")].

(** A host whose world is the answer [http.get] will give; its
    [JSON.parse] reads the empty object and the number five and rejects
    everything else. *)
Definition answeringHost : Host http_result :=
  mkHost http_result
    (λ _ _ w, (w, Return (VStr "http://cdn.example/file")))
    (λ _ w, (w, Return (VStr "updates.json")))
    (λ _ w, (w, w))
    (λ body, if String.eqb body "{}" then Some (VObj ∅)
             else if String.eqb body "5" then Some (VNum (num_of_Z 5))
             else None)
    (λ _, "")
    (λ _ w, (w, Return tt))
    (λ _ _ w, (w, Return tt))
    (λ _ _ w, (w, Return tt)).

(** A backend that rejects every upload. *)
Definition rejectingHost : Host unit :=
  mkHost unit
    (λ _ _ w, (w, Throw (External "EACCES")))
    (λ _ w, (w, Return (VStr "updates.json")))
    (λ _ w, (w, HttpResponse 404 ""))
    (λ _, None)
    (λ _, "")
    (λ _ w, (w, Return tt))
    (λ _ _ w, (w, Return tt))
    (λ _ _ w, (w, Return tt)).

(** A build whose installer comes after another file. *)
Definition laterBuild : Build :=
  mkBuild (Some "win32") (Some "x64") (Some "prod") (Some "1.2.3")
    [("notes", "./notes.txt"); ("install", "./Setup.exe");
     ("update", "./Setup.exe")].

(** The sources of the options of a command. *)
Definition givenOptions : gmap string value :=
  {[ "command" := VStr "publish"; "version" := VUndef ]}.

Definition publisherJson : gmap string value :=
  {[ "transport" := VStr "local"; "channel" := VStr "beta";
     "version" := VStr "0.0.1" ]}.

Definition packageJson : gmap string value :=
  {[ "version" := VStr "1.2.3";
     "updater" := VObj {[ "url" := VStr "http://cdn.example/updates.json";
                          "build" := VStr "darwin-x64" ]} ]}.

End Fixtures.

(** ** Vocabulary of the statements *)

(** The number of [uploadFile] calls for the path [p] among [cs]. *)
Definition is_upload_of (p : string) (c : call) : bool :=
  match c with
  | CallUploadFile q => String.eqb q p
  | _ => false
  end.

Definition uploads_of (p : string) (cs : list call) : nat :=
  length (List.filter (is_upload_of p) cs).

(** [pat] occurs in [s +:+ pat] at the end only. *)
Definition only_at_end (pat s : string) : Prop :=
  ∀ i, (i < String.length s)%nat →
       JsString.starts_with pat (JsString.drop i (s +:+ pat)) = false.

(** A non-empty string of decimal digits. *)
Definition digits (s : string) : Prop :=
  s ≠ "" ∧ JsString.has_char (negb ∘ NormalizeOptions.is_digit) s = false.

Definition starts_with_digit (s : string) : bool :=
  match s with
  | String c _ => NormalizeOptions.is_digit c
  | EmptyString => false
  end.

(** [v] has a part of the form digits, dot, digits, dot, digits. *)
Definition semver_like (v : string) : Prop :=
  ∃ pre a b c post,
    v = pre +:+ a +:+ "." +:+ b +:+ "." +:+ c +:+ post
    ∧ digits a ∧ digits b ∧ digits c.

(** A JSON scalar: a boolean, a number or a string. *)
Definition is_scalar (v : value) : bool :=
  match v with
  | VBool _ | VNum _ | VStr _ => true
  | _ => false
  end.

(** A value the cache [uploaded] can hold: a truthy value or the empty
    string. *)
Definition cached (v : value) : Prop := or_else v (VStr "") = v.

(** What holds of the two objects of [publishAssets] and of the calls made
    so far, between two assets: [result.local] is an object, the cache holds
    only ordinary keys and cached values, and a path was uploaded once if it
    is in the cache and never otherwise. *)
Record chain_inv (acc : Publish.Acc) (cs : list call) : Prop := mkChainInv {
  inv_local : ∃ L, Publish.result acc !! "local" = Some (VObj L);
  inv_cached : ∀ p v, Publish.uploaded acc !! p = Some v →
                      inherited p = false ∧ cached v;
  inv_count : ∀ q, uploads_of q cs
                   = match Publish.uploaded acc !! q with
                     | Some _ => 1%nat
                     | None => 0%nat
                     end
}.

(** The entries of the asset [name]: the URL under [result[name]] and the
    mirror path under [result.local[name]] when the cached value [u] is
    truthy, and what [before] and [before_local] held otherwise. *)
Definition asset_entries (opts : TransportOptions) (build : Build)
    (name : string) (u : value)
    (before after before_local after_local : gmap string value) : Prop :=
  if truthy u then
    ∃ url, u = VStr url
           ∧ after !! name = Some (VStr url)
           ∧ after_local !! name
             = Some (VStr (JsString.join "/"
                  [AbstractTransport.getBuildId opts (Some build) true;
                   Path.basename url]))
  else after !! name = before !! name
       ∧ after_local !! name = before_local !! name.

(** The file in the mirror [duplicateMetaFiles] copies [filePath] to, when
    ['archive-local-directory'] is [dir]. *)
Definition mirrorPath (opts : TransportOptions) (dir : option string)
    (build : Build) (filePath : string) : string :=
  JsString.join "/"
    [AbstractTransport.join_fields "/" [path opts; dir];
     AbstractTransport.getBuildId opts (Some build) true;
     Path.basename filePath].

(** A backend that answers every upload of [build] with [getFileUrl]. *)
Definition answers_getFileUrl {W} (host : Host W) (opts : TransportOptions)
    (build : Build) : Prop :=
  ∀ p w, snd (host_uploadFile host p build w)
         = match AbstractTransport.getFileUrl opts p build with
           | Return url => Return (VStr url)
           | Throw e => Throw e
           end.

(** What happens between [publishAssets] and the manifest record, from the
    world [w] with the assets [assets0]: for a darwin build,
    [release.json] is written and uploaded, and its URL takes the place of
    [assets.update]; for any other build, nothing. *)
Definition release_phase {W} (host : Host W) (backend : Pipeline.Backend W)
    (build : Build) (assetsPath : option string)
    (fields assets0 : gmap string value) (w : W)
    (w' : W) (steps : list Pipeline.step) (assets : gmap string value)
  : Prop :=
  if strict_eq (of_field (platform build)) (VStr "darwin") then
    ∃ dir written releaseUrl,
      let file := Pipeline.env_path_join backend dir "release.json" in
      let text :=
        host_JSON_stringify host
          (VObj (Pipeline.releaseData fields assets0
                   (Pipeline.env_toISOString backend w))) in
      assetsPath = Some dir
      ∧ Pipeline.env_writeFileSync backend file text w
        = (written, Return tt)
      ∧ host_uploadFile host file build written = (w', Return releaseUrl)
      ∧ assets = obj_set "update" releaseUrl assets0
      ∧ steps = [Pipeline.WriteFileSync file text;
                 Pipeline.Core (CallUploadFile file)]
  else w' = w ∧ steps = [] ∧ assets = assets0.

(** A step that writes the manifest or its mirror copy. *)
Definition touches_manifest (s : Pipeline.step) : bool :=
  match s with
  | Pipeline.Core (CallPushUpdatesJson _)
  | Pipeline.Core (CallAppendFileSync _ _) => true
  | _ => false
  end.

(** A call that writes the file [file] of the mirror. *)
Definition writes (file : string) (c : call) : Prop :=
  match c with
  | CallCopyFileSync _ dst => dst = file
  | CallAppendFileSync dst _ => dst = file
  | _ => False
  end.

Definition is_afterUpload (s : Pipeline.step) : bool :=
  match s with
  | Pipeline.AfterUpload _ => true
  | _ => false
  end.

(** The one upload of the path [p] in the run of the chain of [assets] from
    the world [w]: the chain gets through the assets before the first one
    bound to [p], and [uploadFile], called for [p] in the world they left,
    returns [fileUrl]. *)
Definition first_upload {W} (host : Host W) (opts : TransportOptions)
    (build : Build) (assets : list (string * string)) (w : W)
    (p : string) (fileUrl : value) : Prop :=
  ∃ before name after s acc w',
    assets = before ++ (name, p) :: after
    ∧ (p ∉ map snd before)
    ∧ run (Publish.publishChain host opts build before
             (Publish.mkAcc {["local" := VObj ∅]} ∅)) w = (s, Return acc)
    ∧ host_uploadFile host p build (fst s) = (w', Return fileUrl).

(** A backend whose uploads of the files of [build] all resolve, with a
    string or with a falsy value. *)
Definition uploads_resolve {W} (host : Host W) (build : Build) : Prop :=
  ∀ p w, ∃ fileUrl,
    snd (host_uploadFile host p build w) = Return fileUrl
    ∧ (truthy fileUrl = true → ∃ url, fileUrl = VStr url).

(** A file system on which every copy succeeds. *)
Definition copies_succeed {W} (host : Host W) : Prop :=
  ∀ src dst w, snd (host_copyFileSync host src dst w) = Return tt.

(** Asset names and paths that the objects of [publishAssets] take as
    ordinary keys: no asset is called [local] or [hasOwnProperty], and no
    path is the name of a member of [Object.prototype]. *)
Definition ordinary_assets (assets : list (string * string)) : Prop :=
  Publish.has_own "hasOwnProperty" assets = false
  ∧ ∀ n p, (n, p) ∈ assets → n ≠ "local" ∧ inherited p = false.

(** * Properties *)

Import JsString Path AbstractTransport JsMath Publish NormalizeOptions.

(** ** Strings *)

Lemma append_cons c (s t : string) : String c s +:+ t = String c (s +:+ t).
Proof. reflexivity. Qed.

Lemma append_empty (t : string) : "" +:+ t = t.
Proof. reflexivity. Qed.

Lemma append_assoc (s t u : string) : (s +:+ t) +:+ u = s +:+ t +:+ u.
Proof. induction s; rewrite ?append_cons; [done|congruence]. Qed.

Lemma has_char_app p (s t : string) :
  has_char p (s +:+ t) = has_char p s || has_char p t.
Proof.
  induction s as [|c s IH]; simpl; [done|].
  by rewrite IH, orb_assoc.
Qed.

Lemma map_chars_fixed (p : ascii → bool) f (s : string) :
  (∀ c, p c = false → f c = c) → has_char p s = false → map_chars f s = s.
Proof.
  intros Hf. induction s as [|c s IH]; simpl; [done|].
  intros [Hc Hs]%orb_false_iff. rewrite Hf by done. f_equal. by apply IH.
Qed.

Lemma get_map_chars f (s : string) (i : nat) :
  String.get i (map_chars f s) = f <$> String.get i s.
Proof.
  revert i. induction s as [|c s IH]; intros [|i]; simpl; auto.
Qed.

(** ** [path.basename] *)

Lemma is_empty_true (s : string) : is_empty s = true → s = "".
Proof. by destruct s. Qed.

(** A path is its directory part, its base name and the separators that
    trail it. *)
Lemma drop_trailing_slashes_spec (s : string) :
  ∃ tail, s = drop_trailing_slashes s +:+ tail
          ∧ has_char (negb ∘ is_slash) tail = false.
Proof.
  induction s as [|c s (tail & Hs & Htail)]; simpl.
  - by exists "".
  - destruct (is_slash c) eqn:Hc; simpl.
    + destruct (is_empty (drop_trailing_slashes s)) eqn:He.
      * apply is_empty_true in He. rewrite He, append_empty in Hs. subst s.
        exists (String c tail). split; [done|].
        simpl. by rewrite Hc.
      * exists tail. split; [|done]. by rewrite append_cons, <- Hs.
    + exists tail. split; [|done]. by rewrite append_cons, <- Hs.
Qed.

Lemma last_segment_spec (s : string) :
  ∃ dir, s = dir +:+ last_segment s
         ∧ has_char is_slash (last_segment s) = false
         ∧ (dir = "" ∨ ∃ d, dir = d +:+ "/").
Proof.
  induction s as [|c s (dir & Hs & Hno & Hdir)]; simpl.
  - exists "". auto.
  - destruct (has_char is_slash s) eqn:Hs'.
    + exists (String c dir). split; [by rewrite append_cons, <- Hs|].
      split; [done|]. right.
      destruct Hdir as [->|[d ->]].
      * rewrite append_empty in Hs. rewrite <- Hs in Hno. congruence.
      * by exists (String c d).
    + destruct (is_slash c) eqn:Hc.
      * exists (String c ""). split; [done|]. split; [done|]. right.
        exists "". rewrite append_empty. unfold is_slash in Hc.
        by apply Ascii.eqb_eq in Hc as ->.
      * exists "". split; [done|]. split; [|by left].
        simpl. by rewrite Hc, Hs'.
Qed.

Lemma basename_no_slash (p : string) : has_char is_slash (basename p) = false.
Proof.
  unfold basename.
  by destruct (last_segment_spec (drop_trailing_slashes p)) as (? & _ & ? & _).
Qed.

Lemma basename_decompose (p : string) :
  ∃ dir tail,
    p = dir +:+ basename p +:+ tail
    ∧ (dir = "" ∨ ∃ d, dir = d +:+ "/")
    ∧ has_char (negb ∘ is_slash) tail = false.
Proof.
  destruct (drop_trailing_slashes_spec p) as (tail & Hp & Htail).
  destruct (last_segment_spec (drop_trailing_slashes p)) as (dir & Hd & _ & Hdir).
  exists dir, tail. split; [|done].
  unfold basename. rewrite Hp at 1. rewrite Hd at 1.
  apply append_assoc.
Qed.

Lemma drop_trailing_slashes_fixed (s : string) :
  has_char is_slash s = false → drop_trailing_slashes s = s.
Proof.
  induction s as [|c s IH]; simpl; [done|].
  intros [Hc Hs]%orb_false_iff. rewrite Hc. simpl. by rewrite IH.
Qed.

Lemma last_segment_fixed (s : string) :
  has_char is_slash s = false → last_segment s = s.
Proof.
  destruct s as [|c s]; simpl; [done|].
  by intros [-> ->]%orb_false_iff.
Qed.

Lemma basename_fixed (s : string) :
  has_char is_slash s = false → basename s = s.
Proof.
  intros H. unfold basename.
  by rewrite drop_trailing_slashes_fixed, last_segment_fixed.
Qed.

(** ** [normalizeFileName] *)

Lemma normalizeFileName_no_slash (f : string) :
  has_char is_slash (normalizeFileName f) = false.
Proof.
  unfold normalizeFileName, replace_whitespace.
  pose proof (basename_no_slash f) as Hb.
  induction (basename f) as [|c s IH]; simpl in *; [done|].
  apply orb_false_iff in Hb as [Hc Hs]. rewrite IH by done.
  destruct (is_whitespace c); [reflexivity | by rewrite Hc].
Qed.

Lemma normalizeFileName_no_whitespace (f : string) :
  has_char is_whitespace (normalizeFileName f) = false.
Proof.
  unfold normalizeFileName, replace_whitespace.
  induction (basename f) as [|c s IH]; simpl; [done|].
  rewrite IH. by destruct (is_whitespace c) eqn:Hc; rewrite ?Hc.
Qed.

(** X1: Normalizing twice changes nothing more. *)
Lemma normalizeFileName_idempotent (f : string) :
  normalizeFileName (normalizeFileName f) = normalizeFileName f.
Proof.
  unfold normalizeFileName at 1.
  rewrite basename_fixed by apply normalizeFileName_no_slash.
  apply (map_chars_fixed is_whitespace).
  - by intros c ->.
  - apply normalizeFileName_no_whitespace.
Qed.

(** C5, as the code has it: the directory part and the trailing separators
    of [f] are dropped, and each whitespace character of the base name
    becomes one hyphen, every other character staying in place; a run of two
    blanks therefore becomes two hyphens. *)
Theorem normalizeFileName_spec (f : string) :
  (∃ dir tail,
      f = dir +:+ basename f +:+ tail
      ∧ (dir = "" ∨ ∃ d, dir = d +:+ "/")
      ∧ has_char (negb ∘ is_slash) tail = false)
  ∧ has_char is_slash (normalizeFileName f) = false
  ∧ has_char is_whitespace (normalizeFileName f) = false
  ∧ (∀ i, String.get i (normalizeFileName f)
          = (λ c, if is_whitespace c then hyphen else c)
              <$> String.get i (basename f))
  ∧ normalizeFileName "My Installer  v1.dmg" = "My-Installer--v1.dmg".
Proof.
  split; [apply basename_decompose|].
  split; [apply normalizeFileName_no_slash|].
  split; [apply normalizeFileName_no_whitespace|].
  split; [|reflexivity].
  intros i. apply get_map_chars.
Qed.

(** C5 as stated fails on its own example: the two blanks of
    ["My Installer  v1.dmg"] give two hyphens. *)
Lemma normalizeFileName_keeps_run_length :
  normalizeFileName "My Installer  v1.dmg" ≠ "My-Installer-v1.dmg".
Proof. by vm_compute. Qed.

Lemma drop_trailing_slashes_app (a n : string) :
  n ≠ "" → has_char is_slash n = false →
  drop_trailing_slashes (a +:+ n) = a +:+ n.
Proof.
  intros Hne Hn. induction a as [|c a IH].
  - rewrite append_empty. by apply drop_trailing_slashes_fixed.
  - rewrite append_cons. simpl. rewrite IH.
    destruct a, n; try done; simpl; by rewrite andb_false_r.
Qed.

Lemma last_segment_app (a n : string) :
  has_char is_slash n = false → last_segment (a +:+ "/" +:+ n) = n.
Proof.
  intros Hn. change ("/" +:+ n) with (String slash n).
  induction a as [|c a IH].
  - rewrite append_empty. simpl. by rewrite Hn.
  - rewrite append_cons. simpl. rewrite IH, has_char_app. simpl.
    by rewrite orb_true_r.
Qed.

Lemma basename_app (a n : string) :
  n ≠ "" → has_char is_slash n = false → basename (a +:+ "/" +:+ n) = n.
Proof.
  intros Hne Hn. unfold basename.
  rewrite <- append_assoc, drop_trailing_slashes_app by done.
  rewrite append_assoc. by apply last_segment_app.
Qed.

(** X3: For a backend that answers [uploadFile] with [getFileUrl], the last
    segment of the URL of a file with a non-empty base name is the normalized
    file name; the mirror path [publishAssets] derives from the URL then ends
    in the normalized name. *)
Theorem getFileUrl_basename opts filePath build url :
  getFileUrl opts filePath build = Return url →
  normalizeFileName filePath ≠ "" →
  basename url = normalizeFileName filePath
  ∧ join "/" [getBuildId opts (Some build) true; basename url]
    = join "/" [getBuildId opts (Some build) true;
                normalizeFileName filePath].
Proof.
  unfold getFileUrl. destruct (remoteUrl opts) as [remote|]; [|done].
  intros Hurl Hne.
  assert (Hbase : basename url = normalizeFileName filePath).
  { injection Hurl as <-.
    change (join "/" [?a; ?b; ?c]) with (a +:+ "/" +:+ b +:+ "/" +:+ c).
    rewrite <- (append_assoc (chop_slash remote)), <- append_assoc.
    apply basename_app; [done|apply normalizeFileName_no_slash]. }
  by rewrite Hbase.
Qed.

(** The installer of the normalization example, under the example options. *)
Lemma getFileUrl_basename_witness :
  basename "http://cdn.example/win32-x64-prod-v1.2.3/My-Installer--v1.dmg"
  = normalizeFileName "dist/My Installer  v1.dmg"
  ∧ join "/" [getBuildId Backends.exampleOptions
                (Some Backends.exampleBuild) true;
              basename
                "http://cdn.example/win32-x64-prod-v1.2.3/My-Installer--v1.dmg"]
    = join "/" [getBuildId Backends.exampleOptions
                  (Some Backends.exampleBuild) true;
                normalizeFileName "dist/My Installer  v1.dmg"].
Proof.
  apply (getFileUrl_basename Backends.exampleOptions
           "dist/My Installer  v1.dmg" Backends.exampleBuild).
  - reflexivity.
  - discriminate.
Defined.

(** ** Build identifiers *)

Definition is_hyphen (c : ascii) : bool := Ascii.eqb c hyphen.

Lemma getBuildId_has_hyphen opts build includeVersion :
  has_char is_hyphen (getBuildId opts build includeVersion) = true.
Proof.
  unfold getBuildId.
  destruct includeVersion; simpl; rewrite !has_char_app; simpl;
    by rewrite !orb_true_r.
Qed.

(** No member of [Object.prototype] has a hyphen in its name, so a build
    identifier is always an ordinary key of the manifest. *)
Lemma inherited_no_hyphen (k : string) :
  inherited k = true → has_char is_hyphen k = false.
Proof.
  unfold inherited, Object_prototype. simpl.
  repeat match goal with
         | |- context [String.eqb k ?n] =>
             destruct (String.eqb_spec k n) as [->|_]; [by intros _|]
         end.
  simpl. discriminate.
Qed.

Lemma getBuildId_not_inherited opts build includeVersion :
  inherited (getBuildId opts build includeVersion) = false.
Proof.
  destruct (inherited _) eqn:H; [|done].
  apply inherited_no_hyphen in H.
  by rewrite getBuildId_has_hyphen in H.
Qed.

Lemma inherited_proto : inherited "__proto__" = true.
Proof. reflexivity. Qed.

Lemma obj_set_ordinary k v (o : gmap string value) :
  inherited k = false → obj_set k v o = <[k := v]> o.
Proof.
  intros Hk. unfold obj_set.
  destruct (String.eqb_spec k "__proto__") as [->|_]; [|done].
  by rewrite inherited_proto in Hk.
Qed.

Lemma obj_get_ordinary k (o : gmap string value) :
  inherited k = false → obj_get o k = default VUndef (o !! k).
Proof. intros Hk. unfold obj_get. rewrite Hk. by destruct (o !! k). Qed.

(** ** The manifest update *)

(** The record [entry] stored for a build is a truthy value whose [version]
    is strictly equal to the version of [build]. *)
Definition sameVersion (build : Build) (entry : value) : Prop :=
  truthy entry = true
  ∧ ∃ v, get_prop entry "version" = Some v
         ∧ strict_eq (of_field (version build)) v = true.

Lemma updateSection_record opts build (data json : gmap string value) :
  updateSection opts build (VObj data) (VObj json)
  = Return (VObj (<[getBuildId opts (Some build) false := VObj data]> json)).
Proof.
  unfold updateSection. simpl.
  by rewrite obj_set_ordinary by apply getBuildId_not_inherited.
Qed.

Lemma falsy_not_object (data : value) :
  truthy data = false → data ≠ VNull →
  String.eqb (type_of data) "object" = false.
Proof. by destruct data. Qed.

Lemma sameVersion_iff build entry :
  (if truthy entry then
     match get_prop entry "version" with
     | Some v => strict_eq (of_field (version build)) v
     | None => false
     end
   else false) = true
  ↔ sameVersion build entry.
Proof.
  unfold sameVersion. split.
  - destruct (truthy entry); [|done].
    destruct (get_prop entry "version") as [v|]; [|done]. eauto.
  - intros [-> (v & -> & Hv)]. done.
Qed.

Lemma updateSection_removal opts build data (json : gmap string value) :
  truthy data = false → data ≠ VNull →
  let buildId := getBuildId opts (Some build) false in
  ∃ hit : bool,
    updateSection opts build data (VObj json)
    = Return (VObj (if hit then delete buildId json else json))
    ∧ (hit = true
       ↔ ∃ entry, json !! buildId = Some entry ∧ sameVersion build entry).
Proof.
  intros Hfalsy Hnull buildId.
  unfold updateSection. fold buildId.
  rewrite (falsy_not_object data) by done. simpl.
  rewrite obj_get_ordinary by apply getBuildId_not_inherited.
  destruct (json !! buildId) as [entry|] eqn:Hentry; simpl.
  - pose proof (sameVersion_iff build entry) as Hiff.
    destruct (if truthy entry then _ else _).
    + exists true. split; [done|]. split; [|done].
      intros _. exists entry. split; [done|]. by apply Hiff.
    + exists false. split; [done|]. split; [done|].
      intros (? & [= <-] & Hsame). apply Hiff in Hsame. discriminate.
  - exists false. split; [done|]. split; [done|]. by intros (? & ? & _).
Qed.

Lemma updateUpdatesJson_run {W} (host : Host W) opts (fetch : io W value)
    build data w s' json json' :
  fetch (w, []) = (s', Return json) →
  updateSection opts build data json = Return json' →
  run (updateUpdatesJson host opts fetch build data) w
  = (let '(w', r) := host_pushUpdatesJson host json' (fst s') in
     ((w', snd s' ++ [CallPushUpdatesJson json']), r)).
Proof.
  intros Hfetch Hsection.
  unfold run, updateUpdatesJson, IO.bind, lift, perform_outcome.
  by rewrite Hfetch, Hsection.
Qed.

Lemma calls_of_push {W} (host : Host W) json (s : IO.state W) :
  calls_of (let '(w', r) := host_pushUpdatesJson host json (fst s) in
            ((w', snd s ++ [CallPushUpdatesJson json]), r))
  = snd s ++ [CallPushUpdatesJson json].
Proof. by destruct (host_pushUpdatesJson host json (fst s)). Qed.

(** C3: when the fetched manifest is the object [json] and [data] is a
    record, the one manifest pushed back holds exactly [data] under the
    build identifier without version, and every other key as it was. *)
Theorem updateUpdatesJson_overwrites {W} (host : Host W) opts
    (fetch : io W value) build (data json : gmap string value) w s' :
  fetch (w, []) = (s', Return (VObj json)) →
  let buildId := getBuildId opts (Some build) false in
  ∃ json',
    calls_of (run (updateUpdatesJson host opts fetch build (VObj data)) w)
    = snd s' ++ [CallPushUpdatesJson (VObj json')]
    ∧ json' !! buildId = Some (VObj data)
    ∧ ∀ k, k ≠ buildId → json' !! k = json !! k.
Proof.
  intros Hfetch buildId.
  exists (<[buildId := VObj data]> json).
  rewrite (updateUpdatesJson_run _ _ _ _ _ _ _ _ _ Hfetch
             (updateSection_record opts build data json)).
  split; [apply calls_of_push|].
  split; [apply lookup_insert_eq|].
  intros k Hk. by apply lookup_insert_ne.
Qed.

(** C1, as the code has it: when the fetched manifest is the object [json]
    and [data] is falsy and not [null], the one manifest pushed back is
    [json] without the key of the build if the entry stored there is a
    truthy record of the build's version, and [json] itself otherwise; no
    other key changes in either case. *)
Theorem updateUpdatesJson_removes {W} (host : Host W) opts
    (fetch : io W value) build data (json : gmap string value) w s' :
  fetch (w, []) = (s', Return (VObj json)) →
  truthy data = false →
  data ≠ VNull →
  let buildId := getBuildId opts (Some build) false in
  ∃ json',
    calls_of (run (updateUpdatesJson host opts fetch build data) w)
    = snd s' ++ [CallPushUpdatesJson (VObj json')]
    ∧ ((∃ entry, json !! buildId = Some entry ∧ sameVersion build entry)
       → json' = delete buildId json)
    ∧ ((¬ ∃ entry, json !! buildId = Some entry ∧ sameVersion build entry)
       → json' = json)
    ∧ ∀ k, k ≠ buildId → json' !! k = json !! k.
Proof.
  intros Hfetch Hfalsy Hnull buildId.
  destruct (updateSection_removal opts build data json Hfalsy Hnull)
    as (hit & Hsection & Hhit).
  exists (if hit then delete buildId json else json).
  rewrite (updateUpdatesJson_run _ _ _ _ _ _ _ _ _ Hfetch Hsection).
  split; [apply calls_of_push|].
  split; [intros ->%Hhit; done|].
  split.
  - intros Hmiss. destruct hit; [|done]. destruct Hmiss. by apply Hhit.
  - intros k Hk. destruct hit; [|done]. by apply lookup_delete_ne.
Qed.

(** The overwrite, on the manifest of the removal scenario and a record of
    version 10.0.0. *)
Lemma updateUpdatesJson_overwrites_witness :
  ∃ json',
    calls_of (run (updateUpdatesJson (Backends.keyedHost "")
                     Backends.exampleOptions
                     (ret (VObj Backends.exampleManifest))
                     Backends.darwinBuild
                     (VObj (Backends.exampleRecord "10.0.0"))) tt)
    = [] ++ [CallPushUpdatesJson (VObj json')]
    ∧ json' !! "darwin-x64-prod" = Some (VObj (Backends.exampleRecord "10.0.0"))
    ∧ ∀ k, k ≠ "darwin-x64-prod" → json' !! k = Backends.exampleManifest !! k.
Proof.
  apply (updateUpdatesJson_overwrites (Backends.keyedHost "")
           Backends.exampleOptions (ret (VObj Backends.exampleManifest))
           Backends.darwinBuild (Backends.exampleRecord "10.0.0")
           Backends.exampleManifest tt (tt, [])).
  reflexivity.
Defined.

(** The removal rule, on the manifest of the removal scenario with [false]
    as the signal. *)
Lemma updateUpdatesJson_removes_witness :
  ∃ json',
    calls_of (run (updateUpdatesJson (Backends.keyedHost "")
                     Backends.exampleOptions
                     (ret (VObj Backends.exampleManifest))
                     Backends.darwinBuild (VBool false)) tt)
    = [] ++ [CallPushUpdatesJson (VObj json')]
    ∧ ((∃ entry, Backends.exampleManifest !! "darwin-x64-prod" = Some entry
                 ∧ sameVersion Backends.darwinBuild entry)
       → json' = delete "darwin-x64-prod" Backends.exampleManifest)
    ∧ ((¬ ∃ entry, Backends.exampleManifest !! "darwin-x64-prod" = Some entry
                   ∧ sameVersion Backends.darwinBuild entry)
       → json' = Backends.exampleManifest)
    ∧ ∀ k, k ≠ "darwin-x64-prod" → json' !! k = Backends.exampleManifest !! k.
Proof.
  apply (updateUpdatesJson_removes (Backends.keyedHost "")
           Backends.exampleOptions (ret (VObj Backends.exampleManifest))
           Backends.darwinBuild (VBool false)
           Backends.exampleManifest tt (tt, [])).
  - reflexivity.
  - reflexivity.
  - discriminate.
Defined.

(** C1 as stated fails for [null]: [typeof null] is ["object"], so the key
    of the build is overwritten with [null] and stays in the manifest, although
    the stored record has the version of the build. *)
Lemma updateUpdatesJson_null_keeps_key :
  sameVersion Backends.darwinBuild (VObj (Backends.exampleRecord "9.9.9"))
  ∧ Backends.exampleManifest !! "darwin-x64-prod"
    = Some (VObj (Backends.exampleRecord "9.9.9"))
  ∧ ∃ json',
      calls_of (run (updateUpdatesJson (Backends.keyedHost "")
                       Backends.exampleOptions
                       (ret (VObj Backends.exampleManifest))
                       Backends.darwinBuild VNull) tt)
      = [CallPushUpdatesJson (VObj json')]
      ∧ json' !! "darwin-x64-prod" = Some VNull.
Proof.
  split; [|split].
  - split; [reflexivity|]. by exists (VStr "9.9.9").
  - reflexivity.
  - eexists. split; reflexivity.
Qed.

(** ** The manifest fetch *)

Lemma normalizeOptions_url o opts :
  normalizeOptions o = Return opts →
  ∃ url, updatesJsonUrl opts = Some url ∧ truthy (VStr url) = true.
Proof.
  unfold normalizeOptions.
  set (remote := match remoteUrl o with Some u => _ | None => None end).
  set (updates := if _ && _ then _ else _).
  destruct (truthy_field updates) eqn:Hupdates; simpl; [|done].
  intros [= <-]. simpl.
  destruct updates as [url|]; [|done]. by exists url.
Qed.

Lemma fetchUpdatesJson_run {W} (host : Host W) opts url w :
  updatesJsonUrl opts = Some url →
  run (fetchUpdatesJson host opts) w
  = (let '(w', r) := host_http_get host (chop_slash url) w in
     ((w', [CallHttpGet (chop_slash url)]),
      match r with
      | HttpError err => Throw (External err)
      | HttpResponse statusCode body =>
          if (statusCode =? 200)%Z
          then Return (default (VObj ∅) (host_JSON_parse host body))
          else Return (VObj ∅)
      end)).
Proof.
  intros Hurl.
  unfold fetchUpdatesJson, getUpdatesJsonUrl, run, IO.bind, lift, perform.
  rewrite Hurl. simpl.
  destruct (host_http_get host (chop_slash url) w) as [w' [err|status body]];
    [done|].
  destruct (status =? 200)%Z; [|done].
  by destruct (host_JSON_parse host body).
Qed.

(** C6, as the code has it: after the constructor accepted the options, the
    fetch makes one request to the manifest URL, in every world; a response
    whose status is not 200 and a body that [JSON.parse] rejects both
    resolve with the empty record, a parsed body resolves with what was
    parsed, and an error of the request itself rejects the fetch, and with
    it the manifest update that waits for it, for every build and data,
    with no call but the request. *)
Theorem fetchUpdatesJson_outcome {W} (host : Host W) o opts :
  normalizeOptions o = Return opts →
  ∃ url,
    getUpdatesJsonUrl opts = Return url
    ∧ ∀ w,
        calls_of (run (fetchUpdatesJson host opts) w) = [CallHttpGet url]
        ∧ (∀ statusCode body,
             snd (host_http_get host url w) = HttpResponse statusCode body →
             statusCode ≠ 200%Z →
             result_of (run (fetchUpdatesJson host opts) w)
             = Return (VObj ∅))
        ∧ (∀ body,
             snd (host_http_get host url w) = HttpResponse 200 body →
             host_JSON_parse host body = None →
             result_of (run (fetchUpdatesJson host opts) w)
             = Return (VObj ∅))
        ∧ (∀ body json,
             snd (host_http_get host url w) = HttpResponse 200 body →
             host_JSON_parse host body = Some json →
             result_of (run (fetchUpdatesJson host opts) w) = Return json)
        ∧ (∀ err,
             snd (host_http_get host url w) = HttpError err →
             result_of (run (fetchUpdatesJson host opts) w)
             = Throw (External err)
             ∧ ∀ build data,
                 run (updateUpdatesJson host opts
                        (fetchUpdatesJson host opts) build data) w
                 = ((fst (host_http_get host url w), [CallHttpGet url]),
                    Throw (External err))).
Proof.
  intros (url & Hurl & _)%normalizeOptions_url.
  exists (chop_slash url).
  unfold getUpdatesJsonUrl at 1. rewrite Hurl. split; [done|]. intros w.
  pose proof (fetchUpdatesJson_run host opts url w Hurl) as Hrun.
  rewrite Hrun.
  destruct (host_http_get host (chop_slash url) w) as [w' r] eqn:Hget.
  simpl. split; [done|].
  split; [|split; [|split]].
  - intros statusCode body -> Hstatus.
    by destruct (Z.eqb_spec statusCode 200).
  - by intros body -> ->.
  - by intros body json -> ->.
  - intros err ->. split; [done|]. intros build data.
    unfold run in *. unfold updateUpdatesJson, IO.bind.
    by rewrite Hrun.
Qed.

(** The fetch against a host that answers what its world holds: a missing
    manifest, a malformed one, a manifest, and a refused connection. *)
Lemma fetchUpdatesJson_outcome_witness :
  let host := Fixtures.answeringHost in
  let opts := Backends.exampleOptions in
  let fetched w := result_of (run (fetchUpdatesJson host opts) w) in
  fetched (HttpResponse 404 "Not Found") = Return (VObj ∅)
  ∧ fetched (HttpResponse 200 "<html>") = Return (VObj ∅)
  ∧ fetched (HttpResponse 200 "5") = Return (VNum (num_of_Z 5))
  ∧ fetched (HttpError "ECONNREFUSED") = Throw (External "ECONNREFUSED")
  ∧ run (updateUpdatesJson host opts (fetchUpdatesJson host opts)
           Backends.darwinBuild (VObj (Backends.exampleRecord "9.9.9")))
      (HttpError "ECONNREFUSED")
    = ((HttpError "ECONNREFUSED",
        [CallHttpGet "http://cdn.example/updates.json"]),
       Throw (External "ECONNREFUSED")).
Proof.
  intros host opts fetched.
  destruct (fetchUpdatesJson_outcome host opts opts eq_refl)
    as (url & Hurl & Hfetch).
  injection Hurl as <-.
  split; [|split; [|split; [|split]]].
  - destruct (Hfetch (HttpResponse 404 "Not Found")) as (_ & H & _).
    by apply (H 404%Z "Not Found").
  - destruct (Hfetch (HttpResponse 200 "<html>")) as (_ & _ & H & _).
    by apply (H "<html>").
  - destruct (Hfetch (HttpResponse 200 "5")) as (_ & _ & _ & H & _).
    by apply (H "5").
  - destruct (Hfetch (HttpError "ECONNREFUSED")) as (_ & _ & _ & _ & H).
    by apply (H "ECONNREFUSED").
  - destruct (Hfetch (HttpError "ECONNREFUSED")) as (_ & _ & _ & _ & H).
    by apply (H "ECONNREFUSED").
Defined.

(** C6 as stated fails when the request itself fails: the fetch rejects, and
    with it the manifest update that waits for it, before anything is
    pushed. *)
Lemma fetchUpdatesJson_rejects_on_request_error :
  normalizeOptions Backends.exampleOptions = Return Backends.exampleOptions
  ∧ result_of (run (fetchUpdatesJson (Backends.keyedHost "")
                      Backends.exampleOptions) tt)
    = Throw (External "ECONNREFUSED")
  ∧ run (updateUpdatesJson (Backends.keyedHost "") Backends.exampleOptions
           (fetchUpdatesJson (Backends.keyedHost "") Backends.exampleOptions)
           Backends.darwinBuild (VObj (Backends.exampleRecord "9.9.9"))) tt
    = ((tt, [CallHttpGet "http://cdn.example/updates.json"]),
       Throw (External "ECONNREFUSED")).
Proof. by vm_compute. Qed.

(** ** Asset publishing *)

(** C4: with no assets, [publishAssets] throws at once: the world is as it
    was, no call was made (no upload, no mirror copy), and there is no result
    map. *)
Theorem publishAssets_no_assets {W} (host : Host W) opts build w :
  assets build = [] →
  run (publishAssets host opts build) w
  = ((w, []),
     Throw (Error ("There are no assets for build " +:+
                   getBuildId opts (Some build) true +:+
                   ". Check the dist folder."))).
Proof. intros Hassets. unfold publishAssets. by rewrite Hassets. Qed.

(** A build without assets. *)
Lemma publishAssets_no_assets_witness :
  run (publishAssets (Backends.keyedHost "") Backends.exampleOptions
         Backends.darwinBuild) tt
  = ((tt, []),
     Throw (Error "There are no assets for build darwin-x64-prod-v9.9.9. Check the dist folder.")).
Proof.
  apply (publishAssets_no_assets (Backends.keyedHost "")
           Backends.exampleOptions Backends.darwinBuild tt).
  reflexivity.
Defined.

(** *** Chained computations *)

Lemma bind_inv {W A B} (m : io W A) (k : A → io W B) s s' r :
  IO.bind m k s = (s', r) →
  (∃ s1 a, m s = (s1, Return a) ∧ k a s1 = (s', r))
  ∨ (∃ e, m s = (s', Throw e) ∧ r = Throw e).
Proof.
  unfold IO.bind. destruct (m s) as [s1 [a|e]]; intros H.
  - left. eauto.
  - right. injection H as <- <-. eauto.
Qed.

Lemma lift_inv {W A} (r r' : outcome A) (s s' : IO.state W) :
  lift r s = (s', r') → s' = s ∧ r' = r.
Proof. by intros [= <- <-]. Qed.

(** *** Counting uploads *)

Lemma uploads_of_app p cs1 cs2 :
  uploads_of p (cs1 ++ cs2) = (uploads_of p cs1 + uploads_of p cs2)%nat.
Proof. unfold uploads_of. by rewrite List.filter_app, length_app. Qed.

Lemma uploadFile_calls {W} (host : Host W) p build s s' r :
  uploadFile host p build s = (s', r) →
  snd s' = snd s ++ [CallUploadFile p].
Proof.
  unfold uploadFile, perform_outcome.
  destruct (host_uploadFile host p build (fst s)). by intros [= <- _].
Qed.

Lemma try_mkdirSync_calls {W} (host : Host W) dir s s' r :
  try_mkdirSync host dir s = (s', r) →
  snd s' = snd s ++ [CallMkdirSync dir].
Proof.
  unfold try_mkdirSync, perform_outcome.
  destruct (host_mkdirSync host dir (fst s)). by intros [= <- _].
Qed.

(** The mirror copy makes no upload. *)
Lemma duplicateMetaFiles_uploads {W} (host : Host W) opts p build s s' r :
  duplicateMetaFiles host opts p build s = (s', r) →
  ∀ q, uploads_of q (snd s') = uploads_of q (snd s).
Proof.
  unfold duplicateMetaFiles. intros H q.
  apply bind_inv in H
    as [(s1 & dir & [-> _]%lift_inv & H)|(e & [-> _]%lift_inv & _)]; [|done].
  apply bind_inv in H
    as [(s2 & [] & H1%try_mkdirSync_calls & H)
       |(e & H1%try_mkdirSync_calls & _)];
    [|by rewrite H1, uploads_of_app, Nat.add_0_r].
  apply bind_inv in H
    as [(s3 & [] & H2%try_mkdirSync_calls & H)
       |(e & H2%try_mkdirSync_calls & _)];
    [|by rewrite H2, H1, !uploads_of_app, !Nat.add_0_r].
  unfold perform_outcome in H.
  destruct (host_copyFileSync host _ _ (fst s3)). injection H as <- _.
  simpl. by rewrite H2, H1, !uploads_of_app, !Nat.add_0_r.
Qed.

(** *** One asset *)

Lemma cached_or_else f : cached (or_else f (VStr "")).
Proof. unfold cached, or_else. by destruct (truthy f) eqn:H; rewrite ?H. Qed.

Lemma cached_defined v : cached v → strict_eq v VUndef = false.
Proof. by destruct v. Qed.

Lemma cached_truthy v : cached v → truthy v = false → v = VStr "".
Proof. unfold cached, or_else. intros H Hf. by rewrite Hf in H. Qed.

Lemma obj_set_insert k v (o : gmap string value) :
  k ≠ "__proto__" → obj_set k v o = <[k := v]> o.
Proof. intros Hk. unfold obj_set. by destruct (String.eqb_spec k "__proto__"). Qed.

Lemma obj_set_proto v (o : gmap string value) : obj_set "__proto__" v o = o.
Proof. reflexivity. Qed.

Lemma recordAsset_return opts build n p f acc acc' L :
  recordAsset opts build n p f acc = Return acc' →
  result acc !! "local" = Some (VObj L) →
  uploaded acc' = obj_set p (or_else f (VStr "")) (uploaded acc)
  ∧ ∃ L',
      result acc' !! "local" = Some (VObj L')
      ∧ (∀ k, k ≠ n → k ≠ "local" → result acc' !! k = result acc !! k)
      ∧ (∀ k, k ≠ n → L' !! k = L !! k)
      ∧ (n ≠ "local" → n ≠ "__proto__" →
         asset_entries opts build n (or_else f (VStr ""))
           (result acc) (result acc') L L').
Proof.
  unfold recordAsset, asset_entries. intros H Hlocal.
  assert (Hget : obj_get (result acc) "local" = VObj L)
    by (unfold obj_get; by rewrite Hlocal).
  set (up := obj_set p (or_else f (VStr "")) (uploaded acc)) in *.
  destruct (truthy f) eqn:Htruthy.
  - assert (Hor : or_else f (VStr "") = f)
      by (unfold or_else; by rewrite Htruthy).
    rewrite Hor, Htruthy.
    destruct f as [| | | |url| |]; try (repeat case_match; discriminate).
    destruct (String.eqb_spec n "__proto__") as [->|Hproto].
    + rewrite !obj_set_proto, Hget in H. injection H as <-. simpl.
      split; [done|]. exists L.
      split; [apply lookup_insert_eq|].
      split; [intros k _ Hk; by apply lookup_insert_ne|].
      split; [done|]. by intros _ [].
    + rewrite !obj_set_insert in H by done.
      destruct (decide (n = "local")) as [->|Hn].
      * unfold obj_get in H. rewrite lookup_insert_eq in H. discriminate.
      * unfold obj_get in H at 1.
        rewrite lookup_insert_ne, Hlocal in H by done.
        injection H as <-. simpl. rewrite obj_set_insert by done.
        split; [done|]. eexists.
        split; [apply lookup_insert_eq|].
        split; [intros k Hk Hk'; by rewrite !lookup_insert_ne|].
        split; [intros k Hk; by apply lookup_insert_ne|].
        intros _ _. exists url. split; [done|].
        split; [by rewrite lookup_insert_ne, lookup_insert_eq|].
        apply lookup_insert_eq.
  - injection H as <-. simpl.
    assert (Hor : truthy (or_else f (VStr "")) = false)
      by (unfold or_else; by rewrite Htruthy).
    rewrite Hor. split; [done|]. exists L. done.
Qed.

(** The first callback: a path in the cache is answered from it, a path
    that names a member of [Object.prototype] is answered with that member,
    and any other path is uploaded. *)
Lemma cache_phase {W} (host : Host W) build p acc s s1 (r : outcome value) :
  (if strict_eq (obj_get (uploaded acc) p) VUndef
   then uploadFile host p build
   else ret (obj_get (uploaded acc) p)) s = (s1, r) →
  (∀ q v, uploaded acc !! q = Some v → inherited q = false ∧ cached v) →
  match uploaded acc !! p with
  | Some v => s1 = s ∧ r = Return v
  | None =>
      if inherited p then s1 = s ∧ r = Return (VBuiltin p)
      else snd s1 = snd s ++ [CallUploadFile p]
  end.
Proof.
  intros H Hcached. unfold obj_get in H.
  destruct (uploaded acc !! p) as [v|] eqn:Hp.
  - destruct (Hcached p v Hp) as [_ Hv%cached_defined].
    rewrite Hv in H. by injection H as <- <-.
  - destruct (inherited p); simpl in H.
    + by injection H as <- <-.
    + by apply uploadFile_calls in H.
Qed.

Lemma uploads_of_single p q :
  uploads_of q [CallUploadFile p] = if String.eqb p q then 1%nat else 0%nat.
Proof. unfold uploads_of. simpl. by destruct (String.eqb p q). Qed.

Lemma recordAsset_builtin opts build n p name acc :
  recordAsset opts build n p (VBuiltin name) acc
  = Throw (TypeError "The path argument must be of type string").
Proof. unfold recordAsset. simpl. by repeat case_match. Qed.

Lemma publishAsset_step {W} (host : Host W) opts build n p acc s s' r :
  publishAsset host opts build n p acc s = (s', r) →
  chain_inv acc (snd s) →
  (∀ q, (uploads_of q (snd s') ≤ 1)%nat)
  ∧ ∀ acc', r = Return acc' →
      chain_inv acc' (snd s')
      ∧ (∀ q u, uploaded acc !! q = Some u → uploaded acc' !! q = Some u)
      ∧ ∃ u L L',
          uploaded acc' !! p = Some u
          ∧ result acc !! "local" = Some (VObj L)
          ∧ result acc' !! "local" = Some (VObj L')
          ∧ (∀ k, k ≠ n → k ≠ "local" → result acc' !! k = result acc !! k)
          ∧ (∀ k, k ≠ n → L' !! k = L !! k)
          ∧ (n ≠ "local" → n ≠ "__proto__" →
             asset_entries opts build n u (result acc) (result acc') L L').
Proof.
  intros H [[L HL] Hcached Hcount]. unfold publishAsset in H.
  (* the calls after the first callback *)
  assert (Hfirst : ∀ s1 (r1 : outcome value),
    (if strict_eq (obj_get (uploaded acc) p) VUndef
     then uploadFile host p build
     else ret (obj_get (uploaded acc) p)) s = (s1, r1) →
    (∀ q, (uploads_of q (snd s1) ≤ 1)%nat)
    ∧ ∀ f, r1 = Return f →
        inherited p = false ∧ cached (or_else f (VStr ""))
        ∧ (∀ v, uploaded acc !! p = Some v → or_else f (VStr "") = v)
        ∧ (∀ q, uploads_of q (snd s1)
                = match <[p := or_else f (VStr "")]> (uploaded acc) !! q with
                  | Some _ => 1%nat
                  | None => 0%nat
                  end)
        ∨ ∃ name, f = VBuiltin name).
  { intros s1 r1 H1. apply cache_phase in H1; [|done].
    destruct (uploaded acc !! p) as [v|] eqn:Hp.
    - destruct H1 as [-> ->]. destruct (Hcached p v Hp) as [Hinh Hv].
      split; [intros q; rewrite Hcount; destruct (uploaded acc !! q); lia|].
      intros f [= <-]. left. rewrite Hv.
      split; [done|]. split; [done|]. split; [by intros ? [= <-]|].
      intros q. rewrite Hcount.
      destruct (decide (p = q)) as [<-|Hq].
      + by rewrite lookup_insert_eq, Hp.
      + by rewrite lookup_insert_ne.
    - destruct (inherited p) eqn:Hinh.
      + destruct H1 as [-> ->].
        split; [intros q; rewrite Hcount; destruct (uploaded acc !! q); lia|].
        intros f [= <-]. right. by exists p.
      + assert (Hq : ∀ q, uploads_of q (snd s1)
                     = match <[p := VUndef]> (uploaded acc) !! q with
                       | Some _ => 1%nat
                       | None => 0%nat
                       end).
        { intros q. rewrite H1, uploads_of_app, Hcount, uploads_of_single.
          destruct (String.eqb_spec p q) as [<-|Hq].
          - by rewrite lookup_insert_eq, Hp.
          - rewrite lookup_insert_ne by done.
            destruct (uploaded acc !! q); simpl; lia. }
        split.
        * intros q. rewrite Hq. destruct (_ !! q); lia.
        * intros f _. left. split; [done|]. split; [apply cached_or_else|].
          split; [done|]. intros q. rewrite Hq.
          destruct (decide (p = q)) as [<-|Hne].
          -- by rewrite !lookup_insert_eq.
          -- by rewrite !lookup_insert_ne. }
  apply bind_inv in H as [(s1 & f & H1 & H)|(e & H1 & ->)].
  2: { split; [by apply (Hfirst _ _ H1)|done]. }
  destruct (Hfirst _ _ H1) as [Hle Hret]. clear Hfirst.
  apply bind_inv in H as [(s2 & [] & H2 & H)|(e & H2 & ->)].
  2: { split; [|done]. intros q.
       rewrite (duplicateMetaFiles_uploads _ _ _ _ _ _ _ H2). apply Hle. }
  apply lift_inv in H as [-> ->].
  pose proof (duplicateMetaFiles_uploads _ _ _ _ _ _ _ H2) as Hdup.
  split; [intros q; rewrite Hdup; apply Hle|].
  intros acc' Hacc'.
  destruct (Hret f eq_refl) as [(Hinh & Hcf & Hsame & Hcnt)|(name & ->)].
  2: { by rewrite recordAsset_builtin in Hacc'. }
  destruct (recordAsset_return _ _ _ _ _ _ _ _ Hacc' HL)
    as (Hup & L' & HL' & Hres & Hloc & Hentries).
  rewrite obj_set_ordinary in Hup by done.
  split; [|split].
  - constructor.
    + by exists L'.
    + intros q v. rewrite Hup.
      destruct (decide (p = q)) as [<-|Hq].
      * rewrite lookup_insert_eq. by intros [= <-].
      * rewrite lookup_insert_ne by done. apply Hcached.
    + intros q. rewrite Hdup, Hup. apply Hcnt.
  - intros q u Hq. rewrite Hup.
    destruct (decide (p = q)) as [<-|Hne].
    + rewrite lookup_insert_eq. f_equal. by apply Hsame.
    + by rewrite lookup_insert_ne.
  - exists (or_else f (VStr "")), L, L'.
    rewrite Hup, lookup_insert_eq. done.
Qed.

(** *** The whole chain *)

Lemma asset_entries_frame opts build n u
    (before before' after after' bl bl' al al' : gmap string value) :
  asset_entries opts build n u before after bl al →
  before' !! n = before !! n → bl' !! n = bl !! n →
  after' !! n = after !! n → al' !! n = al !! n →
  asset_entries opts build n u before' after' bl' al'.
Proof.
  unfold asset_entries. intros H -> -> -> ->. done.
Qed.

Lemma publishChain_spec {W} (host : Host W) opts build assets :
  ∀ acc s s' r,
    publishChain host opts build assets acc s = (s', r) →
    NoDup (map fst assets) →
    chain_inv acc (snd s) →
    (∀ q, (uploads_of q (snd s') ≤ 1)%nat)
    ∧ ∀ acc', r = Return acc' →
        chain_inv acc' (snd s')
        ∧ (∀ q u, uploaded acc !! q = Some u → uploaded acc' !! q = Some u)
        ∧ ∃ L L',
            result acc !! "local" = Some (VObj L)
            ∧ result acc' !! "local" = Some (VObj L')
            ∧ (∀ k, k ∉ map fst assets → k ≠ "local" →
                    result acc' !! k = result acc !! k)
            ∧ (∀ k, k ∉ map fst assets → L' !! k = L !! k)
            ∧ ∀ n p, (n, p) ∈ assets →
                ∃ u, uploaded acc' !! p = Some u
                     ∧ (n ≠ "local" → n ≠ "__proto__" →
                        asset_entries opts build n u
                          (result acc) (result acc') L L').
Proof.
  induction assets as [|[n p] rest IH]; intros acc s s' r H Hnodup Hinv.
  - injection H as <- <-. split.
    + intros q. rewrite (inv_count _ _ Hinv). destruct (_ !! q); lia.
    + intros acc' [= <-]. split; [done|]. split; [done|].
      destruct (inv_local _ _ Hinv) as [L HL]. exists L, L.
      split; [done|]. split; [done|]. split; [done|]. split; [done|].
      intros n p Hin. by apply elem_of_nil in Hin.
  - simpl in H. apply NoDup_cons in Hnodup as [Hn Hnodup].
    apply bind_inv in H as [(s1 & acc1 & H1 & H)|(e & H1 & ->)].
    2: { split; [|done]. by apply (publishAsset_step _ _ _ _ _ _ _ _ _ H1). }
    destruct (publishAsset_step _ _ _ _ _ _ _ _ _ H1 Hinv) as [_ Hstep].
    destruct (Hstep acc1 eq_refl)
      as (Hinv1 & Hmono1 & u & L & L1 & Hu & HL & HL1 & Hres1 & Hloc1 & Hent1).
    destruct (IH _ _ _ _ H Hnodup Hinv1) as [Hle Hrest].
    split; [done|]. intros acc' ->.
    destruct (Hrest acc' eq_refl)
      as (Hinv' & Hmono & L1' & L' & HL1' & HL' & Hres & Hloc & Hent).
    assert (L1' = L1) as -> by congruence.
    split; [done|]. split; [by auto|].
    exists L, L'. split; [done|]. split; [done|].
    split; [|split].
    + intros k [Hk Hk']%not_elem_of_cons Hlocal.
      by rewrite Hres, Hres1.
    + intros k [Hk Hk']%not_elem_of_cons. by rewrite Hloc, Hloc1.
    + intros n' p' [[= -> ->]|Hin]%elem_of_cons.
      * exists u. split; [by apply Hmono|]. intros Hlocal Hproto.
        eapply asset_entries_frame; [by apply Hent1|done|done|..].
        -- by apply Hres.
        -- by apply Hloc.
      * destruct (Hent n' p' Hin) as (u' & Hu' & Hent').
        exists u'. split; [done|]. intros Hlocal Hproto.
        assert (n' ≠ n).
        { intros ->. apply Hn. apply list_elem_of_fmap. by exists (n, p'). }
        eapply asset_entries_frame; [by apply Hent'|..]; try done.
        -- symmetry. by apply Hres1.
        -- symmetry. by apply Hloc1.
Qed.

(** The two objects [publishAssets] starts from. *)
Lemma chain_inv_initial : chain_inv (mkAcc {["local" := VObj ∅]} ∅) [].
Proof.
  constructor; simpl.
  - by exists ∅.
  - intros p v. by rewrite lookup_empty.
  - intros q. by rewrite lookup_empty.
Qed.

(** *** The loop and its guard *)

Lemma has_own_elem n p (assets : list (string * string)) :
  (n, p) ∈ assets → has_own n assets = true.
Proof.
  intros Hin. unfold has_own. apply existsb_exists. exists (n, p).
  split; [by apply list_elem_of_In|apply String.eqb_refl].
Qed.

Lemma publishLoop_kept (assets todo : list (string * string)) :
  has_own "hasOwnProperty" assets = false →
  (∀ a, a ∈ todo → a ∈ assets) →
  publishLoop assets todo = Return todo.
Proof.
  intros Hguard. induction todo as [|[n p] rest IH]; intros Hsub; [done|].
  simpl. unfold hasOwnProperty. rewrite Hguard.
  rewrite IH by (intros a Ha; apply Hsub; by apply list_elem_of_further).
  by rewrite (has_own_elem n p) by apply Hsub, list_elem_of_here.
Qed.

Lemma publishLoop_guard (assets todo : list (string * string)) :
  has_own "hasOwnProperty" assets = true →
  todo ≠ [] →
  publishLoop assets todo
  = Throw (TypeError "assets.hasOwnProperty is not a function").
Proof.
  intros Hguard Htodo. destruct todo as [|[n p] rest]; [done|].
  simpl. unfold hasOwnProperty. by rewrite Hguard.
Qed.

(** With assets, [publishAssets] stops at the guard of the loop, before any
    call, when an asset is called [hasOwnProperty]; otherwise it runs the
    chain of all the assets and returns its result object. *)
Lemma publishAssets_chain {W} (host : Host W) opts build w :
  assets build ≠ [] →
  run (publishAssets host opts build) w
  = if has_own "hasOwnProperty" (assets build)
    then ((w, []),
          Throw (TypeError "assets.hasOwnProperty is not a function"))
    else (let '(s', r) :=
            run (publishChain host opts build (assets build)
                   (mkAcc {["local" := VObj ∅]} ∅)) w in
          (s', match r with
               | Return acc => Return (result acc)
               | Throw e => Throw e
               end)).
Proof.
  intros Hassets. unfold publishAssets, run, IO.bind, lift.
  destruct (Nat.eqb_spec (length (assets build)) 0) as [Hlen|_].
  { by apply nil_length_inv in Hlen. }
  destruct (has_own "hasOwnProperty" (assets build)) eqn:Hguard.
  - by rewrite publishLoop_guard.
  - rewrite publishLoop_kept by done.
    by destruct (publishChain host opts build _ _ _) as [? [?|?]].
Qed.

(** A run of [publishAssets] that resolves is a run of the chain of all the
    assets. *)
Lemma publishAssets_resolved {W} (host : Host W) opts build w s' res :
  run (publishAssets host opts build) w = (s', Return res) →
  assets build ≠ []
  ∧ has_own "hasOwnProperty" (assets build) = false
  ∧ ∃ acc',
      run (publishChain host opts build (assets build)
             (mkAcc {["local" := VObj ∅]} ∅)) w = (s', Return acc')
      ∧ res = result acc'.
Proof.
  intros Hrun.
  assert (Hassets : assets build ≠ []).
  { intros Hnil. unfold run, publishAssets in Hrun.
    by rewrite Hnil in Hrun. }
  rewrite publishAssets_chain in Hrun by done.
  destruct (has_own "hasOwnProperty" (assets build)); [done|].
  destruct (run (publishChain _ _ _ _ _) w) as [s1 [acc'|e]]; [|done].
  injection Hrun as -> <-. split; [done|]. split; [done|]. by exists acc'.
Qed.

(** *** The value the chain caches for a path *)

(** The first callback of an asset: the value the chain goes on with. *)
Lemma cache_phase_value {W} (host : Host W) build p acc s s1 f :
  (if strict_eq (obj_get (uploaded acc) p) VUndef
   then uploadFile host p build
   else ret (obj_get (uploaded acc) p)) s = (s1, Return f) →
  (snd (host_uploadFile host p build (fst s)) = Return f
   ∧ snd s1 = snd s ++ [CallUploadFile p])
  ∨ (s1 = s
     ∧ (uploaded acc !! p = Some f ∨ ∃ name, f = VBuiltin name)).
Proof.
  destruct (strict_eq (obj_get (uploaded acc) p) VUndef) eqn:Hundef.
  - unfold uploadFile, perform_outcome.
    destruct (host_uploadFile host p build (fst s)) as [w r].
    intros [= <- ->]. by left.
  - intros [= <- <-]. right. split; [done|].
    unfold obj_get in *. destruct (uploaded acc !! p) as [v|]; [by left|].
    destruct (inherited p); [right; by eexists|done].
Qed.

Lemma recordAsset_uploaded opts build n p f acc acc' :
  recordAsset opts build n p f acc = Return acc' →
  uploaded acc' = obj_set p (or_else f (VStr "")) (uploaded acc).
Proof.
  unfold recordAsset. intros H. by repeat case_match; simplify_eq.
Qed.

Lemma publishChain_app {W} (host : Host W) opts build front back acc s :
  publishChain host opts build (front ++ back) acc s
  = match publishChain host opts build front acc s with
    | (s1, Return acc1) => publishChain host opts build back acc1 s1
    | (s1, Throw e) => (s1, Throw e)
    end.
Proof.
  revert acc s. induction front as [|[n p] front IH]; intros acc s; [done|].
  simpl. unfold IO.bind.
  destruct (publishAsset host opts build n p acc s) as [s1 [acc1|e]];
    [apply IH|done].
Qed.

(** Every value in the cache is what the one upload of its path returned,
    or the empty string in place of a falsy value. *)
Lemma publishChain_history {W} (host : Host W) opts build all w :
  ∀ todo done acc s s' acc',
    all = done ++ todo →
    run (publishChain host opts build done
           (mkAcc {["local" := VObj ∅]} ∅)) w = (s, Return acc) →
    (∀ q, q ∈ map snd done ↔ is_Some (uploaded acc !! q)) →
    (∀ q, is_Some (uploaded acc !! q) → inherited q = false) →
    (∀ q v, uploaded acc !! q = Some v →
            ∃ f, first_upload host opts build all w q f
                 ∧ v = or_else f (VStr "")) →
    publishChain host opts build todo acc s = (s', Return acc') →
    ∀ q v, uploaded acc' !! q = Some v →
           ∃ f, first_upload host opts build all w q f
                ∧ v = or_else f (VStr "").
Proof.
  induction todo as [|[n p] rest IH];
    intros done acc s s' acc' Hall Hdone Hdom Hinh Hval Hrun.
  { by injection Hrun as <- <-. }
  simpl in Hrun.
  apply bind_inv in Hrun as [(s1 & acc1 & H1 & Hrun)|(e & _ & [=])].
  assert (Hdone1 : run (publishChain host opts build (done ++ [(n, p)])
                          (mkAcc {["local" := VObj ∅]} ∅)) w
                   = (s1, Return acc1)).
  { unfold run in *. rewrite publishChain_app, Hdone. simpl.
    unfold IO.bind. by rewrite H1. }
  unfold publishAsset in H1.
  apply bind_inv in H1 as [(s2 & f & Hf & H1)|(e & _ & [=])].
  apply bind_inv in H1 as [(s3 & [] & _ & H1)|(e & _ & [=])].
  apply lift_inv in H1 as [_ H1]. symmetry in H1.
  pose proof (recordAsset_uploaded _ _ _ _ _ _ _ H1) as Hup.
  (* where the value of this asset comes from *)
  assert (Hf' : inherited p = false
                ∧ ∃ f0, first_upload host opts build all w p f0
                        ∧ or_else f (VStr "") = or_else f0 (VStr "")).
  { unfold obj_get in Hf.
    destruct (uploaded acc !! p) as [v|] eqn:Hp.
    - destruct (Hval p v Hp) as (f0 & Hfirst & ->).
      rewrite (cached_defined _ (cached_or_else f0)) in Hf.
      injection Hf as _ <-.
      split; [by apply Hinh; rewrite Hp|].
      exists f0. split; [done|]. apply cached_or_else.
    - destruct (inherited p) eqn:Hp'.
      { injection Hf as _ <-. by rewrite recordAsset_builtin in H1. }
      split; [done|]. simpl in Hf.
      unfold uploadFile, perform_outcome in Hf.
      destruct (host_uploadFile host p build (fst s)) as [w' r] eqn:Hupload.
      injection Hf as _ ->.
      exists f. split; [|done].
      exists done, n, rest, s, acc, w'.
      split; [done|]. split; [|done].
      rewrite Hdom, Hp. by intros [? [=]]. }
  destruct Hf' as (Hp' & f0 & Hfirst & Hor).
  rewrite obj_set_ordinary in Hup by done.
  apply (IH (done ++ [(n, p)]) acc1 s1 s' acc'); try done.
  - by rewrite <- app_assoc.
  - intros q. rewrite Hup, map_app, elem_of_app, Hdom. simpl.
    rewrite list_elem_of_singleton.
    destruct (decide (p = q)) as [<-|Hq].
    + rewrite lookup_insert_eq. split; [by eexists|by right].
    + rewrite lookup_insert_ne by done. split; [|by left].
      by intros [?|<-].
  - intros q. rewrite Hup.
    destruct (decide (p = q)) as [<-|Hq]; [done|].
    rewrite lookup_insert_ne by done. apply Hinh.
  - intros q v. rewrite Hup.
    destruct (decide (p = q)) as [<-|Hq].
    + rewrite lookup_insert_eq. intros [= <-]. by exists f0.
    + rewrite lookup_insert_ne by done. apply Hval.
Qed.

(** The same for a whole run of the chain. *)
Lemma publishChain_first_uploads {W} (host : Host W) opts build assets
    w s' acc' :
  run (publishChain host opts build assets
         (mkAcc {["local" := VObj ∅]} ∅)) w = (s', Return acc') →
  ∀ q v, uploaded acc' !! q = Some v →
         ∃ f, first_upload host opts build assets w q f
              ∧ v = or_else f (VStr "").
Proof.
  intros Hrun.
  apply (publishChain_history host opts build assets w assets []
           (mkAcc {["local" := VObj ∅]} ∅) (w, []) s' acc');
    try done.
  - intros q. simpl. rewrite lookup_empty. split.
    + by intros ?%elem_of_nil.
    + by intros [? [=]].
  - intros q. simpl. rewrite lookup_empty. by intros [? [=]].
Qed.

(** *** Runs that resolve *)

Lemma duplicateMetaFiles_resolves {W} (host : Host W) opts p build dir s :
  local_data opts = Some dir →
  copies_succeed host →
  ∃ s', duplicateMetaFiles host opts p build s = (s', Return tt).
Proof.
  intros Hdir Hcopy. unfold duplicateMetaFiles, archiveDirectory, IO.bind,
    lift, try_mkdirSync, perform_outcome.
  rewrite Hdir. simpl.
  destruct (host_mkdirSync host _ _) as [w1 r1]. simpl.
  destruct (host_mkdirSync host _ _) as [w2 r2]. simpl.
  match goal with
  | |- context [host_copyFileSync host ?a ?b ?w] =>
      pose proof (Hcopy a b w) as Hc;
      destruct (host_copyFileSync host a b w) as [w3 r3]
  end.
  simpl in Hc. subst r3. by eexists.
Qed.

(** With a mirror directory, uploads that resolve, copies that succeed and
    ordinary names and paths, the chain resolves. *)
Lemma publishChain_resolves {W} (host : Host W) opts build dir :
  local_data opts = Some dir →
  uploads_resolve host build →
  copies_succeed host →
  ∀ todo acc s,
    (∀ n p, (n, p) ∈ todo → n ≠ "local" ∧ inherited p = false) →
    (∃ L, result acc !! "local" = Some (VObj L)) →
    (∀ q v, uploaded acc !! q = Some v → ∃ url, v = VStr url) →
    ∃ s' acc', publishChain host opts build todo acc s = (s', Return acc').
Proof.
  intros Hdir Hupload Hcopy.
  induction todo as [|[n p] rest IH]; intros acc s Hord [L HL] Hstr.
  { by eexists _, _. }
  destruct (Hord n p ltac:(apply list_elem_of_here)) as [Hn Hp].
  (* the first callback *)
  assert (Hfirst : ∃ s1 f,
    (if strict_eq (obj_get (uploaded acc) p) VUndef
     then uploadFile host p build
     else ret (obj_get (uploaded acc) p)) s = (s1, Return f)
    ∧ ∃ url, or_else f (VStr "") = VStr url
             ∧ (truthy f = true → f = VStr url)).
  { unfold obj_get. destruct (uploaded acc !! p) as [v|] eqn:Hv.
    - destruct (Hstr p v Hv) as [url ->]. simpl.
      eexists _, _. split; [done|]. exists url.
      split; [by destruct url|done].
    - rewrite Hp. simpl. unfold uploadFile, perform_outcome.
      destruct (Hupload p (fst s)) as (f & Hf & Hurl).
      destruct (host_uploadFile host p build (fst s)) as [w1 r1].
      simpl in Hf. subst r1. eexists _, _. split; [done|].
      unfold or_else. destruct (truthy f) eqn:Htruthy.
      + destruct (Hurl eq_refl) as [url ->]. by exists url.
      + by exists "". }
  destruct Hfirst as (s1 & f & Hf & url & Hor & Hurl).
  destruct (duplicateMetaFiles_resolves host opts p build dir s1 Hdir Hcopy)
    as [s2 Hdup].
  (* the third callback *)
  assert (Hrecord : ∃ acc1,
    recordAsset opts build n p f acc = Return acc1
    ∧ (∃ L1, result acc1 !! "local" = Some (VObj L1))
    ∧ uploaded acc1 = <[p := VStr url]> (uploaded acc)).
  { unfold recordAsset. rewrite Hor, (obj_set_ordinary p) by done.
    destruct (truthy f) eqn:Htruthy.
    - rewrite (Hurl eq_refl).
      assert (Hget : obj_get (obj_set n (VStr url) (result acc)) "local"
                     = VObj L).
      { unfold obj_get, obj_set. destruct (String.eqb n "__proto__");
          [by rewrite HL|]. by rewrite lookup_insert_ne, HL. }
      rewrite Hget. eexists. split; [done|]. simpl.
      split; [|done]. eexists. apply lookup_insert_eq.
    - eexists. split; [done|]. simpl. split; [by exists L|done]. }
  destruct Hrecord as (acc1 & Hrecord & HL1 & Hup).
  destruct (IH acc1 s2) as (s' & acc' & Hrest).
  - intros n' p' Hin. apply Hord. by apply list_elem_of_further.
  - done.
  - intros q v. rewrite Hup.
    destruct (decide (p = q)) as [<-|Hq].
    + rewrite lookup_insert_eq. intros [= <-]. by exists url.
    + rewrite lookup_insert_ne by done. apply Hstr.
  - exists s', acc'. simpl. unfold publishAsset, IO.bind, lift.
    by rewrite Hf, Hdup, Hrecord.
Qed.

Lemma publishAssets_resolves {W} (host : Host W) opts build dir w :
  assets build ≠ [] →
  ordinary_assets (assets build) →
  local_data opts = Some dir →
  uploads_resolve host build →
  copies_succeed host →
  ∃ s' res, run (publishAssets host opts build) w = (s', Return res).
Proof.
  intros Hassets [Hguard Hord] Hdir Hupload Hcopy.
  rewrite publishAssets_chain, Hguard by done.
  destruct (publishChain_resolves host opts build dir Hdir Hupload Hcopy
              (assets build) (mkAcc {["local" := VObj ∅]} ∅) (w, []))
    as (s' & acc' & Hrun); [done| |done|].
  - exists ∅. apply lookup_singleton_eq.
  - unfold run. rewrite Hrun. by eexists _, _.
Qed.

(** *** The entries of a run that resolves *)

(** In a run that resolves, every asset with an ordinary name finds in the
    cache the value the one upload of its path returned, and its entries
    are made of that value. *)
Lemma publishAssets_history {W} (host : Host W) opts build w s' res :
  NoDup (map fst (assets build)) →
  run (publishAssets host opts build) w = (s', Return res) →
  ∃ acc' L,
    run (publishChain host opts build (assets build)
           (mkAcc {["local" := VObj ∅]} ∅)) w = (s', Return acc')
    ∧ res = result acc'
    ∧ res !! "local" = Some (VObj L)
    ∧ (∀ q, uploads_of q (snd s')
            = match uploaded acc' !! q with
              | Some _ => 1%nat
              | None => 0%nat
              end)
    ∧ ∀ n p, (n, p) ∈ assets build →
        ∃ fileUrl,
          first_upload host opts build (assets build) w p fileUrl
          ∧ uploaded acc' !! p = Some (or_else fileUrl (VStr ""))
          ∧ (n ≠ "local" → n ≠ "__proto__" →
             if truthy fileUrl then
               ∃ url, fileUrl = VStr url
                      ∧ res !! n = Some (VStr url)
                      ∧ L !! n
                        = Some (VStr (join "/"
                             [getBuildId opts (Some build) true;
                              basename url]))
             else res !! n = None ∧ L !! n = None).
Proof.
  intros Hnodup Hrun.
  apply publishAssets_resolved in Hrun as (_ & _ & acc' & Hchain & ->).
  destruct (publishChain_spec _ _ _ _ _ _ _ _ Hchain Hnodup chain_inv_initial)
    as [_ Hret].
  destruct (Hret acc' eq_refl)
    as (Hinv & _ & L0 & L & HL0 & HL & _ & _ & Hent).
  exists acc', L. split; [done|]. split; [done|]. split; [done|].
  split; [apply (inv_count _ _ Hinv)|].
  intros n p Hin. destruct (Hent n p Hin) as (u & Hu & Hentries).
  destruct (publishChain_first_uploads _ _ _ _ _ _ _ Hchain p u Hu)
    as (f & Hfirst & ->).
  exists f. split; [done|]. split; [done|].
  intros Hlocal Hproto. specialize (Hentries Hlocal Hproto).
  unfold asset_entries in Hentries. unfold or_else in Hentries.
  destruct (truthy f) eqn:Htruthy.
  - rewrite Htruthy in Hentries.
    destruct Hentries as (url & -> & Hres & Hloc). by exists url.
  - simpl in Hentries. destruct Hentries as [-> ->]. simpl in *.
    rewrite lookup_singleton_eq in HL0. injection HL0 as <-.
    split; [by apply lookup_singleton_ne|apply lookup_empty].
Qed.

(** C2, as the code has it: a path is uploaded at most once in every run.
    In a run that resolves, with asset names that are distinct keys, a path
    two names are bound to was uploaded exactly once, and every name bound
    to it, other than the reserved [local] and [__proto__], holds the value
    that one upload returned, or has no entry when that value is falsy.  And
    the run does resolve when there is a mirror directory, the uploads
    resolve, the copies succeed and the names and paths are ordinary. *)
Theorem publishAssets_uploads_once {W} (host : Host W) opts build w
    p n1 n2 :
  NoDup (map fst (assets build)) →
  (n1, p) ∈ assets build →
  (n2, p) ∈ assets build →
  n1 ≠ n2 →
  let r := run (publishAssets host opts build) w in
  (uploads_of p (calls_of r) ≤ 1)%nat
  ∧ (∀ res, result_of r = Return res →
       uploads_of p (calls_of r) = 1%nat
       ∧ ∃ fileUrl,
           first_upload host opts build (assets build) w p fileUrl
           ∧ ∀ n, (n, p) ∈ assets build → n ≠ "local" → n ≠ "__proto__" →
                  res !! n = if truthy fileUrl then Some fileUrl else None)
  ∧ (ordinary_assets (assets build) →
     (∃ dir, local_data opts = Some dir) →
     uploads_resolve host build →
     copies_succeed host →
     ∃ res, result_of r = Return res).
Proof.
  intros Hnodup Hn1 Hn2 Hne r.
  assert (Hassets : assets build ≠ []).
  { intros Hnil. rewrite Hnil in Hn1. by apply elem_of_nil in Hn1. }
  split; [|split].
  - subst r. rewrite publishAssets_chain by done.
    destruct (has_own "hasOwnProperty" (assets build));
      [unfold calls_of, uploads_of; simpl; lia|].
    destruct (run (publishChain _ _ _ _ _) w) as [s' r0] eqn:Hrun.
    by destruct (publishChain_spec _ _ _ _ _ _ _ _ Hrun Hnodup
                   chain_inv_initial) as [Hle _].
  - intros res Hres. subst r.
    destruct (run (publishAssets host opts build) w) as [s' r0] eqn:Hrun.
    unfold calls_of, result_of in *. simpl in *. subst r0.
    destruct (publishAssets_history _ _ _ _ _ _ Hnodup Hrun)
      as (acc' & L & _ & -> & _ & Hcount & Hent).
    destruct (Hent n1 p Hn1) as (f & Hfirst & Hcache & _).
    split; [by rewrite Hcount, Hcache|].
    exists f. split; [done|]. intros n Hn Hlocal Hproto.
    destruct (Hent n p Hn) as (f' & _ & Hcache' & Hentries).
    specialize (Hentries Hlocal Hproto).
    assert (Hsame : or_else f' (VStr "") = or_else f (VStr ""))
      by congruence.
    unfold or_else in Hsame.
    destruct (truthy f') eqn:Hf', (truthy f) eqn:Hf.
    + destruct Hentries as (url & -> & -> & _). by rewrite Hsame.
    + subst f'. done.
    + subst f. done.
    + by destruct Hentries as [-> _].
  - intros Hord [dir Hdir] Hupload Hcopy. subst r.
    destruct (publishAssets_resolves host opts build dir w)
      as (s' & res & ->); try done.
    by exists res.
Qed.

(** The installer of the win32 scenario, bound to [install] and [update],
    on the mirror backend: the run resolves, and both names hold the URL the
    one upload returned. *)
Lemma publishAssets_uploads_once_witness :
  let host := Backends.mirrorHost Backends.exampleOptions in
  let r := run (publishAssets host Backends.exampleOptions
                  Backends.exampleBuild) (VObj ∅) in
  (uploads_of "./Setup.exe" (calls_of r) ≤ 1)%nat
  ∧ ∃ res,
      result_of r = Return res
      ∧ uploads_of "./Setup.exe" (calls_of r) = 1%nat
      ∧ ∃ fileUrl,
          first_upload host Backends.exampleOptions Backends.exampleBuild
            (assets Backends.exampleBuild) (VObj ∅) "./Setup.exe" fileUrl
          ∧ ∀ n, (n, "./Setup.exe") ∈ assets Backends.exampleBuild →
                 n ≠ "local" → n ≠ "__proto__" →
                 res !! n = if truthy fileUrl then Some fileUrl else None.
Proof.
  intros host r.
  destruct (publishAssets_uploads_once host Backends.exampleOptions
              Backends.exampleBuild (VObj ∅) "./Setup.exe" "install"
              "update" ltac:(compute_done) ltac:(compute_done)
              ltac:(compute_done) ltac:(discriminate))
    as (Hmost & Honce & Hresolves).
  split; [exact Hmost|].
  destruct Hresolves as [res Hres].
  - split; [reflexivity|]. intros n p Hin.
    repeat (apply elem_of_cons in Hin as [[= -> ->]|Hin]; [by split|]).
    by apply elem_of_nil in Hin.
  - by exists (Some "archive").
  - intros p w. unfold host, Backends.mirrorHost. simpl.
    eexists. split; [reflexivity|]. intros _. by eexists.
  - intros src dst w. reflexivity.
  - exists res. split; [exact Hres|]. exact (Honce res Hres).
Defined.

(** C2 as stated fails when the run does not get to the path: with a
    backend that rejects the upload of the file before it, the installer two
    names are bound to is never uploaded. *)
Lemma publishAssets_shared_path_not_reached :
  let r := run (publishAssets Fixtures.rejectingHost Backends.exampleOptions
                  Fixtures.laterBuild) tt in
  ("install", "./Setup.exe") ∈ assets Fixtures.laterBuild
  ∧ ("update", "./Setup.exe") ∈ assets Fixtures.laterBuild
  ∧ calls_of r = [CallUploadFile "./notes.txt"]
  ∧ uploads_of "./Setup.exe" (calls_of r) = 0%nat
  ∧ result_of r = Throw (External "EACCES").
Proof.
  split; [compute_done|]. split; [compute_done|].
  split; [vm_compute; reflexivity|]. split; vm_compute; reflexivity.
Qed.

(** C8, as the code has it: in a run that resolves, with asset names that
    are distinct keys, every asset whose name is not one of the reserved
    [local] and [__proto__] has its entries made of the value [fileUrl] that
    the one upload of its path returned.  When [fileUrl] is truthy it is a
    URL, [result[name]] is that URL, [result.local[name]] is the build
    identifier joined by a slash with the base name of the URL, and the
    cache holds the URL; otherwise the cache holds the empty string and
    neither entry exists.  And the run does resolve when there is a mirror
    directory, the uploads resolve, the copies succeed and the names and
    paths are ordinary. *)
Theorem publishAssets_entries {W} (host : Host W) opts build w :
  NoDup (map fst (assets build)) →
  (∀ s' res,
     run (publishAssets host opts build) w = (s', Return res) →
     ∃ acc' L,
       run (publishChain host opts build (assets build)
              (mkAcc {["local" := VObj ∅]} ∅)) w = (s', Return acc')
       ∧ res = result acc'
       ∧ res !! "local" = Some (VObj L)
       ∧ ∀ n p, (n, p) ∈ assets build → n ≠ "local" → n ≠ "__proto__" →
           ∃ fileUrl,
             first_upload host opts build (assets build) w p fileUrl
             ∧ if truthy fileUrl then
                 ∃ url, fileUrl = VStr url
                        ∧ uploaded acc' !! p = Some (VStr url)
                        ∧ res !! n = Some (VStr url)
                        ∧ L !! n
                          = Some (VStr (join "/"
                               [getBuildId opts (Some build) true;
                                basename url]))
               else uploaded acc' !! p = Some (VStr "")
                    ∧ res !! n = None ∧ L !! n = None)
  ∧ (assets build ≠ [] →
     ordinary_assets (assets build) →
     (∃ dir, local_data opts = Some dir) →
     uploads_resolve host build →
     copies_succeed host →
     ∃ s' res, run (publishAssets host opts build) w = (s', Return res)).
Proof.
  intros Hnodup. split.
  - intros s' res Hrun.
    destruct (publishAssets_history _ _ _ _ _ _ Hnodup Hrun)
      as (acc' & L & Hchain & -> & HL & _ & Hent).
    exists acc', L. split; [done|]. split; [done|]. split; [done|].
    intros n p Hin Hlocal Hproto.
    destruct (Hent n p Hin) as (f & Hfirst & Hcache & Hentries).
    exists f. split; [done|]. specialize (Hentries Hlocal Hproto).
    unfold or_else in Hcache. destruct (truthy f).
    + destruct Hentries as (url & -> & Hres & Hloc). by exists url.
    + done.
  - intros Hassets Hord [dir Hdir] Hupload Hcopy.
    by apply (publishAssets_resolves host opts build dir w).
Qed.

(** The win32 scenario on the mirror backend. *)
Lemma publishAssets_entries_witness :
  let host := Backends.mirrorHost Backends.exampleOptions in
  let opts := Backends.exampleOptions in
  let build := Backends.exampleBuild in
  ∃ s' res acc' L,
    run (publishAssets host opts build) (VObj ∅) = (s', Return res)
    ∧ run (publishChain host opts build (assets build)
             (mkAcc {["local" := VObj ∅]} ∅)) (VObj ∅) = (s', Return acc')
    ∧ res = result acc'
    ∧ res !! "local" = Some (VObj L)
    ∧ ∀ n p, (n, p) ∈ assets build → n ≠ "local" → n ≠ "__proto__" →
        ∃ fileUrl,
          first_upload host opts build (assets build) (VObj ∅) p fileUrl
          ∧ if truthy fileUrl then
              ∃ url, fileUrl = VStr url
                     ∧ uploaded acc' !! p = Some (VStr url)
                     ∧ res !! n = Some (VStr url)
                     ∧ L !! n
                       = Some (VStr (join "/"
                            [getBuildId opts (Some build) true;
                             basename url]))
            else uploaded acc' !! p = Some (VStr "")
                 ∧ res !! n = None ∧ L !! n = None.
Proof.
  intros host opts build.
  destruct (publishAssets_entries host opts build (VObj ∅)
              ltac:(compute_done)) as [Hentries Hresolves].
  destruct Hresolves as (s' & res & Hrun).
  - discriminate.
  - split; [reflexivity|]. intros n p Hin.
    repeat (apply elem_of_cons in Hin as [[= -> ->]|Hin]; [by split|]).
    by apply elem_of_nil in Hin.
  - by exists (Some "archive").
  - intros p w. unfold host, Backends.mirrorHost. simpl.
    eexists. split; [reflexivity|]. intros _. by eexists.
  - intros src dst w. reflexivity.
  - destruct (Hentries s' res Hrun) as (acc' & L & H).
    by exists s', res, acc', L.
Defined.

(** C8 as stated fails for a backend whose URL does not end in the file
    name: the mirror path recorded for [install] ends in the last segment of
    the URL, not in the normalized name of [./Setup.exe]. *)
Lemma publishAssets_local_entry_follows_url :
  ∃ res L,
    result_of (run (publishAssets
                      (Backends.keyedHost "https://cdn.example/objects/7f3a9c")
                      Backends.exampleOptions Backends.exampleBuild) tt)
    = Return res
    ∧ res !! "local" = Some (VObj L)
    ∧ L !! "install" = Some (VStr "win32-x64-prod-v1.2.3/7f3a9c")
    ∧ join "/" [getBuildId Backends.exampleOptions
                  (Some Backends.exampleBuild) true;
                normalizeFileName "./Setup.exe"]
      = "win32-x64-prod-v1.2.3/Setup.exe".
Proof.
  eexists _, _. split; [vm_compute; reflexivity|].
  split; [vm_compute; reflexivity|]. split; [vm_compute; reflexivity|].
  reflexivity.
Qed.

(** ** The manifest record of a win32 build *)

Lemma starts_with_refl (s : string) : starts_with s s = true.
Proof.
  induction s as [|c s IH]; simpl; [done|].
  by rewrite Ascii.eqb_refl.
Qed.

Lemma drop_length (s : string) : drop (String.length s) s = "".
Proof. induction s; simpl; auto. Qed.

Lemma replace_first_unfold (pat rep s : string) :
  replace_first pat rep s
  = if starts_with pat s then rep +:+ drop (String.length pat) s
    else match s with
         | EmptyString => EmptyString
         | String c r => String c (replace_first pat rep r)
         end.
Proof. by destruct s. Qed.

(** When [pat] occurs in [s +:+ pat] at the end only, [replace] removes
    that trailing occurrence. *)
Lemma replace_first_trailing (pat s : string) :
  only_at_end pat s → replace_first pat "" (s +:+ pat) = s.
Proof.
  unfold only_at_end. induction s as [|c s IH]; intros Hnone.
  - rewrite append_empty, replace_first_unfold.
    by rewrite starts_with_refl, drop_length.
  - pose proof (Hnone 0%nat ltac:(simpl; lia)) as H0.
    change (drop 0 ?x) with x in H0.
    rewrite replace_first_unfold, H0, append_cons. f_equal.
    apply IH. intros i Hi. apply (Hnone (S i)). simpl. lia.
Qed.

(** C7 at a base URL that itself has a [/RELEASES] segment: the first
    occurrence is removed and the trailing one stays, so the [update] field
    of the record stored in the manifest does not name the directory of the
    [RELEASES] file. *)
Theorem publishRecord_win32_first_occurrence :
  ∃ assets data appended,
    result_of (run (publishAssets
                      (Backends.mirrorHost Backends.releasesOptions)
                      Backends.releasesOptions Backends.exampleBuild)
                 (VObj ∅)) = Return assets
    ∧ assets !! "metaFile"
      = Some (VStr "http://cdn.example/RELEASES/win32-x64-prod-v1.2.3/RELEASES")
    ∧ calls_of (run (publishRecord
                       (Backends.mirrorHost Backends.releasesOptions)
                       Backends.releasesOptions Backends.mirrorFetch
                       Backends.exampleBuild ∅ assets) (VObj ∅))
      = [CallAppendFileSync "dist/archive/updates.json" appended;
         CallPushUpdatesJson (VObj {["win32-x64-prod" := VObj data]})]
    ∧ data !! "update"
      = Some (VStr "http://cdn.example/win32-x64-prod-v1.2.3/RELEASES")
    ∧ data !! "update-local" = Some (VStr "win32-x64-prod-v1.2.3").
Proof.
  eexists _, _, _. split; [vm_compute; reflexivity|].
  split; [vm_compute; reflexivity|]. split; [vm_compute; reflexivity|].
  split; vm_compute; reflexivity.
Qed.

(** X2: For a win32 build whose [metaFile] URL and mirror path end in the only
    [/RELEASES] they contain, the [update] and [update-local] fields of the
    record are that URL and that path without the suffix. *)
Theorem manifestRecord_win32_trailing build fields
    (assets L : gmap string value) url path :
  platform build = Some "win32" →
  assets !! "local" = Some (VObj L) →
  assets !! "metaFile" = Some (VStr (url +:+ "/RELEASES")) →
  L !! "metaFile" = Some (VStr (path +:+ "/RELEASES")) →
  only_at_end "/RELEASES" url →
  only_at_end "/RELEASES" path →
  ∃ data,
    manifestRecord build fields assets = Return data
    ∧ data !! "update" = Some (VStr url)
    ∧ data !! "update-local" = Some (VStr path).
Proof.
  intros Hplatform Hlocal Hmeta HLmeta Hurl Hpath.
  unfold manifestRecord, obj_get. rewrite Hlocal, Hmeta, Hplatform. simpl.
  unfold obj_get. rewrite HLmeta.
  rewrite replace_first_trailing by done.
  eexists. split; [reflexivity|].
  rewrite replace_first_trailing by done.
  rewrite !obj_set_insert by done.
  split; [by rewrite lookup_insert_ne, lookup_insert_eq|].
  apply lookup_insert_eq.
Qed.

(** A record whose [metaFile] URL is [http://h/b/RELEASES]. *)
Lemma manifestRecord_win32_trailing_witness :
  ∃ data,
    manifestRecord Backends.exampleBuild ∅
      {[ "local" := VObj {[ "metaFile" := VStr ("b" +:+ "/RELEASES") ]};
         "metaFile" := VStr ("http://h/b" +:+ "/RELEASES") ]}
    = Return data
    ∧ data !! "update" = Some (VStr "http://h/b")
    ∧ data !! "update-local" = Some (VStr "b").
Proof.
  apply (manifestRecord_win32_trailing Backends.exampleBuild ∅
           {[ "local" := VObj {[ "metaFile" := VStr ("b" +:+ "/RELEASES") ]};
              "metaFile" := VStr ("http://h/b" +:+ "/RELEASES") ]}
           {[ "metaFile" := VStr ("b" +:+ "/RELEASES") ]}
           "http://h/b" "b").
  - reflexivity.
  - reflexivity.
  - reflexivity.
  - reflexivity.
  - intros i Hi. do 10 (destruct i as [|i]; [reflexivity|]).
    simpl in Hi. lia.
  - intros i Hi. destruct i as [|i]; [reflexivity|]. simpl in Hi. lia.
Defined.

(** ** Progress rendering *)

(** C9 at [total === 0]: whatever was transferred, the quotient is [NaN] or
    an infinity, [new Array] rejects it, and the handler ends in a
    RangeError; [formatSize(0)] alone is ["0 B"]. *)
Theorem onProgress_total_zero engine name transferred sign :
  onProgress engine (mkProgress name transferred (S754_zero sign))
  = Throw (RangeError "Invalid array length")
  ∧ formatSize engine (S754_zero sign) = "0 B".
Proof.
  split.
  - unfold onProgress. simpl.
    by destruct transferred as [s|s| |s m e]; destruct sign; try destruct s.
  - by destruct sign.
Qed.

(** ** Build normalization *)

Lemma starts_with_cons a b (p s : string) :
  starts_with (String a p) (String b s) = Ascii.eqb a b && starts_with p s.
Proof. reflexivity. Qed.

Lemma starts_with_v (s : string) :
  starts_with "v" s = true → s = "v" +:+ substring1 s.
Proof.
  destruct s as [|c s]; [done|]. rewrite starts_with_cons.
  by intros [<-%Ascii.eqb_eq _]%andb_true_iff.
Qed.

Lemma stripPrefix_v (resolved : option string) (v : string) :
  stripPrefix resolved = Some v →
  starts_with "v" v = true →
  resolved = Some ("v" +:+ v).
Proof.
  unfold stripPrefix. destruct resolved as [s|]; [|done].
  destruct (truthy (VStr s) && starts_with "v" s) eqn:Hs.
  - apply andb_true_iff in Hs as [_ Hs]. intros [= <-] _.
    f_equal. by apply starts_with_v.
  - intros [= ->] Hv. rewrite Hv, andb_true_r in Hs.
    by destruct v.
Qed.

Lemma normalizeBuild_version build options b :
  normalizeBuild build options = Return b →
  version b = stripPrefix (version (withDefaults (asBuild build) options)).
Proof.
  unfold normalizeBuild. by case_match; intros [= <-].
Qed.

(** ** The version pattern of the remove command *)

Lemma skip_digits_spec (s : string) :
  ∃ a, s = a +:+ skip_digits s ∧ has_char (negb ∘ is_digit) a = false.
Proof.
  induction s as [|c s (a & Hs & Ha)]; [by exists ""|].
  simpl. destruct (is_digit c) eqn:Hc.
  - exists (String c a). rewrite append_cons, <- Hs. split; [done|].
    simpl. by rewrite Hc, Ha.
  - by exists "".
Qed.

Lemma digits_then_sound (s r : string) :
  digits_then s = Some r → ∃ a, s = a +:+ r ∧ digits a.
Proof.
  destruct s as [|c s]; [done|]. simpl.
  destruct (is_digit c) eqn:Hc; [|done]. intros [= <-].
  destruct (skip_digits_spec s) as (a & Hs & Ha).
  exists (String c a). rewrite append_cons, <- Hs. split; [done|].
  split; [done|]. simpl. by rewrite Hc, Ha.
Qed.

Lemma dot_then_sound (s r : string) : dot_then s = Some r → s = "." +:+ r.
Proof.
  destruct s as [|c s]; [done|]. unfold dot_then.
  destruct (Ascii.eqb_spec c ".") as [->|]; [|done]. by intros [= <-].
Qed.

Lemma and_then_sound {A B} (o : option A) (f : A → option B) b :
  and_then o f = Some b → ∃ a, o = Some a ∧ f a = Some b.
Proof. destruct o as [a|]; [|done]. intros H. by exists a. Qed.

Lemma semver_at_sound (s : string) :
  semver_at s = true →
  ∃ a b c post,
    s = a +:+ "." +:+ b +:+ "." +:+ c +:+ post
    ∧ digits a ∧ digits b ∧ digits c.
Proof.
  unfold semver_at.
  destruct (and_then _ dot_then) as [[|c post]|] eqn:H4; try done.
  intros Hc.
  apply and_then_sound in H4 as (r3 & H3 & ->%dot_then_sound).
  apply and_then_sound in H3 as (r2 & H2 & (b & -> & Hb)%digits_then_sound).
  apply and_then_sound in H2 as (r1 & (a & -> & Ha)%digits_then_sound
                                    & ->%dot_then_sound).
  exists a, b, (String c ""), post.
  split; [done|]. split; [done|]. split; [done|].
  split; [done|]. simpl. by rewrite Hc.
Qed.

Lemma matches_semver_unfold (s : string) :
  matches_semver s
  = semver_at s || match s with
                   | String _ r => matches_semver r
                   | EmptyString => false
                   end.
Proof. by destruct s. Qed.

Lemma matches_semver_sound (s : string) :
  matches_semver s = true → semver_like s.
Proof.
  induction s as [|ch s IH]; rewrite matches_semver_unfold;
    intros [Hat|Hrest]%orb_true_iff.
  1, 3: apply semver_at_sound in Hat as (a & b & c & post & H & ?);
        by exists "", a, b, c, post.
  - done.
  - destruct (IH Hrest) as (pre & a & b & c & post & -> & ?).
    by exists (String ch pre), a, b, c, post.
Qed.

Lemma skip_digits_app (a r : string) :
  has_char (negb ∘ is_digit) a = false →
  starts_with_digit r = false →
  skip_digits (a +:+ r) = r.
Proof.
  intros Ha Hr. induction a as [|c a IH].
  - rewrite append_empty. destruct r as [|d r]; [done|].
    simpl in *. by rewrite Hr.
  - rewrite append_cons. simpl in *.
    apply orb_false_iff in Ha as [Hc Ha].
    apply negb_false_iff in Hc. rewrite Hc. by apply IH.
Qed.

Lemma digits_then_app (a r : string) :
  digits a →
  starts_with_digit r = false →
  digits_then (a +:+ r) = Some r.
Proof.
  intros [Hne Ha] Hr. destruct a as [|c a]; [done|].
  rewrite append_cons. simpl in *.
  apply orb_false_iff in Ha as [Hc Ha].
  apply negb_false_iff in Hc. rewrite Hc. f_equal.
  by apply skip_digits_app.
Qed.

Lemma semver_at_complete (a b c post : string) :
  digits a → digits b → digits c →
  semver_at (a +:+ "." +:+ b +:+ "." +:+ c +:+ post) = true.
Proof.
  intros Ha Hb [Hne Hc]. unfold semver_at.
  rewrite digits_then_app by (done || reflexivity).
  change (and_then (Some ("." +:+ ?r)) dot_then) with (Some r).
  change (and_then (Some ?r) digits_then) with (digits_then r).
  rewrite digits_then_app by (done || reflexivity).
  change (and_then (Some ("." +:+ ?r)) dot_then) with (Some r).
  destruct c as [|d c]; [done|]. rewrite append_cons. simpl in Hc.
  apply orb_false_iff in Hc as [Hd _]. by apply negb_false_iff in Hd.
Qed.

Lemma matches_semver_complete (s : string) :
  semver_like s → matches_semver s = true.
Proof.
  intros (pre & a & b & c & post & -> & Ha & Hb & Hc).
  induction pre as [|ch pre IH]; rewrite matches_semver_unfold.
  - by rewrite append_empty, semver_at_complete.
  - rewrite append_cons, IH. apply orb_true_r.
Qed.

Lemma matches_semver_iff (s : string) :
  matches_semver s = true ↔ semver_like s.
Proof.
  split; [apply matches_semver_sound|apply matches_semver_complete].
Qed.

(** ** Validation of the remove command *)

Lemma filter_nil {A} (f : A → bool) (l : list A) :
  List.filter f l = [] ↔ ∀ x, x ∈ l → f x = false.
Proof.
  induction l as [|a l IH]; simpl.
  - split; [|done]. intros _ x Hx. by apply elem_of_nil in Hx.
  - destruct (f a) eqn:Ha.
    + split; [done|]. intros H. specialize (H a (list_elem_of_here _ _)).
      congruence.
    + rewrite IH. split.
      * intros H x [->|Hx]%elem_of_cons; auto.
      * intros H x Hx. apply H. by apply list_elem_of_further.
Qed.

Lemma invalidBuild_false (b : Build) :
  invalidBuild b = false →
  ∃ v, version b = Some v ∧ matches_semver v = true.
Proof.
  unfold invalidBuild.
  destruct (platform b), (arch b), (channel b), (version b) as [v|];
    try done.
  destruct (_ || _); [done|].
  intros [_ Hv]%negb_false_iff%andb_true_iff. by exists v.
Qed.

Lemma invalidBuild_no_semver (b : Build) :
  (∀ v, version b = Some v → matches_semver v = false) →
  invalidBuild b = true.
Proof.
  unfold invalidBuild. intros H.
  destruct (platform b), (arch b), (channel b), (version b) as [v|];
    try done.
  destruct (_ || _); [done|].
  rewrite (H v eq_refl). by rewrite andb_false_r.
Qed.

Lemma validateIfRemoveCommand_return options :
  is_remove options = true →
  validateIfRemoveCommand options = Return tt →
  builds options ≠ [] ∧ ∀ b, b ∈ builds options → invalidBuild b = false.
Proof.
  unfold validateIfRemoveCommand. intros ->. simpl.
  destruct (builds options) as [|b0 rest] eqn:Hbuilds; [done|].
  destruct (Nat.eqb_spec (length (List.filter invalidBuild (b0 :: rest))) 0)
    as [Hlen|]; [|by destruct (length (b0 :: rest) =? 0)%nat].
  intros _. split; [done|].
  by apply filter_nil, nil_length_inv.
Qed.

Lemma validateIfRemoveCommand_throw options :
  is_remove options = true →
  (builds options = [] ∨ ∃ b, b ∈ builds options ∧ invalidBuild b = true) →
  ∃ message, validateIfRemoveCommand options = Throw (Error message).
Proof.
  unfold validateIfRemoveCommand. intros -> [->|(b & Hb & Hinvalid)]; simpl.
  - eauto.
  - destruct (Nat.eqb_spec (length (builds options)) 0); [eauto|].
    destruct (Nat.eqb_spec (length (List.filter invalidBuild (builds options))) 0)
      as [Hlen|]; [|simpl; eauto].
    apply nil_length_inv in Hlen.
    rewrite (proj1 (filter_nil _ _) Hlen b Hb) in Hinvalid. discriminate.
Qed.

Lemma stripPrefix_cases (resolved : option string) :
  (∀ s, resolved = Some ("v" +:+ s) → stripPrefix resolved = Some s)
  ∧ (∀ s, resolved = Some s → starts_with "v" s = false →
          stripPrefix resolved = Some s)
  ∧ (resolved = None → stripPrefix resolved = None).
Proof.
  split; [|split].
  - by intros s ->.
  - intros s -> Hs. unfold stripPrefix. by rewrite Hs, andb_false_r.
  - by intros ->.
Qed.

(** C10, as the code has it.  A build [normalizeBuild] returns has the
    platform, arch and channel that were resolved, and the resolved version
    with one leading [v] removed and the rest kept: a version without that
    prefix is kept whole, so the normalized version begins with [v] only
    when the resolved one began with two.  The build [transformBuilds] makes
    when no build is given does not go through [normalizeBuild]: its version
    is [options.version] as it is.  For the remove command every build of
    options that pass validation has a version with a digits.digits.digits
    part, and validation throws when there is no build or when some build
    has no such version. *)
Theorem normalizeBuild_and_validation :
  (∀ build options b,
     normalizeBuild build options = Return b →
     let resolved := withDefaults (asBuild build) options in
     platform b = platform resolved
     ∧ arch b = arch resolved
     ∧ channel b = channel resolved
     ∧ (∀ s, version resolved = Some ("v" +:+ s) → version b = Some s)
     ∧ (∀ s, version resolved = Some s → starts_with "v" s = false →
             version b = Some s)
     ∧ (version resolved = None → version b = None)
     ∧ (∀ v, version b = Some v → starts_with "v" v = true →
             version resolved = Some ("v" +:+ v)))
  ∧ (∀ getAvailableBuilds given options options',
       is_remove options = false →
       default [] given = [] →
       TransformBuilds.transformBuilds getAvailableBuilds given options
       = Return options' →
       ∃ b, builds options' = [b]
            ∧ version b = options_version options)
  ∧ (∀ options b,
       is_remove options = true →
       validateIfRemoveCommand options = Return tt →
       b ∈ builds options →
       ∃ v, version b = Some v ∧ semver_like v)
  ∧ (∀ options,
       is_remove options = true →
       (builds options = []
        ∨ ∃ b, b ∈ builds options
               ∧ ∀ v, version b = Some v → ¬ semver_like v) →
       ∃ message, validateIfRemoveCommand options = Throw (Error message)).
Proof.
  split; [|split; [|split]].
  - intros build options b Hb resolved.
    pose proof (normalizeBuild_version _ _ _ Hb) as Hversion.
    fold resolved in Hversion.
    destruct (stripPrefix_cases (version resolved))
      as (Hstrip & Hkeep & Hnone).
    assert (Hfields : platform b = platform resolved
                      ∧ arch b = arch resolved
                      ∧ channel b = channel resolved).
    { unfold normalizeBuild in Hb. fold resolved in Hb.
      by case_match; simplify_eq. }
    destruct Hfields as (Hp & Ha & Hc).
    split; [done|]. split; [done|]. split; [done|].
    rewrite Hversion.
    split; [done|]. split; [done|]. split; [done|].
    intros v Hv Hstarts. by apply stripPrefix_v.
  - intros getAvailableBuilds given options options' Hremove Hgiven.
    unfold TransformBuilds.transformBuilds. rewrite Hgiven. simpl.
    change (is_remove (TransformBuilds.with_builds options []))
      with (is_remove options).
    rewrite Hremove.
    destruct (truthy_field (options_version options)); simpl; [|done].
    intros [= <-]. by eexists.
  - intros options b Hremove Hvalid Hb.
    destruct (validateIfRemoveCommand_return _ Hremove Hvalid) as [_ Hall].
    destruct (invalidBuild_false b (Hall b Hb)) as (v & Hv & Hsemver).
    exists v. split; [done|]. by apply matches_semver_iff.
  - intros options Hremove [Hnil|(b & Hb & Hno)];
      apply validateIfRemoveCommand_throw; auto.
    right. exists b. split; [done|].
    apply invalidBuild_no_semver. intros v Hv.
    destruct (matches_semver v) eqn:Hm; [|done].
    by apply matches_semver_iff, Hno in Hm.
Qed.

(** A build given with a prefixed version, a build given with a plain
    version, the build made when none is given, a valid removal and a
    removal without builds. *)
Lemma normalizeBuild_and_validation_witness :
  (∃ b, normalizeBuild (BuildString "win32-x64-prod-v1.0.0")
          Backends.publishOptions = Return b
        ∧ version b = Some "1.0.0")
  ∧ (∃ b, normalizeBuild (BuildString "win32-x64-prod-2.0.0")
            Backends.publishOptions = Return b
          ∧ version b = Some "2.0.0")
  ∧ (∃ options' b,
       TransformBuilds.transformBuilds (λ _, []) None
         Backends.publishOptions = Return options'
       ∧ builds options' = [b]
       ∧ version b = options_version Backends.publishOptions)
  ∧ (∃ v, version Backends.darwinBuild = Some v ∧ semver_like v)
  ∧ ∃ message,
      validateIfRemoveCommand
        (mkOptions (Some "remove") None None None None [])
      = Throw (Error message).
Proof.
  destruct normalizeBuild_and_validation
    as (Hstrip & Hdefault & Hvalid & Hthrow).
  split; [|split; [|split; [|split]]].
  - eexists. split; [reflexivity|].
    refine (proj1 (proj2 (proj2 (proj2
      (Hstrip (BuildString "win32-x64-prod-v1.0.0")
         Backends.publishOptions _ eq_refl)))) "1.0.0" eq_refl).
  - eexists. split; [reflexivity|].
    refine (proj1 (proj2 (proj2 (proj2 (proj2
      (Hstrip (BuildString "win32-x64-prod-2.0.0")
         Backends.publishOptions _ eq_refl))))) "2.0.0" eq_refl eq_refl).
  - eexists. 
    refine (let H := Hdefault (λ _, []) None Backends.publishOptions _
                       eq_refl eq_refl eq_refl in _).
    destruct H as (b & Hb & Hv). exists b. split; [reflexivity|]. by split.
  - apply (Hvalid Backends.removeOptions); [reflexivity|reflexivity|].
    apply list_elem_of_here.
  - apply Hthrow; [reflexivity|]. by left.
Defined.

(** C10 as stated fails in two ways.  For a version with a doubled prefix
    one [v] is removed and the normalized version still begins with [v];
    and with no build given, the one build [transformBuilds] makes carries
    the version of the options with its prefix. *)
Lemma normalizeBuild_keeps_second_v :
  (∃ b,
     normalizeBuild (BuildString "win32-x64-prod-vv1.0.0")
                    Backends.publishOptions = Return b
     ∧ version b = Some "v1.0.0"
     ∧ starts_with "v" "v1.0.0" = true)
  ∧ ∃ options',
      TransformBuilds.transformBuilds (λ _, []) None
        (mkOptions (Some "publish") (Some "win32") (Some "x64")
                   (Some "prod") (Some "v1.2.3") [])
      = Return options'
      ∧ map version (builds options') = [Some "v1.2.3"]
      ∧ starts_with "v" "v1.2.3" = true.
Proof.
  split.
  - eexists. split; [reflexivity|]. by split.
  - eexists. split; [reflexivity|]. by split.
Qed.

(** ** The two scenarios of the specification *)

(** The win32 build with [install] and [update] bound to one installer:
    the installer is uploaded once and [RELEASES] once, in that order, and
    the record stored in the manifest has the directory of [RELEASES] as its
    [update] and [update-local] fields. *)
Example publish_win32_scenario :
  ∃ assets data appended,
    let host := Backends.mirrorHost Backends.exampleOptions in
    let published :=
      run (publishAssets host Backends.exampleOptions Backends.exampleBuild)
          (VObj ∅) in
    result_of published = Return assets
    ∧ List.filter (λ c, match c with CallUploadFile _ => true | _ => false end)
        (calls_of published)
      = [CallUploadFile "./Setup.exe"; CallUploadFile "./RELEASES"]
    ∧ calls_of (run (publishRecord host Backends.exampleOptions
                       Backends.mirrorFetch Backends.exampleBuild ∅ assets)
                  (VObj ∅))
      = [CallAppendFileSync "dist/archive/updates.json" appended;
         CallPushUpdatesJson (VObj {["win32-x64-prod" := VObj data]})]
    ∧ data !! "update" = Some (VStr "http://cdn.example/win32-x64-prod-v1.2.3")
    ∧ data !! "update-local" = Some (VStr "win32-x64-prod-v1.2.3")
    ∧ data !! "install"
      = Some (VStr "http://cdn.example/win32-x64-prod-v1.2.3/Setup.exe")
    ∧ data !! "version" = Some (VStr "1.2.3").
Proof.
  eexists _, _, _. cbv zeta.
  split; [vm_compute; reflexivity|]. split; [vm_compute; reflexivity|].
  split; [vm_compute; reflexivity|].
  repeat split; vm_compute; reflexivity.
Qed.

(** The removal of [darwin-x64-prod-v9.9.9]: the entry of the triple is
    deleted when the manifest holds version 9.9.9 there, and the manifest is
    pushed back as it was when it holds version 1.0.0. *)
Example remove_darwin_scenario :
  ∃ build,
    let host := Backends.keyedHost "" in
    let remove := mkOptions (Some "remove") None None None None [] in
    normalizeBuild (BuildString "darwin-x64-prod-v9.9.9") remove = Return build
    ∧ validateIfRemoveCommand
        (mkOptions (Some "remove") None None None None [build]) = Return tt
    ∧ calls_of (run (updateUpdatesJson host Backends.exampleOptions
                       (ret (VObj Backends.exampleManifest)) build
                       (VBool false)) tt)
      = [CallPushUpdatesJson
           (VObj {["linux-x64-prod" := VObj (Backends.exampleRecord "9.9.9")]})]
    ∧ calls_of (run (updateUpdatesJson host Backends.exampleOptions
                       (ret (VObj {["darwin-x64-prod" :=
                                      VObj (Backends.exampleRecord "1.0.0")]}))
                       build (VBool false)) tt)
      = [CallPushUpdatesJson
           (VObj {["darwin-x64-prod" := VObj (Backends.exampleRecord "1.0.0")]})].
Proof.
  eexists. cbv zeta. split; [reflexivity|].
  repeat split; vm_compute; reflexivity.
Qed.

(** * Further properties of the transport *)

(** ** Publishing and removing one build *)

Lemma strict_eq_of_field (f : option string) :
  strict_eq (of_field f) (of_field f) = true.
Proof. destruct f as [s|]; simpl; [apply String.eqb_refl|done]. Qed.

Lemma assign_lookup_right (a b : gmap string value) k v :
  k ≠ "__proto__" → b !! k = Some v → assign a b !! k = Some v.
Proof.
  intros Hk Hb. unfold assign.
  apply lookup_union_Some_l. by rewrite lookup_delete_ne.
Qed.

(** The record of a build carries the version of the build, whatever the
    extra fields say. *)
Lemma manifestRecord_version build fields assets data :
  manifestRecord build fields assets = Return data →
  data !! "version" = Some (of_field (version build)).
Proof.
  unfold manifestRecord.
  destruct (get_prop _ "update") as [lu|]; [|done].
  destruct (get_prop _ "install") as [li|]; [|done].
  set (literal := <["update" := _]> _).
  assert (Hversion : assign fields literal !! "version"
                     = Some (of_field (version build))).
  { apply assign_lookup_right; [done|]. unfold literal.
    rewrite !lookup_insert_ne by done. apply lookup_singleton_eq. }
  destruct (strict_eq _ (VStr "win32")); [|by intros [= <-]].
  destruct (strip_releases _) as [u|]; [|done].
  destruct (get_prop _ "metaFile") as [lm|]; [|done].
  destruct (strip_releases lm) as [ul|]; [|done].
  intros [= <-]. rewrite !obj_set_insert by done.
  by rewrite !lookup_insert_ne by done.
Qed.

(** X4: Publishing the record of a build and then removing the same build
    leaves the manifest without the key of the build and otherwise as it
    was: the record [publish] builds always carries the version the removal
    compares with. *)
Theorem publish_then_remove opts build fields assets data
    (json : gmap string value) signal :
  manifestRecord build fields assets = Return data →
  truthy signal = false →
  signal ≠ VNull →
  let buildId := getBuildId opts (Some build) false in
  ∃ published,
    updateSection opts build (VObj data) (VObj json) = Return (VObj published)
    ∧ published !! buildId = Some (VObj data)
    ∧ updateSection opts build signal (VObj published)
      = Return (VObj (delete buildId json))
    ∧ (json !! buildId = None → delete buildId json = json).
Proof.
  intros Hdata Hfalsy Hnull buildId.
  exists (<[buildId := VObj data]> json).
  split; [apply updateSection_record|].
  split; [apply lookup_insert_eq|].
  split; [|apply delete_id].
  destruct (updateSection_removal opts build signal
              (<[buildId := VObj data]> json) Hfalsy Hnull)
    as (hit & -> & Hhit).
  fold buildId in Hhit |- *.
  assert (hit = true) as ->.
  { apply Hhit. exists (VObj data). split; [apply lookup_insert_eq|].
    split; [done|]. exists (of_field (version build)).
    split; [|apply strict_eq_of_field].
    simpl. rewrite obj_get_ordinary by done.
    by rewrite (manifestRecord_version _ _ _ _ Hdata). }
  by rewrite delete_insert_eq.
Qed.

(** The record of the win32 scenario, removed with [false]. *)
Lemma publish_then_remove_witness :
  ∃ data,
    manifestRecord Backends.exampleBuild ∅
      {[ "local" := VObj {[ "metaFile" := VStr "b/RELEASES" ]};
         "metaFile" := VStr "http://h/b/RELEASES" ]} = Return data
    ∧ ∃ published,
        updateSection Backends.exampleOptions Backends.exampleBuild
          (VObj data) (VObj Backends.exampleManifest)
        = Return (VObj published)
        ∧ published !! "win32-x64-prod" = Some (VObj data)
        ∧ updateSection Backends.exampleOptions Backends.exampleBuild
            (VBool false) (VObj published)
          = Return (VObj (delete "win32-x64-prod" Backends.exampleManifest))
        ∧ (Backends.exampleManifest !! "win32-x64-prod" = None →
           delete "win32-x64-prod" Backends.exampleManifest
           = Backends.exampleManifest).
Proof.
  eexists. split; [vm_compute; reflexivity|].
  apply (publish_then_remove Backends.exampleOptions Backends.exampleBuild ∅
           {[ "local" := VObj {[ "metaFile" := VStr "b/RELEASES" ]};
              "metaFile" := VStr "http://h/b/RELEASES" ]}).
  - vm_compute. reflexivity.
  - reflexivity.
  - discriminate.
Defined.

(** ** The manifest update on a cold start and on a scalar manifest *)

Lemma fetchUpdatesJson_empty {W} (host : Host W) opts url w statusCode body :
  getUpdatesJsonUrl opts = Return url →
  snd (host_http_get host url w) = HttpResponse statusCode body →
  statusCode ≠ 200%Z ∨ host_JSON_parse host body = None →
  fetchUpdatesJson host opts (w, [])
  = ((fst (host_http_get host url w), [CallHttpGet url]), Return (VObj ∅)).
Proof.
  unfold getUpdatesJsonUrl.
  destruct (updatesJsonUrl opts) as [u|] eqn:Hu; [|done].
  intros [= <-] Hget Hempty.
  change (fetchUpdatesJson host opts (w, []))
    with (run (fetchUpdatesJson host opts) w).
  rewrite (fetchUpdatesJson_run host opts u w Hu).
  destruct (host_http_get host (chop_slash u) w) as [w' r].
  simpl in *. subst r. f_equal.
  destruct (Z.eqb_spec statusCode 200) as [->|]; [|done].
  destruct Hempty as [Hne | Hparse]; [done|by rewrite Hparse].
Qed.

(** X5: With the default fetch, when the manifest is absent (a status other than
    200) or unreadable (a body [JSON.parse] rejects), publishing a record
    pushes a manifest that holds that record and nothing else, so whatever
    the unreadable manifest held is replaced, and a removal pushes the empty
    manifest. *)
Theorem updateUpdatesJson_cold_start {W} (host : Host W) opts build
    (data : gmap string value) signal url w statusCode body :
  getUpdatesJsonUrl opts = Return url →
  snd (host_http_get host url w) = HttpResponse statusCode body →
  statusCode ≠ 200%Z ∨ host_JSON_parse host body = None →
  truthy signal = false →
  signal ≠ VNull →
  calls_of (run (updateUpdatesJson host opts (fetchUpdatesJson host opts)
                   build (VObj data)) w)
  = [CallHttpGet url;
     CallPushUpdatesJson
       (VObj {[getBuildId opts (Some build) false := VObj data]})]
  ∧ calls_of (run (updateUpdatesJson host opts (fetchUpdatesJson host opts)
                     build signal) w)
    = [CallHttpGet url; CallPushUpdatesJson (VObj ∅)].
Proof.
  intros Hurl Hget Hempty Hfalsy Hnull.
  pose proof (fetchUpdatesJson_empty host opts url w _ _ Hurl Hget Hempty)
    as Hfetch.
  split.
  - rewrite (updateUpdatesJson_run _ _ _ _ _ _ _ _ _ Hfetch
               (updateSection_record opts build data ∅)).
    by rewrite calls_of_push, insert_empty.
  - destruct (updateSection_removal opts build signal ∅ Hfalsy Hnull)
      as (hit & Hsection & _).
    rewrite (updateUpdatesJson_run _ _ _ _ _ _ _ _ _ Hfetch Hsection).
    rewrite calls_of_push. simpl. by destruct hit; rewrite ?delete_empty.
Qed.

(** Against the mirror backend, whose HTTP host answers 404. *)
Lemma updateUpdatesJson_cold_start_witness :
  calls_of (run (updateUpdatesJson
                   (Backends.mirrorHost Backends.exampleOptions)
                   Backends.exampleOptions
                   (fetchUpdatesJson
                      (Backends.mirrorHost Backends.exampleOptions)
                      Backends.exampleOptions)
                   Backends.darwinBuild
                   (VObj (Backends.exampleRecord "9.9.9"))) (VObj ∅))
  = [CallHttpGet "http://cdn.example/updates.json";
     CallPushUpdatesJson
       (VObj {[getBuildId Backends.exampleOptions
                 (Some Backends.darwinBuild) false
               := VObj (Backends.exampleRecord "9.9.9")]})]
  ∧ calls_of (run (updateUpdatesJson
                     (Backends.mirrorHost Backends.exampleOptions)
                     Backends.exampleOptions
                     (fetchUpdatesJson
                        (Backends.mirrorHost Backends.exampleOptions)
                        Backends.exampleOptions)
                     Backends.darwinBuild (VBool false)) (VObj ∅))
    = [CallHttpGet "http://cdn.example/updates.json";
       CallPushUpdatesJson (VObj ∅)].
Proof.
  apply (updateUpdatesJson_cold_start
           (Backends.mirrorHost Backends.exampleOptions)
           Backends.exampleOptions Backends.darwinBuild
           (Backends.exampleRecord "9.9.9") (VBool false)
           "http://cdn.example/updates.json" (VObj ∅) 404 "").
  - reflexivity.
  - reflexivity.
  - by left.
  - reflexivity.
  - discriminate.
Defined.

(** X6: When the manifest parses to a truthy JSON scalar, publishing a record
    ends in a TypeError before anything is pushed (the file is strict), and
    a removal pushes the scalar back as it is. *)
Theorem updateUpdatesJson_scalar_manifest {W} (host : Host W) opts
    (fetch : io W value) build (data : gmap string value) signal json w s' :
  fetch (w, []) = (s', Return json) →
  is_scalar json = true →
  truthy json = true →
  truthy signal = false →
  signal ≠ VNull →
  run (updateUpdatesJson host opts fetch build (VObj data)) w
  = (s', Throw (TypeError "Cannot create property on a primitive"))
  ∧ calls_of (run (updateUpdatesJson host opts fetch build signal) w)
    = snd s' ++ [CallPushUpdatesJson json].
Proof.
  intros Hfetch Hscalar Htruthy Hfalsy Hnull.
  assert (Hrecord : updateSection opts build (VObj data) json
            = Throw (TypeError "Cannot create property on a primitive")).
  { unfold updateSection, or_else. rewrite Htruthy. simpl.
    by destruct json. }
  assert (Hremove : updateSection opts build signal json = Return json).
  { unfold updateSection, or_else. rewrite Htruthy.
    rewrite (falsy_not_object signal) by done.
    destruct json; try done; simpl;
      by rewrite getBuildId_not_inherited. }
  split.
  - unfold run, updateUpdatesJson, IO.bind, lift.
    by rewrite Hfetch, Hrecord.
  - rewrite (updateUpdatesJson_run _ _ _ _ _ _ _ _ _ Hfetch Hremove).
    apply calls_of_push.
Qed.

(** A manifest file that holds the number 5. *)
Lemma updateUpdatesJson_scalar_manifest_witness :
  run (updateUpdatesJson (Backends.keyedHost "") Backends.exampleOptions
         (ret (VNum (num_of_Z 5))) Backends.darwinBuild
         (VObj (Backends.exampleRecord "9.9.9"))) tt
  = ((tt, []), Throw (TypeError "Cannot create property on a primitive"))
  ∧ calls_of (run (updateUpdatesJson (Backends.keyedHost "")
                     Backends.exampleOptions (ret (VNum (num_of_Z 5)))
                     Backends.darwinBuild (VBool false)) tt)
    = [] ++ [CallPushUpdatesJson (VNum (num_of_Z 5))].
Proof.
  apply (updateUpdatesJson_scalar_manifest (Backends.keyedHost "")
           Backends.exampleOptions (ret (VNum (num_of_Z 5)))
           Backends.darwinBuild (Backends.exampleRecord "9.9.9")
           (VBool false) (VNum (num_of_Z 5)) tt (tt, [])).
  - reflexivity.
  - reflexivity.
  - reflexivity.
  - reflexivity.
  - discriminate.
Defined.

(** ** The constructor and the manifest URL *)

Lemma chop_slash_app (a : string) c (b : string) :
  chop_slash (a +:+ String c b) = a +:+ chop_slash (String c b).
Proof.
  induction a as [|x a IH]; [by rewrite append_empty|].
  rewrite !append_cons. simpl chop_slash at 1.
  destruct (a +:+ String c b) eqn:Happ.
  - destruct a; rewrite ?append_empty, ?append_cons in Happ; discriminate.
  - by rewrite <- IH.
Qed.

Lemma chop_slash_empty (s : string) :
  chop_slash s = "" → s = "" ∨ s = "/".
Proof.
  destruct s as [|c [|d r]]; [by left| |].
  - simpl. unfold is_slash, slash.
    destruct (Ascii.eqb_spec c "/"%char) as [->|]; [by right|done].
  - simpl. discriminate.
Qed.

(** X7: The constructor refuses the options exactly when [updatesJsonUrl] is
    unset or empty and [transport.remoteUrl] is unset, empty or the single
    slash (which its own trailing-slash rule empties).  When it accepts
    them, [getUpdatesJsonUrl()] returns: the given [updatesJsonUrl] without
    one trailing slash, or else [remoteUrl] without one trailing slash,
    followed by [/updates.json]. *)
Theorem normalizeOptions_manifest_url (o : TransportOptions) :
  ((∃ e, normalizeOptions o = Throw e)
   ↔ truthy_field (updatesJsonUrl o) = false
     ∧ (remoteUrl o = None ∨ remoteUrl o = Some ""
        ∨ remoteUrl o = Some "/"))
  ∧ ∀ opts, normalizeOptions o = Return opts →
      (∀ u, updatesJsonUrl o = Some u → u ≠ "" →
            getUpdatesJsonUrl opts = Return (chop_slash u))
      ∧ (truthy_field (updatesJsonUrl o) = false →
         ∃ r, remoteUrl o = Some r
              ∧ getUpdatesJsonUrl opts
                = Return (chop_slash r +:+ "/updates.json")).
Proof.
  unfold normalizeOptions, getUpdatesJsonUrl.
  destruct (remoteUrl o) as [[|c r]|];
    destruct (updatesJsonUrl o) as [[|d u]|];
    try (destruct (chop_slash (String c r)) as [|x t] eqn:Hchop); simpl.
  all: split.
  all: try (split;
      [intros [e He]; try discriminate; eauto
      |intros [Hu Hr]; try discriminate; eauto]).
  all: try (intros opts Hopts;
      first [discriminate
            |injection Hopts as <-; simpl;
             split; [intros ? [= <-] ?; try done|intros ?; try done]]).
  all: try (split; [done|]; destruct (chop_slash_empty _ Hchop) as [?|?];
            [discriminate|right; right; congruence]).
  all: try (destruct Hr as [?|[?|[= -> ->]]]; simpl in Hchop; discriminate).
  all: eexists; (split; [done|]); rewrite Hchop;
    transitivity (Return (A:=string)
                    (chop_slash (String x t +:+ String "/" "updates.json")));
    [reflexivity|by rewrite chop_slash_app].
Qed.

(** ** Build identifiers, written and read back *)

Lemma split_hyphen_free (s : string) :
  has_char is_hyphen s = false → split hyphen s = [s].
Proof.
  induction s as [|c s IH]; [done|]. simpl.
  unfold is_hyphen at 1. destruct (Ascii.eqb c hyphen); [done|].
  simpl. intros Hs. by rewrite (IH Hs).
Qed.

Lemma split_hyphen_app (s t : string) :
  has_char is_hyphen s = false →
  split hyphen (s +:+ "-" +:+ t) = s :: split hyphen t.
Proof.
  induction s as [|c s IH]; [done|]. simpl has_char.
  unfold is_hyphen at 1. rewrite append_cons.
  change (split hyphen (String c (s +:+ "-" +:+ t)))
    with (if Ascii.eqb c hyphen then "" :: split hyphen (s +:+ "-" +:+ t)
          else match split hyphen (s +:+ "-" +:+ t) with
               | h :: r => String c h :: r
               | [] => [String c ""]
               end).
  destruct (Ascii.eqb c hyphen); [done|].
  simpl. intros Hs. by rewrite (IH Hs).
Qed.

Lemma truthy_nonempty (s : string) : s ≠ "" → truthy (VStr s) = true.
Proof. by destruct s. Qed.

Lemma append_empty_r (s : string) : s +:+ "" = s.
Proof.
  induction s as [|c s IH]; [done|]. by rewrite append_cons, IH.
Qed.

(** What [normalizeBuild] reads in an identifier that starts with four
    fields without a hyphen, the fourth after a [v]. *)
Lemma normalizeBuild_written options (p a c v tail : string) parts :
  has_char is_hyphen p = false →
  has_char is_hyphen a = false →
  has_char is_hyphen c = false →
  is_remove options = true ∨ (p ≠ "" ∧ a ≠ "" ∧ c ≠ "" ∧ v ≠ "") →
  split hyphen ("v" +:+ v +:+ tail) = ("v" +:+ v) :: parts →
  normalizeBuild
    (BuildString (p +:+ "-" +:+ a +:+ "-" +:+ c +:+ "-" +:+
                  "v" +:+ v +:+ tail)) options
  = Return (mkBuild (Some p) (Some a) (Some c) (Some v) []).
Proof.
  intros Hp Ha Hc Hcase Htail.
  unfold normalizeBuild, asBuild, parseBuildId.
  rewrite (split_hyphen_app p), (split_hyphen_app a),
    (split_hyphen_app c), Htail by done.
  simpl lookup. unfold withDefaults.
  destruct (is_remove options) eqn:Hremove; simpl.
  - change (substring1 ("v" +:+ v)) with v. by rewrite andb_false_r.
  - destruct Hcase as [?|(Hp' & Ha' & Hc' & Hv'')]; [done|].
    unfold inherit_field, truthy_field, of_field.
    rewrite !(truthy_nonempty p), !(truthy_nonempty a),
      !(truthy_nonempty c) by done.
    simpl. change (substring1 ("v" +:+ v)) with v.
    by destruct v.
Qed.

Lemma normalizeBuild_getBuildId opts options (p a c v : string) files :
  has_char is_hyphen p = false →
  has_char is_hyphen a = false →
  has_char is_hyphen c = false →
  has_char is_hyphen v = false →
  is_remove options = true ∨ (p ≠ "" ∧ a ≠ "" ∧ c ≠ "" ∧ v ≠ "") →
  normalizeBuild
    (BuildString
       (getBuildId opts
          (Some (mkBuild (Some p) (Some a) (Some c) (Some v) files)) true))
    options
  = Return (mkBuild (Some p) (Some a) (Some c) (Some v) []).
Proof.
  intros Hp Ha Hc Hv Hcase.
  change (getBuildId opts _ true)
    with (p +:+ "-" +:+ a +:+ "-" +:+ c +:+ "-" +:+ "v" +:+ v).
  rewrite <- (append_empty_r v) at 1.
  apply (normalizeBuild_written options p a c v "" []); try done.
  rewrite append_empty_r. by apply split_hyphen_free.
Qed.

(** X8: The identifier [getBuildId] writes for a build whose four fields have no
    hyphen is read back by [normalizeBuild] as that build (without assets),
    for the remove command and, when no field is empty, for every command;
    and whatever follows one more hyphen is dropped without a word, so a
    version such as [1.0.0-beta] comes back as [1.0.0]. *)
Theorem getBuildId_round_trip opts options (p a c v : string) files :
  has_char is_hyphen p = false →
  has_char is_hyphen a = false →
  has_char is_hyphen c = false →
  has_char is_hyphen v = false →
  is_remove options = true ∨ (p ≠ "" ∧ a ≠ "" ∧ c ≠ "" ∧ v ≠ "") →
  let build := mkBuild (Some p) (Some a) (Some c) (Some v) files in
  let read := Return (mkBuild (Some p) (Some a) (Some c) (Some v) []) in
  normalizeBuild (BuildString (getBuildId opts (Some build) true)) options
  = read
  ∧ ∀ rest,
      normalizeBuild
        (BuildString (getBuildId opts (Some build) true +:+ "-" +:+ rest))
        options
      = read.
Proof.
  intros Hp Ha Hc Hv Hcase build read. split.
  - by apply normalizeBuild_getBuildId.
  - intros rest.
    change (getBuildId opts (Some build) true)
      with (p +:+ "-" +:+ a +:+ "-" +:+ c +:+ "-" +:+ "v" +:+ v).
    rewrite !append_assoc.
    apply (normalizeBuild_written options p a c v ("-" +:+ rest)
             (split hyphen rest)); try done.
    assert (Hv' : has_char is_hyphen ("v" +:+ v) = false) by done.
    by rewrite <- (split_hyphen_app ("v" +:+ v) rest Hv'), !append_assoc.
Qed.

(** ** The mirror and the local entries *)

Lemma duplicateMetaFiles_calls {W} (host : Host W) opts p build dir s s' r :
  local_data opts = Some dir →
  duplicateMetaFiles host opts p build s = (s', r) →
  snd s' = snd s ++
    [CallMkdirSync (join_fields "/" [path opts; dir]);
     CallMkdirSync (join "/" [join_fields "/" [path opts; dir];
                              getBuildId opts (Some build) true]);
     CallCopyFileSync p (mirrorPath opts dir build p)].
Proof.
  intros Hdir. unfold duplicateMetaFiles, archiveDirectory, IO.bind, lift,
    try_mkdirSync, perform_outcome, mirrorPath.
  rewrite Hdir. simpl.
  destruct (host_mkdirSync host _ _) as [w1 r1]. simpl.
  destruct (host_mkdirSync host _ _) as [w2 r2]. simpl.
  destruct (host_copyFileSync host _ _ _) as [w3 r3].
  intros [= <- _]. simpl. by rewrite <- !app_assoc.
Qed.

Lemma duplicateMetaFiles_no_directory {W} (host : Host W) opts p build s :
  local_data opts = None →
  duplicateMetaFiles host opts p build s
  = (s, Throw (TypeError "Cannot read properties of undefined")).
Proof.
  intros Hdir. unfold duplicateMetaFiles, archiveDirectory, IO.bind, lift.
  by rewrite Hdir.
Qed.

Lemma publishAsset_calls {W} (host : Host W) opts build n p acc dir s s' r :
  local_data opts = Some dir →
  publishAsset host opts build n p acc s = (s', r) →
  ∃ cs, snd s' = snd s ++ cs
        ∧ ∀ acc', r = Return acc' →
            CallCopyFileSync p (mirrorPath opts dir build p) ∈ cs.
Proof.
  intros Hdir H. unfold publishAsset in H.
  apply bind_inv in H as [(s1 & f & H1 & H)|(e & H1 & ->)].
  - assert (Hs1 : ∃ cs1, snd s1 = snd s ++ cs1).
    { apply cache_phase_value in H1 as [[_ ->]|[-> _]]; [by eexists|].
      exists []. by rewrite app_nil_r. }
    destruct Hs1 as [cs1 Hs1].
    apply bind_inv in H as [(s2 & [] & H2 & H)|(e & H2 & ->)].
    + apply lift_inv in H as [-> ->].
      rewrite (duplicateMetaFiles_calls _ _ _ _ _ _ _ _ Hdir H2), Hs1.
      rewrite <- app_assoc. eexists. split; [done|].
      intros _ _. set_solver.
    + rewrite (duplicateMetaFiles_calls _ _ _ _ _ _ _ _ Hdir H2), Hs1.
      rewrite <- app_assoc. eexists. split; [done|]. done.
  - destruct (strict_eq (obj_get (uploaded acc) p) VUndef).
    + apply uploadFile_calls in H1. by eexists.
    + injection H1 as <- _. exists []. by rewrite app_nil_r.
Qed.

Lemma publishChain_copies {W} (host : Host W) opts build dir assets :
  local_data opts = Some dir →
  ∀ acc s s' r,
    publishChain host opts build assets acc s = (s', r) →
    ∃ cs, snd s' = snd s ++ cs
          ∧ ∀ acc', r = Return acc' →
              ∀ n p, (n, p) ∈ assets →
                CallCopyFileSync p (mirrorPath opts dir build p) ∈ cs.
Proof.
  intros Hdir. induction assets as [|[n p] rest IH]; intros acc s s' r H.
  - injection H as <- <-. exists []. rewrite app_nil_r. split; [done|].
    intros _ _ n p Hin. by apply elem_of_nil in Hin.
  - simpl in H.
    apply bind_inv in H as [(s1 & acc1 & H1 & H)|(e & H1 & ->)].
    + destruct (publishAsset_calls _ _ _ _ _ _ _ _ _ _ Hdir H1)
        as (cs1 & Hs1 & Hcopy).
      destruct (IH _ _ _ _ H) as (cs & Hs' & Hcopies).
      exists (cs1 ++ cs). rewrite Hs', Hs1, app_assoc. split; [done|].
      intros acc' Hr n' p' [[= -> ->]|Hin]%elem_of_cons.
      * apply elem_of_app. left. by eapply Hcopy.
      * apply elem_of_app. right. by eapply Hcopies.
    + destruct (publishAsset_calls _ _ _ _ _ _ _ _ _ _ Hdir H1)
        as (cs1 & Hs1 & _).
      by exists cs1.
Qed.

(** What the cache holds under a backend that answers with [getFileUrl]. *)
Lemma publishChain_urls {W} (host : Host W) opts build assets :
  answers_getFileUrl host opts build →
  ∀ acc s s' acc',
    publishChain host opts build assets acc s = (s', Return acc') →
    (∀ q v, uploaded acc !! q = Some v →
            ∃ url, getFileUrl opts q build = Return url ∧ v = VStr url) →
    ∀ q v, uploaded acc' !! q = Some v →
           ∃ url, getFileUrl opts q build = Return url ∧ v = VStr url.
Proof.
  intros Hhost.
  induction assets as [|[n p] rest IH]; intros acc s s' acc' H Hacc.
  - by injection H as <- <-.
  - simpl in H.
    apply bind_inv in H as [(s1 & acc1 & H1 & H)|(e & _ & [=])].
    apply (IH _ _ _ _ H). clear IH H.
    unfold publishAsset in H1.
    apply bind_inv in H1 as [(s2 & f & Hf & H1)|(e & _ & [=])].
    apply bind_inv in H1 as [(s3 & [] & _ & H1)|(e & _ & [=])].
    apply lift_inv in H1 as [_ H1]. symmetry in H1.
    assert (Hgood : ∃ url, getFileUrl opts p build = Return url
                           ∧ f = VStr url).
    { apply cache_phase_value in Hf
        as [[Hup _]|[_ [Hp|[name ->]]]].
      - rewrite Hhost in Hup.
        destruct (getFileUrl opts p build) as [url|]; [|done].
        injection Hup as <-. by exists url.
      - by apply Hacc.
      - by rewrite recordAsset_builtin in H1. }
    destruct Hgood as (url & Hurl & ->).
    rewrite (recordAsset_uploaded _ _ _ _ _ _ _ H1).
    assert (Hor : or_else (VStr url) (VStr "") = VStr url)
      by by destruct url.
    rewrite Hor. intros q v. unfold obj_set.
    destruct (String.eqb p "__proto__"); [apply Hacc|].
    destruct (decide (p = q)) as [<-|Hq].
    + rewrite lookup_insert_eq. intros [= <-]. by exists url.
    + rewrite lookup_insert_ne by done. apply Hacc.
Qed.

Lemma getFileUrl_last_segment opts p build url :
  getFileUrl opts p build = Return url →
  normalizeFileName p ≠ "" →
  url ≠ "" ∧ basename url = normalizeFileName p.
Proof.
  unfold getFileUrl. destruct (remoteUrl opts) as [remote|]; [|done].
  intros [= <-] Hne.
  change (join "/" [?a; ?b; ?c]) with (a +:+ "/" +:+ b +:+ "/" +:+ c).
  split.
  - destruct (chop_slash remote); rewrite ?append_empty, ?append_cons; done.
  - rewrite <- (append_assoc (chop_slash remote)), <- append_assoc.
    apply basename_app; [done|apply normalizeFileName_no_slash].
Qed.

Lemma append_inj_l (a x y : string) : a +:+ x = a +:+ y → x = y.
Proof.
  induction a as [|c a IH]; [done|]. rewrite !append_cons.
  intros [= H]. by apply IH.
Qed.

Lemma replace_whitespace_fixed (s : string) :
  replace_whitespace s = s ↔ has_char is_whitespace s = false.
Proof.
  unfold replace_whitespace. induction s as [|c s IH]; [done|]. simpl.
  destruct (is_whitespace c) eqn:Hc; simpl.
  - split; [|done]. intros [= Hh _]. by rewrite <- Hh in Hc.
  - rewrite <- IH. split; [by intros [= ->]|by intros ->].
Qed.

(** X10: Under a backend that answers every upload with [getFileUrl], a run of
    [publishAssets] that resolves has copied each asset file into the mirror
    under its own base name, while [result.local] names it by its normalized
    name: the entry is the path of the copy within the mirror exactly when
    the base name has no whitespace. *)
Theorem publishAssets_mirror_names {W} (host : Host W) opts build dir
    w s' res :
  answers_getFileUrl host opts build →
  NoDup (map fst (assets build)) →
  local_data opts = Some dir →
  run (publishAssets host opts build) w = (s', Return res) →
  ∃ L, res !! "local" = Some (VObj L)
       ∧ ∀ n p, (n, p) ∈ assets build →
           n ≠ "local" → n ≠ "__proto__" → normalizeFileName p ≠ "" →
           let buildId := getBuildId opts (Some build) true in
           let entry := join "/" [buildId; normalizeFileName p] in
           CallCopyFileSync p (mirrorPath opts dir build p) ∈ snd s'
           ∧ L !! n = Some (VStr entry)
           ∧ (mirrorPath opts dir build p
              = join "/" [join_fields "/" [path opts; dir]; entry]
              ↔ has_char is_whitespace (basename p) = false).
Proof.
  intros Hhost Hnodup Hdir Hrun.
  destruct (assets build) as [|a rest] eqn:Hassets.
  { unfold run, publishAssets in Hrun. by rewrite Hassets in Hrun. }
  rewrite <- Hassets in *.
  rewrite publishAssets_chain in Hrun by (by rewrite Hassets).
  destruct (has_own "hasOwnProperty" (assets build)); [done|].
  destruct (run (publishChain host opts build (assets build)
                   (mkAcc {["local" := VObj ∅]} ∅)) w)
    as [s1 [acc'|e]] eqn:Hchain; [|done].
  injection Hrun as -> <-.
  destruct (publishChain_spec _ _ _ _ _ _ _ _ Hchain Hnodup chain_inv_initial)
    as [_ Hret].
  destruct (Hret acc' eq_refl) as (_ & _ & L0 & L & _ & HL & _ & _ & Hent).
  destruct (publishChain_copies host opts build dir _ Hdir _ _ _ _ Hchain)
    as (cs & Hcs & Hcopies).
  exists L. split; [done|]. intros n p Hin Hlocal Hproto Hne buildId entry.
  destruct (Hent n p Hin) as (u & Hu & Hentries).
  destruct (publishChain_urls host opts build _ Hhost _ _ _ _ Hchain
              ltac:(done) p u Hu) as (url & Hurl & ->).
  destruct (getFileUrl_last_segment _ _ _ _ Hurl Hne) as [Hurl' Hbase].
  specialize (Hentries Hlocal Hproto). unfold asset_entries in Hentries.
  rewrite (truthy_nonempty url Hurl') in Hentries.
  destruct Hentries as (url' & [= <-] & _ & Hentry).
  split; [|split].
  - rewrite Hcs. simpl. by eapply Hcopies.
  - by rewrite Hentry, Hbase.
  - unfold mirrorPath, entry, normalizeFileName.
    change (join "/" [?a; ?b; ?c]) with (a +:+ "/" +:+ b +:+ "/" +:+ c).
    change (join "/" [?a; ?b]) with (a +:+ "/" +:+ b).
    rewrite <- replace_whitespace_fixed. split.
    + intros H. by do 4 apply append_inj_l in H.
    + by intros ->.
Qed.

(** * Properties of the publish command *)

Import Pipeline.

(** ** Inversion of the steps *)

Lemma pbind_inv {W A B} (m : pio W A) (k : A → pio W B) s s' r :
  pbind m k s = (s', r) →
  (∃ s1 a, m s = (s1, Return a) ∧ k a s1 = (s', r))
  ∨ (∃ e, m s = (s', Throw e) ∧ r = Throw e).
Proof.
  unfold pbind. destruct (m s) as [s1 [a|e]]; intros H.
  - left. eauto.
  - right. injection H as <- <-. eauto.
Qed.

Lemma effect_inv {W A} (e : step) (f : W → W * outcome A) s s' r :
  effect e f s = (s', r) →
  f (fst s) = (fst s', r) ∧ snd s' = snd s ++ [e].
Proof.
  unfold effect. destruct (f (fst s)) as [w' r']. by intros [= <- <-].
Qed.

Lemma core_inv {W A} (m : io W A) s s' r :
  core m s = (s', r) →
  ∃ cs, run m (fst s) = ((fst s', cs), r) ∧ snd s' = snd s ++ map Core cs.
Proof.
  unfold core. destruct (run m (fst s)) as [[w' cs] r'].
  intros [= <- <-]. by exists cs.
Qed.

(** ** The archive entries *)

Lemma decimal_hyphen (s : string) :
  has_char is_hyphen s = true → ∀ acc, decimal acc s = None.
Proof.
  induction s as [|c s IH]; [done|]. simpl. intros H acc.
  destruct (NormalizeOptions.is_digit c) eqn:Hc; [|done].
  apply IH. unfold is_hyphen in H at 1.
  destruct (Ascii.eqb_spec c hyphen) as [->|]; [done|done].
Qed.

Lemma array_index_hyphen (key : string) :
  has_char is_hyphen key = true → array_index key = None.
Proof.
  intros H. unfold array_index.
  destruct key as [|c r]; [done|].
  pose proof (decimal_hyphen _ H 0%nat) as Hd.
  repeat case_match; done.
Qed.

Lemma array_get_hyphen (builds : list Build) (key : string) :
  has_char is_hyphen key = true → array_get builds key = Missing.
Proof.
  intros H. unfold array_get. rewrite array_index_hyphen by done.
  destruct (inherited key) eqn:Hinh.
  { apply inherited_no_hyphen in Hinh. congruence. }
  rewrite orb_false_r. revert H. unfold Array_prototype. simpl.
  repeat match goal with
         | |- context [String.eqb key ?n] =>
             destruct (String.eqb_spec key n) as [->|_]; [by intros [=]|]
         end.
  done.
Qed.

(** The build identifier names nothing in the array, so the entries of the
    archive always come from the first build of the command. *)
Lemma compress_assets opts (builds : list Build) build :
  let buildId := getBuildId opts (Some build) true in
  member_assets
    (array_get builds
       (if member_truthy (array_get builds buildId) then buildId else "0"))
  = match builds with
    | first :: _ => Return (assets first)
    | [] => Throw (TypeError "Cannot read properties of undefined")
    end.
Proof.
  intros buildId.
  rewrite (array_get_hyphen builds buildId)
    by apply getBuildId_has_hyphen.
  simpl. by destruct builds.
Qed.

(** ** The steps of a run *)

Lemma compressReleases_inv {W} (backend : Backend W) opts builds build
    s s' archivePath :
  compressReleases backend opts builds build s = (s', Return archivePath) →
  ∃ dir first rest,
    let buildId := getBuildId opts (Some build) true in
    let source := join_fields "/" [path opts; dir] in
    local_data opts = Some dir
    ∧ builds = first :: rest
    ∧ archivePath = join_fields "/" [path opts; Some (buildId +:+ ".tar.gz")]
    ∧ env_compress backend source archivePath
        (archiveEntries buildId (assets first)) (fst s)
      = (fst s', Return tt)
    ∧ snd s' = snd s ++ [Compress source archivePath
                           (archiveEntries buildId (assets first))].
Proof.
  unfold compressReleases, archiveDirectory. intros H.
  destruct (local_data opts) as [dir|] eqn:Hdir.
  2: { by apply pbind_inv in H as [(? & ? & [= _ [=]] & _)|(? & _ & [=])]. }
  apply pbind_inv in H as [(s1 & d & [= <- <-] & H)|(? & _ & [=])].
  rewrite compress_assets in H.
  destruct builds as [|first rest].
  { by apply pbind_inv in H as [(? & ? & [=] & _)|(? & _ & [=])]. }
  apply pbind_inv in H as [(s1 & a & [= <- <-] & H)|(? & _ & [=])].
  apply pbind_inv in H as [(s1 & [] & H1 & [= <- <-])|(? & _ & [=])].
  apply effect_inv in H1 as [H1 Hsteps].
  by exists dir, first, rest.
Qed.

Lemma release_phase_inv {W} (host : Host W) backend build assetsPath
    fields assets0 s s' assets :
  (if strict_eq (of_field (platform build)) (VStr "darwin")
   then publishOsxReleaseFile host backend build assetsPath fields assets0
   else pret assets0) s = (s', Return assets) →
  ∃ steps,
    release_phase host backend build assetsPath fields assets0 (fst s)
      (fst s') steps assets
    ∧ snd s' = snd s ++ steps.
Proof.
  unfold release_phase.
  destruct (strict_eq (of_field (platform build)) (VStr "darwin")).
  - unfold publishOsxReleaseFile.
    destruct assetsPath as [dir|]; [|done]. intros H.
    apply pbind_inv in H as [(s1 & [] & H1 & H)|(? & _ & [=])].
    apply effect_inv in H1 as [H1 Hs1].
    apply pbind_inv in H as [(s2 & url & H2 & [= <- <-])|(? & _ & [=])].
    apply core_inv in H2 as (cs & H2 & Hs2).
    unfold run, uploadFile, perform_outcome in H2. simpl in H2.
    destruct (host_uploadFile host _ build (fst s1)) as [w2 r2] eqn:Hup.
    injection H2 as <- <- ->.
    eexists. split.
    + exists dir, (fst s1), url. split; [done|]. split; [done|].
      split; [done|]. split; [done|]. done.
    + rewrite Hs2, Hs1. by rewrite <- app_assoc.
  - intros [= <- <-]. exists []. by rewrite app_nil_r.
Qed.

(** A run of [publish] that resolves, step by step. *)
Lemma publish_inv {W} (host : Host W) backend opts fetch builds build
    assetsPath fields w s' v :
  prun (publish host backend opts fetch builds build assetsPath fields) w
  = (s', Return v) →
  ∃ w1 w2 cs1 urls0 w3 release urls w4 cs2 pushed dir first rest w5 w6 u,
    let buildId := getBuildId opts (Some build) true in
    let source := join_fields "/" [path opts; dir] in
    let archivePath :=
      join_fields "/" [path opts; Some (buildId +:+ ".tar.gz")] in
    backend_beforeUpload backend build w = (w1, Return tt)
    ∧ run (publishAssets host opts build) w1 = ((w2, cs1), Return urls0)
    ∧ release_phase host backend build assetsPath fields urls0 w2
        w3 release urls
    ∧ run (publishRecord host opts fetch build fields urls) w3
      = ((w4, cs2), Return pushed)
    ∧ local_data opts = Some dir
    ∧ builds = first :: rest
    ∧ env_compress backend source archivePath
        (archiveEntries buildId (assets first)) w4 = (w5, Return tt)
    ∧ backend_uploadReleaseArchive backend archivePath w5 = (w6, Return u)
    ∧ backend_afterUpload backend build w6 = (fst s', Return v)
    ∧ snd s' = BeforeUpload build :: map Core cs1 ++ release
               ++ map Core cs2
               ++ [Compress source archivePath
                     (archiveEntries buildId (assets first));
                   UploadReleaseArchive archivePath;
                   AfterUpload build].
Proof.
  unfold prun, publish. intros H.
  apply pbind_inv in H as [(s1 & [] & H1 & H)|(? & _ & [=])].
  apply effect_inv in H1 as [H1 Hs1].
  apply pbind_inv in H as [(s2 & urls0 & H2 & H)|(? & _ & [=])].
  apply core_inv in H2 as (cs1 & H2 & Hs2).
  apply pbind_inv in H as [(s3 & urls & H3 & H)|(? & _ & [=])].
  apply release_phase_inv in H3 as (release & H3 & Hs3).
  apply pbind_inv in H as [(s4 & pushed & H4 & H)|(? & _ & [=])].
  apply core_inv in H4 as (cs2 & H4 & Hs4).
  apply pbind_inv in H as [(s5 & archivePath & H5 & H)|(? & _ & [=])].
  apply compressReleases_inv in H5
    as (dir & first & rest & Hdir & Hbuilds & -> & H5 & Hs5).
  apply pbind_inv in H as [(s6 & u & H6 & H)|(? & _ & [=])].
  apply effect_inv in H6 as [H6 Hs6].
  apply effect_inv in H as [H7 Hs7].
  exists (fst s1), (fst s2), cs1, urls0, (fst s3), release, urls,
    (fst s4), cs2, pushed, dir, first, rest, (fst s5), (fst s6), u.
  simpl. split; [done|]. split; [done|]. split; [done|]. split; [done|].
  split; [done|]. split; [done|]. split; [done|]. split; [done|].
  split; [done|].
  rewrite Hs7, Hs6, Hs5, Hs4, Hs3, Hs2, Hs1. simpl.
  by rewrite <- !app_assoc.
Qed.

(** Every run of [publish] starts with [beforeUpload] and, when that
    resolves, goes on with the calls of [publishAssets]; it goes further
    only when [publishAssets] resolved. *)
Lemma publish_prefix {W} (host : Host W) backend opts fetch builds build
    assetsPath fields w s' r :
  prun (publish host backend opts fetch builds build assetsPath fields) w
  = (s', r) →
  snd s' = [BeforeUpload build]
  ∨ ∃ w1 s1 r1 more,
      backend_beforeUpload backend build w = (w1, Return tt)
      ∧ run (publishAssets host opts build) w1 = (s1, r1)
      ∧ snd s' = BeforeUpload build :: map Core (snd s1) ++ more
      ∧ ((∃ e, r1 = Throw e) → more = []).
Proof.
  unfold prun, publish. intros H.
  apply pbind_inv in H as [(s1 & [] & H1 & H)|(e & H1 & ->)].
  2: { apply effect_inv in H1 as [_ ->]. by left. }
  apply effect_inv in H1 as [H1 Hs1]. right.
  apply pbind_inv in H as [(s2 & assets0 & H2 & H)|(e & H2 & ->)].
  2: { apply core_inv in H2 as (cs1 & H2 & Hs2).
       exists (fst s1), (fst s', cs1), (Throw e), [].
       rewrite Hs2, Hs1, app_nil_r. done. }
  apply core_inv in H2 as (cs1 & H2 & Hs2).
  assert (Hmore : ∃ more, snd s' = snd s2 ++ more).
  { apply pbind_inv in H as [(s3 & assets & H3 & H)|(e & H3 & ->)].
    2: { destruct (strict_eq _ _); [|done].
         unfold publishOsxReleaseFile in H3.
         destruct assetsPath as [dir|];
           [|injection H3 as <-; exists []; by rewrite app_nil_r].
         apply pbind_inv in H3 as [(s4 & [] & H4 & H3)|(? & H4 & _)].
         2: { apply effect_inv in H4 as [_ ->]. by eexists. }
         apply effect_inv in H4 as [_ Hs4].
         apply pbind_inv in H3 as [(s5 & ? & H5 & [=])|(? & H5 & _)].
         apply core_inv in H5 as (cs & _ & ->). rewrite Hs4.
         rewrite <- ?app_assoc. by eexists. }
    assert (Hs3 : ∃ more, snd s3 = snd s2 ++ more).
    { apply release_phase_inv in H3 as (release & _ & ->). by eexists. }
    destruct Hs3 as [m3 Hs3].
    apply pbind_inv in H as [(s4 & pushed & H4 & H)|(e & H4 & ->)].
    2: { apply core_inv in H4 as (cs & _ & ->). rewrite Hs3.
         rewrite <- ?app_assoc. by eexists. }
    apply core_inv in H4 as (cs2 & _ & Hs4).
    apply pbind_inv in H as [(s5 & archivePath & H5 & H)|(e & H5 & ->)].
    2: { unfold compressReleases in H5.
         apply pbind_inv in H5 as [(? & ? & [= <- _] & H5)|(? & [= <- _] & _)].
         2: { rewrite Hs4, Hs3, <- ?app_assoc. by eexists. }
         apply pbind_inv in H5 as [(? & ? & [= <- _] & H5)|(? & [= <- _] & _)].
         2: { rewrite Hs4, Hs3, <- ?app_assoc. by eexists. }
         apply pbind_inv in H5 as [(? & ? & _ & [=])|(? & H5 & _)].
         apply effect_inv in H5 as [_ ->].
         rewrite Hs4, Hs3, <- ?app_assoc. by eexists. }
    apply compressReleases_inv in H5 as (? & ? & ? & _ & _ & _ & _ & Hs5).
    apply pbind_inv in H as [(s6 & u & H6 & H)|(e & H6 & ->)].
    2: { apply effect_inv in H6 as [_ ->].
         rewrite Hs5, Hs4, Hs3, <- ?app_assoc. by eexists. }
    apply effect_inv in H6 as [_ Hs6].
    apply effect_inv in H as [_ ->].
    rewrite Hs6, Hs5, Hs4, Hs3, <- ?app_assoc. by eexists. }
  destruct Hmore as [more Hmore].
  exists (fst s1), (fst s2, cs1), (Return assets0), more.
  split; [done|]. split; [done|]. split; [|by intros [? [=]]].
  rewrite Hmore, Hs2, Hs1. simpl. by rewrite <- ?app_assoc.
Qed.

Lemma fetchUpdatesJson_calls {W} (host : Host W) opts s s' json :
  fetchUpdatesJson host opts s = (s', Return json) →
  ∃ url, getUpdatesJsonUrl opts = Return url
         ∧ snd s' = snd s ++ [CallHttpGet url].
Proof.
  unfold fetchUpdatesJson. intros H.
  apply bind_inv in H as [(s1 & url & [-> Hurl]%lift_inv & H)|(? & _ & [=])].
  apply bind_inv in H as [(s2 & res & H1 & H)|(? & _ & [=])].
  unfold perform in H1.
  destruct (host_http_get host url (fst s)) as [w' r']. injection H1 as <- <-.
  exists url. split; [done|].
  destruct r' as [err|status body]; [done|].
  destruct (negb (status =? 200)%Z); [by injection H as <- _|].
  destruct (host_JSON_parse host body); by injection H as <- _.
Qed.

(** The calls of the third callback of [publish], with the default fetch. *)
Lemma publishRecord_inv {W} (host : Host W) opts build fields urls
    w s' pushed :
  run (publishRecord host opts (fetchUpdatesJson host opts) build fields urls)
    w = (s', Return pushed) →
  ∃ data dir url fetched json,
    manifestRecord build fields urls = Return data
    ∧ local_data opts = Some dir
    ∧ getUpdatesJsonUrl opts = Return url
    ∧ updateSection opts build (VObj data) fetched = Return json
    ∧ snd s' = [CallAppendFileSync
                  (join "/" [join_fields "/" [path opts; dir];
                             "updates.json"])
                  (host_JSON_stringify host (VObj data));
                CallHttpGet url;
                CallPushUpdatesJson json].
Proof.
  unfold run, publishRecord. intros H.
  apply bind_inv in H as [(s1 & data & [-> Hdata]%lift_inv & H)|(? & _ & [=])].
  apply bind_inv in H as [(s2 & [] & H2 & H)|(? & _ & [=])].
  unfold duplicateUpdatesJson, archiveDirectory in H2.
  destruct (local_data opts) as [dir|] eqn:Hdir.
  2: { by apply bind_inv in H2 as [(? & ? & [=] & _)|(? & _ & [=])]. }
  apply bind_inv in H2 as [(s3 & d & [= <- <-] & H2)|(? & _ & [=])].
  unfold perform_outcome in H2. simpl in H2.
  destruct (host_appendFileSync host _ _ w) as [w2 r2]. injection H2 as <- ->.
  unfold updateUpdatesJson in H.
  apply bind_inv in H as [(s3 & fetched & H3 & H)|(? & _ & [=])].
  apply fetchUpdatesJson_calls in H3 as (url & Hurl & Hs3).
  apply bind_inv in H as [(s4 & json & [-> Hjson]%lift_inv & H)|(? & _ & [=])].
  unfold perform_outcome in H.
  destruct (host_pushUpdatesJson host json (fst s3)) as [w4 r4].
  injection H as <- _.
  exists data, dir, url, fetched, json. simpl. by rewrite Hs3.
Qed.

(** ** What [publishAssets] calls *)

Lemma publishAsset_kinds {W} (host : Host W) opts build n p acc s s' r :
  publishAsset host opts build n p acc s = (s', r) →
  ∃ cs, snd s' = snd s ++ cs
        ∧ Forall (λ c, touches_manifest (Core c) = false) cs.
Proof.
  unfold publishAsset. intros H.
  assert (Hfirst : ∀ s1 (r1 : outcome value),
    (if strict_eq (obj_get (uploaded acc) p) VUndef
     then uploadFile host p build
     else ret (obj_get (uploaded acc) p)) s = (s1, r1) →
    ∃ cs, snd s1 = snd s ++ cs
          ∧ Forall (λ c, touches_manifest (Core c) = false) cs).
  { intros s1 r1 H1. destruct (strict_eq _ _).
    - apply uploadFile_calls in H1. eexists. split; [done|].
      by repeat constructor.
    - injection H1 as <- _. exists []. by rewrite app_nil_r. }
  apply bind_inv in H as [(s1 & f & H1 & H)|(e & H1 & _)];
    [|by eapply Hfirst].
  destruct (Hfirst _ _ H1) as (cs1 & Hs1 & Hcs1).
  assert (Hdup : ∀ s2 (r2 : outcome unit),
    duplicateMetaFiles host opts p build s1 = (s2, r2) →
    ∃ cs, snd s2 = snd s ++ cs
          ∧ Forall (λ c, touches_manifest (Core c) = false) cs).
  { intros s2 r2 H2. destruct (local_data opts) as [dir|] eqn:Hdir.
    - rewrite (duplicateMetaFiles_calls _ _ _ _ _ _ _ _ Hdir H2), Hs1.
      rewrite <- app_assoc. eexists. split; [done|].
      apply Forall_app. split; [done|]. by repeat constructor.
    - rewrite duplicateMetaFiles_no_directory in H2 by done.
      injection H2 as <- _. by exists cs1. }
  apply bind_inv in H as [(s2 & [] & H2 & H)|(e & H2 & _)];
    [|by eapply Hdup].
  apply lift_inv in H as [-> _]. by eapply Hdup.
Qed.

Lemma publishChain_kinds {W} (host : Host W) opts build assets :
  ∀ acc s s' r,
    publishChain host opts build assets acc s = (s', r) →
    ∃ cs, snd s' = snd s ++ cs
          ∧ Forall (λ c, touches_manifest (Core c) = false) cs.
Proof.
  induction assets as [|[n p] rest IH]; intros acc s s' r H.
  - injection H as <- _. exists []. by rewrite app_nil_r.
  - simpl in H.
    apply bind_inv in H as [(s1 & acc1 & H1 & H)|(e & H1 & _)].
    + apply publishAsset_kinds in H1 as (cs1 & Hs1 & Hcs1).
      apply IH in H as (cs & Hs & Hcs).
      exists (cs1 ++ cs). rewrite Hs, Hs1, app_assoc. split; [done|].
      by apply Forall_app.
    + by eapply publishAsset_kinds.
Qed.

Lemma publishAssets_kinds {W} (host : Host W) opts build w s' r :
  run (publishAssets host opts build) w = (s', r) →
  Forall (λ c, touches_manifest (Core c) = false) (snd s').
Proof.
  destruct (assets build) as [|a rest] eqn:Hassets.
  { unfold run, publishAssets. rewrite Hassets. by intros [= <- _]. }
  rewrite publishAssets_chain by (by rewrite Hassets).
  destruct (has_own "hasOwnProperty" _); [by intros [= <- _]|].
  destruct (run (publishChain _ _ _ _ _) w) as [s1 r1] eqn:Hchain.
  intros [= <- _].
  by apply publishChain_kinds in Hchain as (cs & -> & Hcs).
Qed.

Lemma uploads_of_elem p cs :
  (0 < uploads_of p cs)%nat → CallUploadFile p ∈ cs.
Proof.
  unfold uploads_of. induction cs as [|c cs IH]; simpl; [lia|].
  destruct (is_upload_of p c) eqn:Hc.
  - intros _. destruct c; try done. simpl in Hc.
    apply String.eqb_eq in Hc as ->. apply list_elem_of_here.
  - intros H. apply list_elem_of_further. by apply IH.
Qed.

(** A run of [publishAssets] that resolves has uploaded every path once. *)
Lemma publishAssets_uploaded {W} (host : Host W) opts build w s' res :
  NoDup (map fst (assets build)) →
  run (publishAssets host opts build) w = (s', Return res) →
  ∀ n p, (n, p) ∈ assets build → uploads_of p (snd s') = 1%nat.
Proof.
  intros Hnodup Hrun.
  destruct (assets build) as [|a rest] eqn:Hassets.
  { intros n p Hin. by apply elem_of_nil in Hin. }
  rewrite <- Hassets in *.
  rewrite publishAssets_chain in Hrun by (by rewrite Hassets).
  destruct (has_own "hasOwnProperty" (assets build)); [done|].
  destruct (run (publishChain _ _ _ _ _) w) as [s1 [acc'|e]] eqn:Hchain;
    [|done].
  injection Hrun as -> _.
  destruct (publishChain_spec _ _ _ _ _ _ _ _ Hchain Hnodup chain_inv_initial)
    as [_ Hret].
  destruct (Hret acc' eq_refl) as (Hinv & _ & L0 & L & _ & _ & _ & _ & Hent).
  intros n p Hin. destruct (Hent n p Hin) as (u & Hu & _).
  by rewrite (inv_count _ _ Hinv), Hu.
Qed.

Lemma untouched_prefix (front back pre post : list step) (s : step) :
  Forall (λ x, touches_manifest x = false) front →
  touches_manifest s = true →
  front ++ back = pre ++ s :: post →
  ∃ more, pre = front ++ more.
Proof.
  revert pre. induction front as [|x front IH]; intros pre Hfront Hs Heq.
  - by exists pre.
  - apply Forall_cons in Hfront as [Hx Hfront].
    destruct pre as [|y pre]; simpl in Heq.
    + injection Heq as -> _. congruence.
    + injection Heq as -> Heq.
      destruct (IH _ Hfront Hs Heq) as [more ->]. by exists more.
Qed.

(** A run of [publish] ends with [beforeUpload] when that rejects, and with
    the calls of [publishAssets] when that fails. *)
Lemma publish_stops_before_upload {W} (host : Host W) backend opts fetch
    builds build assetsPath fields w w1 e :
  backend_beforeUpload backend build w = (w1, Throw e) →
  prun (publish host backend opts fetch builds build assetsPath fields) w
  = ((w1, [BeforeUpload build]), Throw e).
Proof.
  intros Hbefore. unfold prun, publish. unfold pbind at 1. unfold effect.
  cbn [fst snd]. by rewrite Hbefore.
Qed.

Lemma publish_stops_with_assets {W} (host : Host W) backend opts fetch
    builds build assetsPath fields w w1 s1 e :
  backend_beforeUpload backend build w = (w1, Return tt) →
  run (publishAssets host opts build) w1 = (s1, Throw e) →
  prun (publish host backend opts fetch builds build assetsPath fields) w
  = ((fst s1, BeforeUpload build :: map Core (snd s1)), Throw e).
Proof.
  intros Hbefore Hassets. unfold prun, publish. unfold pbind at 1.
  unfold effect. cbn [fst snd]. rewrite Hbefore. cbn [app].
  unfold pbind at 1. unfold core. cbn [fst snd]. rewrite Hassets.
  by destruct s1.
Qed.

(** ** The order of a run *)

(** X12: In every run of [publish], resolved or not and whatever the backend
    and the fetch do, each asset file of the build has been uploaded before
    the first step that writes the manifest or its mirror copy.  A run in
    which [beforeUpload] rejects, or in which [publishAssets] fails, writes
    neither: it fails with that error, and its steps are [beforeUpload]
    followed by the calls [publishAssets] made, none of which writes the
    manifest or its copy. *)
Theorem publish_manifest_after_uploads {W} (host : Host W) backend opts
    fetch builds build assetsPath fields w s' r :
  NoDup (map fst (assets build)) →
  prun (publish host backend opts fetch builds build assetsPath fields) w
  = (s', r) →
  (∀ pre s post,
     snd s' = pre ++ s :: post →
     touches_manifest s = true →
     ∀ n p, (n, p) ∈ assets build → Core (CallUploadFile p) ∈ pre)
  ∧ (∀ w1 e,
       backend_beforeUpload backend build w = (w1, Throw e) →
       r = Throw e
       ∧ snd s' = [BeforeUpload build])
  ∧ (∀ w1 s1 e,
       backend_beforeUpload backend build w = (w1, Return tt) →
       run (publishAssets host opts build) w1 = (s1, Throw e) →
       r = Throw e
       ∧ snd s' = BeforeUpload build :: map Core (snd s1)
       ∧ Forall (λ x, touches_manifest x = false) (snd s')).
Proof.
  intros Hnodup Hrun. split; [|split].
  - intros pre s post Hsteps Hs n p Hin.
    apply publish_prefix in Hrun
      as [Hone|(w1 & s1 & r1 & more & _ & Hassets & Hs' & Hmore)].
    { rewrite Hone in Hsteps. destruct pre as [|? pre]; simpl in Hsteps.
      - injection Hsteps as <- _. discriminate.
      - injection Hsteps as _ Hsteps. destruct pre; discriminate. }
    assert (Hfront : Forall (λ x, touches_manifest x = false)
                       (BeforeUpload build :: map Core (snd s1))).
    { constructor; [done|]. apply Forall_fmap.
      by apply (publishAssets_kinds _ _ _ _ _ _ Hassets). }
    rewrite Hsteps in Hs'. symmetry in Hs'.
    change (BeforeUpload build :: map Core (snd s1) ++ more)
      with ((BeforeUpload build :: map Core (snd s1)) ++ more) in Hs'.
    destruct (untouched_prefix _ _ _ _ _ Hfront Hs Hs') as [more' ->].
    destruct r1 as [res|e].
    + apply list_elem_of_further, elem_of_app. left.
      apply (list_elem_of_fmap_2 Core).
      apply uploads_of_elem.
      rewrite (publishAssets_uploaded _ _ _ _ _ _ Hnodup Hassets n p Hin).
      lia.
    + rewrite (Hmore ltac:(by eexists)), <- app_assoc in Hs'.
      apply app_inv_head in Hs'. destruct more'; discriminate.
  - intros w1 e Hbefore.
    rewrite (publish_stops_before_upload _ _ _ _ _ _ _ _ _ _ _ Hbefore)
      in Hrun.
    by injection Hrun as <- <-.
  - intros w1 s1 e Hbefore Hassets.
    rewrite (publish_stops_with_assets _ _ _ _ _ _ _ _ _ _ _ _
               Hbefore Hassets) in Hrun.
    injection Hrun as <- <-. cbn [snd]. split; [done|]. split; [done|].
    constructor; [done|]. apply Forall_fmap.
    by apply (publishAssets_kinds _ _ _ _ _ _ Hassets).
Qed.

(** X13: With the default fetch, a run of [publish] that resolves took these
    steps and no other, in this order: [beforeUpload]; the calls of
    [publishAssets], none of which writes the manifest and among which every
    asset file is uploaded exactly once; for a darwin build the writing and
    the upload of [release.json]; the record appended to the mirror copy of
    the manifest; one fetch and one push of the manifest; the archive; its
    upload; [afterUpload]. *)
Theorem publish_resolved_steps {W} (host : Host W) backend opts builds
    build assetsPath fields w s' v :
  NoDup (map fst (assets build)) →
  prun (publish host backend opts (fetchUpdatesJson host opts) builds build
          assetsPath fields) w = (s', Return v) →
  ∃ uploads release data dir url json first,
    let buildId := getBuildId opts (Some build) true in
    let mirror := join_fields "/" [path opts; dir] in
    let archivePath :=
      join_fields "/" [path opts; Some (buildId +:+ ".tar.gz")] in
    snd s'
    = BeforeUpload build :: map Core uploads ++ release
      ++ [Core (CallAppendFileSync (join "/" [mirror; "updates.json"])
                  (host_JSON_stringify host (VObj data)));
          Core (CallHttpGet url);
          Core (CallPushUpdatesJson json);
          Compress mirror archivePath
            (archiveEntries buildId (assets first));
          UploadReleaseArchive archivePath;
          AfterUpload build]
    ∧ (∀ n p, (n, p) ∈ assets build → uploads_of p uploads = 1%nat)
    ∧ Forall (λ c, touches_manifest (Core c) = false) uploads
    ∧ (if strict_eq (of_field (platform build)) (VStr "darwin")
       then ∃ file text, release = [WriteFileSync file text;
                                    Core (CallUploadFile file)]
       else release = [])
    ∧ local_data opts = Some dir
    ∧ getUpdatesJsonUrl opts = Return url
    ∧ head builds = Some first.
Proof.
  intros Hnodup Hrun.
  apply publish_inv in Hrun
    as (w1 & w2 & cs1 & urls0 & w3 & release & urls & w4 & cs2 & pushed
        & dir & first & rest & w5 & w6 & u & _ & Hassets & Hrelease
        & Hrecord & Hdir & -> & _ & _ & _ & Hsteps).
  apply publishRecord_inv in Hrecord
    as (data & dir' & url & fetched & json & _ & Hdir' & Hurl & _ & Hcs2).
  simpl in Hcs2. subst cs2. rewrite Hdir in Hdir'. injection Hdir' as <-.
  exists cs1, release, data, dir, url, json, first. simpl.
  split; [by rewrite Hsteps|].
  split; [apply (publishAssets_uploaded _ _ _ _ _ _ Hnodup Hassets)|].
  split; [apply (publishAssets_kinds _ _ _ _ _ _ Hassets)|].
  split; [|done].
  unfold release_phase in Hrelease. destruct (strict_eq _ _).
  - destruct Hrelease as (? & ? & ? & _ & _ & _ & _ & ->). by eexists _, _.
  - by destruct Hrelease as (_ & -> & _).
Qed.

(** *** Steps before [afterUpload] *)

Lemma effect_early {W A} (e : step) (f : W → W * outcome A) s s' r :
  effect e f s = (s', r) →
  is_afterUpload e = false →
  Forall (λ x, is_afterUpload x = false) (snd s) →
  Forall (λ x, is_afterUpload x = false) (snd s').
Proof.
  intros [_ ->]%effect_inv He Hs. apply Forall_app. by repeat constructor.
Qed.

Lemma core_early {W A} (m : io W A) s s' r :
  core m s = (s', r) →
  Forall (λ x, is_afterUpload x = false) (snd s) →
  Forall (λ x, is_afterUpload x = false) (snd s').
Proof.
  intros (cs & _ & ->)%core_inv Hs. apply Forall_app. split; [done|].
  by apply Forall_fmap, Forall_true.
Qed.

Lemma release_early {W} (host : Host W) backend build assetsPath
    fields assets0 s s' r :
  (if strict_eq (of_field (platform build)) (VStr "darwin")
   then publishOsxReleaseFile host backend build assetsPath fields assets0
   else pret assets0) s = (s', r) →
  Forall (λ x, is_afterUpload x = false) (snd s) →
  Forall (λ x, is_afterUpload x = false) (snd s').
Proof.
  destruct (strict_eq _ _); [|by intros [= <- _]].
  unfold publishOsxReleaseFile.
  destruct assetsPath as [dir|]; [|by intros [= <- _]].
  intros H Hs.
  apply pbind_inv in H as [(s1 & [] & H1 & H)|(? & H1 & _)];
    [|by eapply effect_early; [eassumption|..]].
  apply effect_early in H1; [|done..].
  apply pbind_inv in H as [(s2 & ? & H2 & [= <- _])|(? & H2 & _)];
    by eapply core_early; [eassumption|..].
Qed.

Lemma compress_early {W} (backend : Backend W) opts builds build s s' r :
  compressReleases backend opts builds build s = (s', r) →
  Forall (λ x, is_afterUpload x = false) (snd s) →
  Forall (λ x, is_afterUpload x = false) (snd s').
Proof.
  unfold compressReleases. intros H Hs.
  apply pbind_inv in H as [(? & ? & [= <- _] & H)|(? & [= <- _] & _)];
    [|done].
  apply pbind_inv in H as [(? & ? & [= <- _] & H)|(? & [= <- _] & _)];
    [|done].
  apply pbind_inv in H as [(? & ? & H & [= <- _])|(? & H & _)];
    by eapply effect_early; [eassumption|..].
Qed.

(** [afterUpload] is reached only after [uploadReleaseArchive] resolved. *)
Lemma publish_early {W} (host : Host W) backend opts fetch builds build
    assetsPath fields w s' r :
  prun (publish host backend opts fetch builds build assetsPath fields) w
  = (s', r) →
  Forall (λ x, is_afterUpload x = false) (snd s')
  ∨ ∃ filePath w5 w6 u,
      backend_uploadReleaseArchive backend filePath w5 = (w6, Return u).
Proof.
  unfold prun, publish. intros H.
  apply pbind_inv in H as [(s1 & [] & H1 & H)|(? & H1 & _)].
  2: { left. by eapply effect_early; [eassumption|..]. }
  apply effect_early in H1; [|by constructor..].
  apply pbind_inv in H as [(s2 & ? & H2 & H)|(? & H2 & _)].
  2: { left. by eapply core_early; [eassumption|..]. }
  apply core_early in H2; [|done].
  apply pbind_inv in H as [(s3 & ? & H3 & H)|(? & H3 & _)].
  2: { left. by eapply release_early; [eassumption|..]. }
  apply release_early in H3; [|done].
  apply pbind_inv in H as [(s4 & ? & H4 & H)|(? & H4 & _)].
  2: { left. by eapply core_early; [eassumption|..]. }
  apply core_early in H4; [|done].
  apply pbind_inv in H as [(s5 & ? & H5 & H)|(? & H5 & _)].
  2: { left. by eapply compress_early; [eassumption|..]. }
  apply compress_early in H5; [|done].
  apply pbind_inv in H as [(s6 & ? & H6 & H)|(? & H6 & _)].
  2: { left. by eapply effect_early; [eassumption|..]. }
  right. apply effect_inv in H6 as [H6 _]. by eexists _, _, _, _.
Qed.

(** X14: A transport that inherits [uploadReleaseArchive] from
    [AbstractTransport] never completes a publish: whatever the rest of the
    backend does, the run ends in an error and [afterUpload] is not
    called. *)
Theorem publish_inherited_uploadReleaseArchive {W} (host : Host W) backend
    opts fetch builds build assetsPath fields w :
  (∀ filePath w, backend_uploadReleaseArchive backend filePath w
                 = uploadReleaseArchive filePath w) →
  let r := prun (publish host backend opts fetch builds build assetsPath
                   fields) w in
  (∃ e, snd r = Throw e) ∧ AfterUpload build ∉ steps_of r.
Proof.
  intros Habstract r. subst r.
  destruct (prun _ w) as [s' r] eqn:Hrun. unfold steps_of. simpl.
  apply publish_early in Hrun as Hearly.
  destruct Hearly as [Hearly|(? & ? & ? & ? & Hupload)];
    [|by rewrite Habstract in Hupload].
  split.
  - destruct r as [v|e]; [|by exists e].
    apply publish_inv in Hrun
      as (? & ? & ? & ? & ? & ? & ? & ? & ? & ? & ? & ? & ? & ? & ? & ?
          & _ & _ & _ & _ & _ & _ & _ & Hupload & _).
    by rewrite Habstract in Hupload.
  - intros Hin. by apply (proj1 (Forall_forall _ _) Hearly) in Hin.
Qed.

(** ** The release file of a darwin build *)

Lemma manifestRecord_urls build fields urls data :
  manifestRecord build fields urls = Return data →
  strict_eq (of_field (platform build)) (VStr "win32") = false →
  data !! "update" = Some (obj_get urls "update")
  ∧ data !! "install" = Some (obj_get urls "install").
Proof.
  unfold manifestRecord. intros H Hplatform. rewrite Hplatform in H.
  destruct (get_prop _ "update") as [lu|]; [|done].
  destruct (get_prop _ "install") as [li|]; [|done].
  injection H as <-.
  split; (apply assign_lookup_right; [done|]).
  - apply lookup_insert_eq.
  - rewrite !lookup_insert_ne by done. apply lookup_insert_eq.
Qed.

(** X15: For a darwin build, a run that resolves (with the default fetch) has
    written [release.json] into [build.assetsPath] with the URL of the
    [update] asset in its [url] field, has uploaded it next, and has then
    recorded a manifest entry whose [update] is what that upload returned,
    while [install] is still the URL of the [install] asset. *)
Theorem publish_darwin_release {W} (host : Host W) backend opts builds
    build assetsPath fields w s' v :
  platform build = Some "darwin" →
  prun (publish host backend opts (fetchUpdatesJson host opts) builds build
          assetsPath fields) w = (s', Return v) →
  ∃ dir urls0 pub_date releaseUrl data mirrored before after,
    let file := env_path_join backend dir "release.json" in
    let release := releaseData fields urls0 pub_date in
    assetsPath = Some dir
    ∧ (∃ w1 s1, run (publishAssets host opts build) w1
                = (s1, Return urls0))
    ∧ release !! "url" = Some (obj_get urls0 "update")
    ∧ snd s' = before
               ++ [WriteFileSync file
                     (host_JSON_stringify host (VObj release));
                   Core (CallUploadFile file);
                   Core (CallAppendFileSync mirrored
                           (host_JSON_stringify host (VObj data)))]
               ++ after
    ∧ (∃ w2, snd (host_uploadFile host file build w2) = Return releaseUrl)
    ∧ data !! "update" = Some releaseUrl
    ∧ data !! "install" = Some (obj_get urls0 "install").
Proof.
  intros Hdarwin Hrun.
  apply publish_inv in Hrun
    as (w1 & w2 & cs1 & urls0 & w3 & release & urls & w4 & cs2 & pushed
        & dir & first & rest & w5 & w6 & u & _ & Hassets & Hrelease
        & Hrecord & Hdir & -> & _ & _ & _ & Hsteps).
  apply publishRecord_inv in Hrecord
    as (data & dir' & url & fetched & json & Hdata & _ & _ & _ & Hcs2).
  simpl in Hcs2. subst cs2.
  unfold release_phase in Hrelease. rewrite Hdarwin in Hrelease.
  simpl in Hrelease.
  destruct Hrelease
    as (adir & written & releaseUrl & -> & _ & Hupload & -> & ->).
  apply manifestRecord_urls in Hdata as [Hupdate Hinstall];
    [|by rewrite Hdarwin].
  rewrite obj_set_insert in Hupdate, Hinstall by done.
  unfold obj_get in Hupdate at 1. rewrite lookup_insert_eq in Hupdate.
  unfold obj_get in Hinstall at 1.
  rewrite lookup_insert_ne in Hinstall by done.
  eexists adir, urls0, _, releaseUrl, data, _,
    (BeforeUpload build :: map Core cs1), _.
  simpl. split; [done|]. split; [by eexists _, _|].
  split; [done|]. split; [by rewrite Hsteps|].
  split; [exists written; by rewrite Hupload|]. done.
Qed.

(** ** The archive and the mirror *)

(** X16: A run that resolves (with the default fetch) has asked for an archive
    of the mirror directory whose entries are computed from the first build
    of the command; when that build has the assets of the build being
    published, every entry names a file that an earlier step of the run
    wrote into the mirror: the copy of an asset, or the mirror copy of the
    manifest. *)
Theorem publish_archive_entries {W} (host : Host W) backend opts builds
    build assetsPath fields w s' v :
  prun (publish host backend opts (fetchUpdatesJson host opts) builds build
          assetsPath fields) w = (s', Return v) →
  ∃ dir first before after,
    let buildId := getBuildId opts (Some build) true in
    let mirror := join_fields "/" [path opts; dir] in
    let entries := archiveEntries buildId (assets first) in
    local_data opts = Some dir
    ∧ head builds = Some first
    ∧ snd s' = before
               ++ Compress mirror
                    (join_fields "/" [path opts;
                                      Some (buildId +:+ ".tar.gz")])
                    entries
               :: after
    ∧ (assets first = assets build →
       ∀ entry, entry ∈ entries →
         ∃ c, Core c ∈ before ∧ writes (join "/" [mirror; entry]) c).
Proof.
  intros Hrun.
  apply publish_inv in Hrun
    as (w1 & w2 & cs1 & urls0 & w3 & release & urls & w4 & cs2 & pushed
        & dir & first & rest & w5 & w6 & u & _ & Hassets & _
        & Hrecord & Hdir & -> & _ & _ & _ & Hsteps).
  apply publishRecord_inv in Hrecord
    as (data & dir' & url & fetched & json & _ & Hdir' & _ & _ & Hcs2).
  simpl in Hcs2. subst cs2. rewrite Hdir in Hdir'. injection Hdir' as <-.
  eexists dir, first,
    (BeforeUpload build :: map Core cs1 ++ release
     ++ map Core [CallAppendFileSync
                    (join "/" [join_fields "/" [path opts; dir];
                               "updates.json"])
                    (host_JSON_stringify host (VObj data));
                  CallHttpGet url; CallPushUpdatesJson json]),
    _.
  simpl. split; [done|]. split; [done|].
  split; [rewrite Hsteps; simpl; by rewrite <- !app_assoc|].
  intros Hsame entry Hentry.
  unfold archiveEntries in Hentry. rewrite Hsame in Hentry.
  apply elem_of_app in Hentry as [Hentry|Hentry].
  - apply list_elem_of_fmap in Hentry as ([n p] & -> & Hin). simpl.
    destruct (assets build) as [|a l] eqn:Hne; [by apply elem_of_nil in Hin|].
    rewrite <- Hne in *.
    rewrite publishAssets_chain in Hassets by (by rewrite Hne).
    destruct (has_own "hasOwnProperty" (assets build)); [done|].
    destruct (run (publishChain _ _ _ _ _) w1) as [s1 [acc'|e]] eqn:Hchain;
      [|done].
    injection Hassets as -> _.
    destruct (publishChain_copies host opts build dir _ Hdir _ _ _ _ Hchain)
      as (cs & Hcs & Hcopies).
    exists (CallCopyFileSync p (mirrorPath opts dir build p)).
    split.
    + apply list_elem_of_further, elem_of_app. left.
      apply (list_elem_of_fmap_2 Core). simpl in Hcs. rewrite Hcs.
      by eapply Hcopies.
    + unfold writes, mirrorPath. reflexivity.
  - apply list_elem_of_singleton in Hentry as ->.
    exists (CallAppendFileSync
              (join "/" [join_fields "/" [path opts; dir]; "updates.json"])
              (host_JSON_stringify host (VObj data))).
    split; [|reflexivity].
    apply list_elem_of_further, elem_of_app. right.
    apply elem_of_app. right. apply list_elem_of_here.
Qed.

(** * Properties of the builds of a command *)

Import TransformBuilds.

Lemma normalizeBuild_remove build options :
  is_remove options = true →
  ∃ b, normalizeBuild build options = Return b.
Proof.
  intros Hremove. unfold normalizeBuild. rewrite Hremove.
  rewrite andb_false_r. by eexists.
Qed.

Lemma normalizeBuild_versioned build options b :
  is_remove options = false →
  normalizeBuild build options = Return b →
  truthy_field (version b) = true.
Proof.
  intros Hremove. unfold normalizeBuild. rewrite Hremove.
  rewrite andb_true_r. simpl version at 1.
  destruct (truthy_field (stripPrefix _)) eqn:Hv; [|done].
  by intros [= <-].
Qed.

Lemma normalizeBuilds_remove builds options :
  is_remove options = true →
  ∃ bs, normalizeBuilds builds options = Return bs
        ∧ length bs = length builds.
Proof.
  intros Hremove. induction builds as [|b rest (bs & IH & Hlen)];
    [by exists []|].
  destruct (normalizeBuild_remove b options Hremove) as [b' Hb].
  exists (b' :: bs). simpl. by rewrite Hb, IH, Hlen.
Qed.

Lemma normalizeBuilds_versioned builds options bs :
  is_remove options = false →
  normalizeBuilds builds options = Return bs →
  length bs = length builds
  ∧ Forall (λ b, truthy_field (version b) = true) bs.
Proof.
  intros Hremove. revert bs.
  induction builds as [|b rest IH]; intros bs; simpl.
  - by intros [= <-].
  - destruct (normalizeBuild b options) as [b'|] eqn:Hb; [|done].
    destruct (normalizeBuilds rest options) as [rest'|]; [|done].
    intros [= <-]. destruct (IH rest' eq_refl) as [Hlen Hall].
    split; [simpl; by rewrite Hlen|].
    constructor; [|done].
    by eapply normalizeBuild_versioned.
Qed.

(** X17: For every command but [remove], [transformBuilds] returns only with at
    least one build, each with a version that is set and not empty, and
    leaves the other options as they were; with no build given, the one
    build is made of the platform, arch, channel and version of the
    options, taken as they are. *)
Theorem transformBuilds_versions getAvailableBuilds given options options' :
  is_remove options = false →
  transformBuilds getAvailableBuilds given options = Return options' →
  builds options' ≠ []
  ∧ Forall (λ b, truthy_field (version b) = true) (builds options')
  ∧ options' = with_builds options (builds options')
  ∧ (default [] given = [] →
     builds options'
     = [mkBuild (options_platform options) (options_arch options)
                (options_channel options) (options_version options) []]).
Proof.
  intros Hremove. unfold transformBuilds.
  set (todo := match default [] given with
               | BuildString first :: _ => _
               | _ => _
               end).
  destruct (normalizeBuilds todo options) as [bs|] eqn:Hbs; [|done].
  apply normalizeBuilds_versioned in Hbs as [Hlen Hall]; [|done].
  change (is_remove (with_builds options bs)) with (is_remove options).
  rewrite Hremove.
  destruct (Nat.eqb_spec (length bs) 0) as [Hempty|Hsome].
  - simpl. destruct (truthy_field (options_version options)) eqn:Hv; [|done].
    simpl. intros [= <-]. simpl. split; [done|].
    split; [by repeat constructor|]. done.
  - intros [= <-]. simpl. split; [by destruct bs|]. split; [done|].
    split; [done|]. intros Hgiven. subst todo. rewrite Hgiven in Hlen.
    simpl in Hlen. done.
Qed.

(** X18: For the [remove] command [transformBuilds] never throws and returns as
    many builds as were given, so the validation that follows refuses the
    command exactly when no build was given or one of the builds read is
    not a full identifier. *)
Theorem transformBuilds_remove getAvailableBuilds given options :
  is_remove options = true →
  ∃ options',
    transformBuilds getAvailableBuilds given options = Return options'
    ∧ ((∃ e, validateIfRemoveCommand options' = Throw e)
       ↔ builds options' = []
         ∨ ∃ b, b ∈ builds options' ∧ invalidBuild b = true)
    ∧ (default [] given = [] →
       validateIfRemoveCommand options'
       = Throw (Error "You should specify one or more builds to remove.")).
Proof.
  intros Hremove. unfold transformBuilds.
  set (todo := match default [] given with
               | BuildString first :: _ => _
               | _ => _
               end).
  destruct (normalizeBuilds_remove todo options Hremove)
    as (bs & -> & Hlen).
  change (is_remove (with_builds options bs)) with (is_remove options).
  rewrite Hremove. eexists. split; [done|].
  unfold validateIfRemoveCommand.
  change (is_remove (with_builds options bs)) with (is_remove options).
  rewrite Hremove. simpl.
  split.
  - destruct (Nat.eqb_spec (length bs) 0) as [Hempty|Hsome].
    { apply nil_length_inv in Hempty as ->. split; [by left|by eexists]. }
    destruct (List.filter invalidBuild bs) as [|x xs] eqn:Hfilter; simpl.
    + split; [by intros [? [=]]|]. intros [->|(y & Hy & Hinvalid)]; [done|].
      assert (Hin : List.In y (List.filter invalidBuild bs)).
      { apply List.filter_In. split; [|done]. by apply list_elem_of_In. }
      by rewrite Hfilter in Hin.
    + split; [|by eexists]. intros _. right. exists x.
      assert (Hin : List.In x (List.filter invalidBuild bs))
        by (rewrite Hfilter; by left).
      apply List.filter_In in Hin as [Hin Hx].
      split; [by apply list_elem_of_In|done].
  - intros Hgiven. subst todo. rewrite Hgiven in Hlen.
    by destruct bs.
Qed.

(** * Properties of the sources of the options *)

Import ApplyOptions.

Lemma assign_lookup (a b : gmap string value) k :
  k ≠ "__proto__" → assign a b !! k = (b ∪ a) !! k.
Proof.
  intros Hk. unfold assign.
  rewrite !lookup_union, !lookup_delete_ne by done.
  by destruct (b !! k), (a !! k).
Qed.

(** X19: Who sets an option: for every key but [transport], [fields],
    [packageJson] and [__proto__], the value after the four sources were
    applied is the one of the first that has the key as an own property
    among the options given, the file of the publisher, the values read
    from [package.json], the platform and arch of the process and the
    defaults, in this order; a key the options hold with the value
    [undefined] therefore hides every other source. *)
Theorem applySources_precedence
    (options configJson packageJson final : gmap string value)
    platform arch (k : string) :
  applySources options configJson packageJson platform arch = Return final →
  k ≠ "transport" → k ≠ "fields" → k ≠ "packageJson" → k ≠ "__proto__" →
  ∃ values,
    packageValues packageJson = Return values
    ∧ final !! k
      = (options ∪ configJson ∪ values
         ∪ {[ "platform" := platform; "arch" := arch ]}
         ∪ {[ "channel" := VStr "prod"; "path" := VStr "dist" ]}) !! k.
Proof.
  unfold applySources, applyPackageJson. intros H Ht Hf Hp Hproto.
  destruct (packageValues packageJson) as [values|]; [|done].
  injection H as <-. exists values. split; [done|].
  assert (Hconfig : applyConfigJson options configJson !! k
                    = (options ∪ configJson) !! k).
  { unfold applyConfigJson. rewrite assign_lookup by done.
    rewrite !lookup_union, !obj_set_insert by done.
    rewrite (lookup_insert_ne _ "fields"), (lookup_insert_ne _ "transport")
      by done.
    destruct (String.eqb _ "string"); [|done].
    by rewrite (lookup_insert_ne _ "transport") by done. }
  unfold applyDefaults, applyPlatformDefaults.
  rewrite assign_lookup, lookup_union by done.
  rewrite assign_lookup, lookup_union by done.
  rewrite assign_lookup, lookup_union by done.
  rewrite obj_set_insert, (lookup_insert_ne _ "packageJson"), Hconfig
    by done.
  by rewrite !lookup_union.
Qed.

(** ** A transport named by a string *)

Lemma pretty_N_go_digit (x : N) (s : string) :
  starts_with_digit s = true → starts_with_digit (pretty_N_go x s) = true.
Proof.
  revert s. induction (N.lt_wf_0 x) as [x _ IH]; intros s Hs.
  assert (x = 0 ∨ 0 < x)%N as [->|Hx] by lia.
  - by rewrite pretty_N_go_0.
  - rewrite pretty_N_go_step by done. apply IH.
    { by apply N.div_lt. }
    unfold pretty_N_char. by repeat case_match.
Qed.

Lemma pretty_nat_digit (n : nat) : starts_with_digit (pretty n) = true.
Proof.
  unfold pretty, pretty_nat, pretty, pretty_N.
  case_decide; [done|].
  assert (0 < N.of_nat n)%N as Hpos by lia.
  rewrite pretty_N_go_step by done. apply pretty_N_go_digit.
  unfold pretty_N_char. by repeat case_match.
Qed.

Lemma characters_lookup (s : string) :
  ∀ i j c, String.get j s = Some c →
           characters i s !! pretty (i + j)%nat = Some (VStr (String c "")).
Proof.
  induction s as [|a s IH]; intros i [|j] c; simpl; try done.
  - intros [= <-]. rewrite Nat.add_0_r. apply lookup_insert_eq.
  - intros Hget. rewrite lookup_insert_ne.
    + rewrite <- Nat.add_succ_comm. by apply IH.
    + intros Heq. apply (inj pretty) in Heq. lia.
Qed.

Lemma characters_other (s : string) (k : string) :
  starts_with_digit k = false → ∀ i, characters i s !! k = None.
Proof.
  intros Hk. induction s as [|a s IH]; intros i; simpl; [done|].
  rewrite lookup_insert_ne; [apply IH|].
  intros <-. by rewrite pretty_nat_digit in Hk.
Qed.

(** X20: A transport named by a string in the file of the publisher becomes the
    object [{name}]; named by a string in the options given, it is instead
    copied character by character, under the keys [0], [1], ..., and no
    [name] or [module] comes of it. *)
Theorem applyConfigJson_string_transport
    (options configJson : gmap string value) (name : string) :
  (configJson !! "transport" = Some (VStr name) →
   options !! "transport" = None →
   applyConfigJson options configJson !! "transport"
   = Some (VObj {["name" := VStr name]}))
  ∧ (options !! "transport" = Some (VStr name) →
     configJson !! "transport" = None →
     ∃ t, applyConfigJson options configJson !! "transport" = Some (VObj t)
          ∧ (∀ i c, String.get i name = Some c →
                    t !! pretty i = Some (VStr (String c "")))
          ∧ t !! "name" = None
          ∧ t !! "module" = None).
Proof.
  assert (Hlookup : ∀ v,
    applyConfigJson options configJson !! "transport"
    = Some v
    ↔ v = VObj (assign_values
                  (obj_get
                     (if String.eqb
                           (type_of (obj_get configJson "transport"))
                           "string"
                      then obj_set "transport"
                             (VObj {["name" :=
                                       obj_get configJson "transport"]})
                             configJson
                      else configJson) "transport")
                  (obj_get options "transport"))).
  { intros v. unfold applyConfigJson.
    rewrite assign_lookup, lookup_union by done.
    rewrite !obj_set_insert by done.
    rewrite (lookup_insert_ne _ "fields"), lookup_insert_eq by done.
    rewrite union_Some_l. split; [by intros [= <-]|by intros ->]. }
  split.
  - intros Hconfig Hoptions. apply Hlookup.
    unfold obj_get at 2 3. rewrite Hconfig. simpl.
    rewrite obj_set_insert by done. unfold obj_get.
    rewrite lookup_insert_eq, Hoptions. simpl.
    unfold assign_values, assign. simpl.
    rewrite delete_empty, (left_id ∅ (∪)).
    by rewrite delete_singleton_ne.
  - intros Hoptions Hconfig.
    eexists. split; [by apply Hlookup|].
    unfold obj_get. rewrite Hconfig, Hoptions. simpl. rewrite Hconfig.
    simpl. unfold assign_values, assign. simpl.
    rewrite delete_empty, (right_id ∅ (∪)).
    rewrite delete_id by by apply characters_other.
    split; [|by split; apply characters_other].
    intros i c Hget. rewrite lookup_union, lookup_empty.
    change (pretty i) with (pretty (0 + i)%nat).
    by rewrite (characters_lookup name 0 i c Hget).
Qed.

(** ** The remove command and the identifiers it is given *)

Lemma matches_word_nonempty (s : string) : matches_word s = true → s ≠ "".
Proof. by destruct s. Qed.

Lemma matches_semver_nonempty (s : string) :
  matches_semver s = true → s ≠ "".
Proof. by destruct s. Qed.

(** X9: The remove command accepts the identifier [getBuildId] writes for a
    build whose platform, arch and channel have a word character and no
    hyphen and whose version has a [digits.digits.digits] part and no
    hyphen: the identifier is read back as that build, and the validation
    passes. *)
Theorem remove_accepts_written_identifier getAvailableBuilds opts options
    (p a c v : string) files :
  is_remove options = true →
  has_char is_hyphen p = false →
  has_char is_hyphen a = false →
  has_char is_hyphen c = false →
  has_char is_hyphen v = false →
  matches_word p = true →
  matches_word a = true →
  matches_word c = true →
  matches_semver v = true →
  let build := mkBuild (Some p) (Some a) (Some c) (Some v) files in
  ∃ options',
    transformBuilds getAvailableBuilds
      (Some [BuildString (getBuildId opts (Some build) true)]) options
    = Return options'
    ∧ builds options' = [mkBuild (Some p) (Some a) (Some c) (Some v) []]
    ∧ validateIfRemoveCommand options' = Return tt.
Proof.
  intros Hremove Hp Ha Hc Hv Hwp Hwa Hwc Hsv build. subst build.
  unfold transformBuilds. cbn [default from_option id].
  set (build := mkBuild (Some p) (Some a) (Some c) (Some v) files).
  assert (Hall : String.eqb (getBuildId opts (Some build) true) "all"
                 = false).
  { apply String.eqb_neq. intros Heq.
    pose proof (getBuildId_has_hyphen opts (Some build) true) as Hh.
    by rewrite Heq in Hh. }
  rewrite Hall. cbn [normalizeBuilds]. subst build.
  rewrite (normalizeBuild_getBuildId opts options p a c v files)
    by (done || by left).
  change (is_remove (with_builds options ?bs)) with (is_remove options).
  rewrite Hremove. eexists. split; [done|]. split; [done|].
  unfold validateIfRemoveCommand.
  change (is_remove (with_builds options ?bs)) with (is_remove options).
  rewrite Hremove. simpl.
  unfold invalidBuild. simpl. rewrite Hwp, Hwa, Hwc, Hsv.
  apply matches_word_nonempty in Hwp, Hwa, Hwc.
  apply matches_semver_nonempty in Hsv.
  by destruct p, a, c, v.
Qed.

Lemma remove_accepts_written_identifier_witness :
  let build :=
    mkBuild (Some "darwin") (Some "x64") (Some "prod") (Some "9.9.9") [] in
  ∃ options',
    transformBuilds (λ _, [])
      (Some [BuildString
               (getBuildId Backends.exampleOptions (Some build) true)])
      Backends.removeOptions
    = Return options'
    ∧ builds options'
      = [mkBuild (Some "darwin") (Some "x64") (Some "prod")
                 (Some "9.9.9") []]
    ∧ validateIfRemoveCommand options' = Return tt.
Proof.
  apply (remove_accepts_written_identifier (λ _, [])
           Backends.exampleOptions Backends.removeOptions
           "darwin" "x64" "prod" "9.9.9" []); reflexivity.
Defined.

(** ** Publishing without a mirror directory *)

(** X11: When the options have no ['local-data'] object, [publishAssets] of a
    build with assets never resolves.  With an own asset called
    [hasOwnProperty] the guard of the loop throws before anything is called.
    Otherwise the first asset decides: when its path is a name every object
    inherits ([toString], [constructor], ...), the cache lookup finds the
    inherited value, nothing is uploaded, and reading the mirror directory
    throws; for any other path that one file is uploaded, the run fails with
    the error of the upload when it rejects and with the TypeError of reading
    the mirror directory when it resolves.  Nothing else is called. *)
Theorem publishAssets_without_local_data {W} (host : Host W) opts build
    n p rest w :
  local_data opts = None →
  assets build = (n, p) :: rest →
  run (publishAssets host opts build) w
  = if has_own "hasOwnProperty" (assets build)
    then ((w, []), Throw (TypeError "assets.hasOwnProperty is not a function"))
    else if inherited p
    then ((w, []), Throw (TypeError "Cannot read properties of undefined"))
    else (let '(w', r) := host_uploadFile host p build w in
          ((w', [CallUploadFile p]),
           match r with
           | Return _ =>
               Throw (TypeError "Cannot read properties of undefined")
           | Throw e => Throw e
           end)).
Proof.
  intros Hdir Hassets.
  rewrite publishAssets_chain by (by rewrite Hassets).
  destruct (has_own "hasOwnProperty" (assets build)); [done|].
  rewrite Hassets. unfold run. simpl publishChain.
  unfold IO.bind at 1. unfold publishAsset. unfold IO.bind at 1.
  cbn [uploaded]. unfold obj_get. rewrite lookup_empty.
  destruct (inherited p) eqn:Hp; simpl.
  - unfold IO.bind. by rewrite duplicateMetaFiles_no_directory.
  - unfold uploadFile, perform_outcome. simpl.
    destruct (host_uploadFile host p build w) as [w' [url|e]]; [|done].
    unfold IO.bind. by rewrite duplicateMetaFiles_no_directory.
Qed.

(** The win32 build of the scenario, with options that lack the mirror:
    the installer is uploaded and the run fails. *)
Lemma publishAssets_without_local_data_witness :
  let opts :=
    mkTransportOptions (mkBuild None None None None [])
      (Some "http://cdn.example/updates.json") (Some "http://cdn.example")
      (Some "dist") None in
  run (publishAssets (Backends.keyedHost "k") opts Backends.exampleBuild) tt
  = ((tt, [CallUploadFile "./Setup.exe"]),
     Throw (TypeError "Cannot read properties of undefined")).
Proof.
  intros opts.
  rewrite (publishAssets_without_local_data (Backends.keyedHost "k") opts
             Backends.exampleBuild "install" "./Setup.exe"
             [("update", "./Setup.exe"); ("metaFile", "./RELEASES")] tt).
  - reflexivity.
  - reflexivity.
  - reflexivity.
Defined.

(** * Concrete runs *)

(** The identifier of the darwin build of the removal scenario. *)
Lemma getBuildId_round_trip_witness :
  let build :=
    mkBuild (Some "darwin") (Some "x64") (Some "prod") (Some "9.9.9") [] in
  let read :=
    Return (mkBuild (Some "darwin") (Some "x64") (Some "prod")
                    (Some "9.9.9") []) in
  normalizeBuild
    (BuildString (getBuildId Backends.exampleOptions (Some build) true))
    Backends.removeOptions = read
  ∧ ∀ rest,
      normalizeBuild
        (BuildString (getBuildId Backends.exampleOptions (Some build) true
                      +:+ "-" +:+ rest))
        Backends.removeOptions = read.
Proof.
  apply (getBuildId_round_trip Backends.exampleOptions
           Backends.removeOptions "darwin" "x64" "prod" "9.9.9" []).
  - reflexivity.
  - reflexivity.
  - reflexivity.
  - reflexivity.
  - left. reflexivity.
Defined.

(** The darwin build, whose installer has a blank in its name, on the
    mirror backend. *)
Lemma publishAssets_mirror_names_witness :
  ∃ s' res,
    run (publishAssets (Backends.mirrorHost Backends.exampleOptions)
           Backends.exampleOptions Fixtures.macBuild) (VObj ∅)
    = (s', Return res)
    ∧ ∃ L, res !! "local" = Some (VObj L)
           ∧ ∀ n p, (n, p) ∈ assets Fixtures.macBuild →
               n ≠ "local" → n ≠ "__proto__" → normalizeFileName p ≠ "" →
               let buildId :=
                 getBuildId Backends.exampleOptions
                   (Some Fixtures.macBuild) true in
               let entry := join "/" [buildId; normalizeFileName p] in
               CallCopyFileSync p
                 (mirrorPath Backends.exampleOptions (Some "archive")
                    Fixtures.macBuild p) ∈ snd s'
               ∧ L !! n = Some (VStr entry)
               ∧ (mirrorPath Backends.exampleOptions (Some "archive")
                    Fixtures.macBuild p
                  = join "/" [join_fields "/"
                                [path Backends.exampleOptions;
                                 Some "archive"]; entry]
                  ↔ has_char is_whitespace (basename p) = false).
Proof.
  eexists _, _. split; [vm_compute; reflexivity|].
  apply (publishAssets_mirror_names
           (Backends.mirrorHost Backends.exampleOptions)
           Backends.exampleOptions Fixtures.macBuild (Some "archive")
           (VObj ∅)).
  - intros p w. reflexivity.
  - compute_done.
  - reflexivity.
  - vm_compute. reflexivity.
Defined.

(** The win32 build of the scenario: the mirror copy of the manifest is the
    thirteenth step, and [RELEASES] was uploaded before it.  With options
    that lack the mirror the run fails after the first upload, before any
    writing. *)
Lemma publish_manifest_after_uploads_witness :
  let host := Backends.mirrorHost Backends.exampleOptions in
  let bare :=
    mkTransportOptions (mkBuild None None None None [])
      (Some "http://cdn.example/updates.json") (Some "http://cdn.example")
      (Some "dist") None in
  let r := prun (publish host Fixtures.plainBackend Backends.exampleOptions
                   Backends.mirrorFetch [Backends.exampleBuild]
                   Backends.exampleBuild None ∅) (VObj ∅) in
  let failed := prun (publish host Fixtures.plainBackend bare
                        Backends.mirrorFetch [Backends.exampleBuild]
                        Backends.exampleBuild None ∅) (VObj ∅) in
  Core (CallUploadFile "./RELEASES") ∈ firstn 12 (steps_of r)
  ∧ snd failed = Throw (TypeError "Cannot read properties of undefined")
  ∧ steps_of failed = [BeforeUpload Backends.exampleBuild;
                       Core (CallUploadFile "./Setup.exe")]
  ∧ Forall (λ x, touches_manifest x = false) (steps_of failed).
Proof.
  intros host bare r failed. split.
  - apply (proj1 (publish_manifest_after_uploads host
                    Fixtures.plainBackend Backends.exampleOptions
                    Backends.mirrorFetch [Backends.exampleBuild]
                    Backends.exampleBuild None ∅ (VObj ∅) (fst r) (snd r)
                    ltac:(compute_done) ltac:(vm_compute; reflexivity))
             (firstn 12 (steps_of r))
             (Core (CallAppendFileSync "dist/archive/updates.json" ""))
             (skipn 13 (steps_of r))
             ltac:(vm_compute; reflexivity) ltac:(reflexivity)
             "metaFile" "./RELEASES").
    vm_compute. set_solver.
  - edestruct (proj2 (proj2 (publish_manifest_after_uploads host
                 Fixtures.plainBackend bare
                 Backends.mirrorFetch [Backends.exampleBuild]
                 Backends.exampleBuild None ∅ (VObj ∅)
                 (fst failed) (snd failed)
                 ltac:(compute_done) ltac:(vm_compute; reflexivity))))
      as (Hr & Hsteps & Hkinds).
    + vm_compute. reflexivity.
    + vm_compute. reflexivity.
    + split; [exact Hr|]. split; [exact Hsteps|exact Hkinds].
Defined.

(** The win32 build of the scenario, published with the default fetch. *)
Lemma publish_resolved_steps_witness :
  ∃ s' v,
    prun (publish (Backends.mirrorHost Backends.exampleOptions)
            Fixtures.plainBackend Backends.exampleOptions
            (fetchUpdatesJson (Backends.mirrorHost Backends.exampleOptions)
               Backends.exampleOptions)
            [Backends.exampleBuild] Backends.exampleBuild None ∅) (VObj ∅)
    = (s', Return v)
    ∧ ∃ uploads release data dir url json first,
        let host := Backends.mirrorHost Backends.exampleOptions in
        let opts := Backends.exampleOptions in
        let build := Backends.exampleBuild in
        let buildId := getBuildId opts (Some build) true in
        let mirror := join_fields "/" [path opts; dir] in
        let archivePath :=
          join_fields "/" [path opts; Some (buildId +:+ ".tar.gz")] in
        snd s'
        = BeforeUpload build :: map Core uploads ++ release
          ++ [Core (CallAppendFileSync (join "/" [mirror; "updates.json"])
                      (host_JSON_stringify host (VObj data)));
              Core (CallHttpGet url);
              Core (CallPushUpdatesJson json);
              Compress mirror archivePath
                (archiveEntries buildId (assets first));
              UploadReleaseArchive archivePath;
              AfterUpload build]
        ∧ (∀ n p, (n, p) ∈ assets build → uploads_of p uploads = 1%nat)
        ∧ Forall (λ c, touches_manifest (Core c) = false) uploads
        ∧ (if strict_eq (of_field (platform build)) (VStr "darwin")
           then ∃ file text, release = [WriteFileSync file text;
                                        Core (CallUploadFile file)]
           else release = [])
        ∧ local_data opts = Some dir
        ∧ getUpdatesJsonUrl opts = Return url
        ∧ head [Backends.exampleBuild] = Some first.
Proof.
  eexists _, _. split; [vm_compute; reflexivity|].
  eapply (publish_resolved_steps
           (Backends.mirrorHost Backends.exampleOptions)
           Fixtures.plainBackend Backends.exampleOptions
           [Backends.exampleBuild] Backends.exampleBuild None ∅ (VObj ∅)).
  - compute_done.
  - vm_compute. reflexivity.
Defined.

(** The win32 build of the scenario on the backend that inherits
    [uploadReleaseArchive]. *)
Lemma publish_inherited_uploadReleaseArchive_witness :
  let r := prun (publish (Backends.mirrorHost Backends.exampleOptions)
                   Fixtures.inheritingBackend Backends.exampleOptions
                   Backends.mirrorFetch [Backends.exampleBuild]
                   Backends.exampleBuild None ∅) (VObj ∅) in
  (∃ e, snd r = Throw e) ∧ AfterUpload Backends.exampleBuild ∉ steps_of r.
Proof.
  apply (publish_inherited_uploadReleaseArchive
           (Backends.mirrorHost Backends.exampleOptions)
           Fixtures.inheritingBackend Backends.exampleOptions
           Backends.mirrorFetch [Backends.exampleBuild]
           Backends.exampleBuild None ∅ (VObj ∅)).
  intros filePath w. reflexivity.
Defined.

(** The darwin build, with [dist/mac] as its [assetsPath]. *)
Lemma publish_darwin_release_witness :
  ∃ s' v,
    prun (publish (Backends.mirrorHost Backends.exampleOptions)
            Fixtures.plainBackend Backends.exampleOptions
            (fetchUpdatesJson (Backends.mirrorHost Backends.exampleOptions)
               Backends.exampleOptions)
            [Fixtures.macBuild] Fixtures.macBuild (Some "dist/mac") ∅)
      (VObj ∅)
    = (s', Return v)
    ∧ ∃ dir urls0 pub_date releaseUrl data mirrored before after,
        let host := Backends.mirrorHost Backends.exampleOptions in
        let file :=
          env_path_join Fixtures.plainBackend dir "release.json" in
        let release := releaseData ∅ urls0 pub_date in
        Some "dist/mac" = Some dir
        ∧ (∃ w1 s1, run (publishAssets host Backends.exampleOptions
                           Fixtures.macBuild) w1
                    = (s1, Return urls0))
        ∧ release !! "url" = Some (obj_get urls0 "update")
        ∧ snd s' = before
                   ++ [WriteFileSync file
                         (host_JSON_stringify host (VObj release));
                       Core (CallUploadFile file);
                       Core (CallAppendFileSync mirrored
                               (host_JSON_stringify host (VObj data)))]
                   ++ after
        ∧ (∃ w2, snd (host_uploadFile host file Fixtures.macBuild w2)
                 = Return releaseUrl)
        ∧ data !! "update" = Some releaseUrl
        ∧ data !! "install" = Some (obj_get urls0 "install").
Proof.
  eexists _, _. split; [vm_compute; reflexivity|].
  eapply (publish_darwin_release
           (Backends.mirrorHost Backends.exampleOptions)
           Fixtures.plainBackend Backends.exampleOptions
           [Fixtures.macBuild] Fixtures.macBuild (Some "dist/mac") ∅
           (VObj ∅)).
  - reflexivity.
  - vm_compute. reflexivity.
Defined.

(** The darwin build again: its archive. *)
Lemma publish_archive_entries_witness :
  ∃ s' v,
    prun (publish (Backends.mirrorHost Backends.exampleOptions)
            Fixtures.plainBackend Backends.exampleOptions
            (fetchUpdatesJson (Backends.mirrorHost Backends.exampleOptions)
               Backends.exampleOptions)
            [Fixtures.macBuild] Fixtures.macBuild (Some "dist/mac") ∅)
      (VObj ∅)
    = (s', Return v)
    ∧ ∃ dir first before after,
        let opts := Backends.exampleOptions in
        let buildId := getBuildId opts (Some Fixtures.macBuild) true in
        let mirror := join_fields "/" [path opts; dir] in
        let entries := archiveEntries buildId (assets first) in
        local_data opts = Some dir
        ∧ head [Fixtures.macBuild] = Some first
        ∧ snd s' = before
                   ++ Compress mirror
                        (join_fields "/"
                           [path opts; Some (buildId +:+ ".tar.gz")])
                        entries
                   :: after
        ∧ (assets first = assets Fixtures.macBuild →
           ∀ entry, entry ∈ entries →
             ∃ c, Core c ∈ before ∧ writes (join "/" [mirror; entry]) c).
Proof.
  eexists _, _. split; [vm_compute; reflexivity|].
  eapply (publish_archive_entries
           (Backends.mirrorHost Backends.exampleOptions)
           Fixtures.plainBackend Backends.exampleOptions
           [Fixtures.macBuild] Fixtures.macBuild (Some "dist/mac") ∅
           (VObj ∅)).
  vm_compute. reflexivity.
Defined.

(** The publish command of the scenario, with no build given. *)
Lemma transformBuilds_versions_witness :
  ∃ options',
    transformBuilds (λ _, []) None Backends.publishOptions = Return options'
    ∧ builds options' ≠ []
    ∧ Forall (λ b, truthy_field (version b) = true) (builds options')
    ∧ options' = with_builds Backends.publishOptions (builds options')
    ∧ (default [] (@None (list BuildArg)) = [] →
       builds options'
       = [mkBuild (options_platform Backends.publishOptions)
                  (options_arch Backends.publishOptions)
                  (options_channel Backends.publishOptions)
                  (options_version Backends.publishOptions) []]).
Proof.
  eexists. split; [reflexivity|].
  apply (transformBuilds_versions (λ _, []) None Backends.publishOptions).
  - reflexivity.
  - reflexivity.
Defined.

(** The remove command of the scenario, with one identifier given. *)
Lemma transformBuilds_remove_witness :
  ∃ options',
    transformBuilds (λ _, [])
      (Some [BuildString "darwin-x64-prod-v9.9.9"]) Backends.removeOptions
    = Return options'
    ∧ ((∃ e, validateIfRemoveCommand options' = Throw e)
       ↔ builds options' = []
         ∨ ∃ b, b ∈ builds options' ∧ invalidBuild b = true)
    ∧ (default [] (Some [BuildString "darwin-x64-prod-v9.9.9"]) = [] →
       validateIfRemoveCommand options'
       = Throw (Error "You should specify one or more builds to remove.")).
Proof.
  apply (transformBuilds_remove (λ _, [])
           (Some [BuildString "darwin-x64-prod-v9.9.9"])
           Backends.removeOptions).
  reflexivity.
Defined.

(** The version of a command whose options hold [version: undefined]. *)
Lemma applySources_precedence_witness :
  ∃ final,
    applySources Fixtures.givenOptions Fixtures.publisherJson
      Fixtures.packageJson (VStr "linux") (VStr "x64") = Return final
    ∧ ∃ values,
        packageValues Fixtures.packageJson = Return values
        ∧ final !! "version"
          = (Fixtures.givenOptions ∪ Fixtures.publisherJson ∪ values
             ∪ {[ "platform" := VStr "linux"; "arch" := VStr "x64" ]}
             ∪ {[ "channel" := VStr "prod"; "path" := VStr "dist" ]})
            !! "version".
Proof.
  eexists. split; [vm_compute; reflexivity|].
  apply (applySources_precedence Fixtures.givenOptions
           Fixtures.publisherJson Fixtures.packageJson _
           (VStr "linux") (VStr "x64") "version").
  - vm_compute. reflexivity.
  - discriminate.
  - discriminate.
  - discriminate.
  - discriminate.
Defined.

(** * Properties of the progress rendering *)

Lemma charAt_units (e : num) :
  replace_first "B" "" (charAt "BKMGTP" e) +:+ "B"
  ∈ ["B"; "KB"; "MB"; "GB"; "TB"; "PB"].
Proof.
  unfold charAt. destruct (to_integer e) as [z|]; [|set_solver].
  destruct (0 <=? z)%Z; [|set_solver].
  destruct (Z.to_nat z) as [|[|[|[|[|[|n]]]]]]; set_solver.
Qed.

(** X21: Whatever the engine computes, [formatSize] returns a number, a
    blank and one of the units B, KB, MB, GB, TB and PB; the unit is B
    whenever the exponent found is negative or above five, although the
    number is still the quotient by that power of 1024. *)
Theorem formatSize_unit (engine : Engine) (bytes : num) :
  (∃ number unit,
     formatSize engine bytes = number +:+ " " +:+ unit
     ∧ unit ∈ ["B"; "KB"; "MB"; "GB"; "TB"; "PB"])
  ∧ ∀ z,
      strict_eq (VNum bytes) (VNum (num_of_Z 0)) = false →
      let e := floor (num_div (Math_log engine bytes)
                              (Math_log engine (num_of_Z 1024))) in
      to_integer e = Some z →
      (z < 0 ∨ 6 ≤ z)%Z →
      formatSize engine bytes
      = num_to_string engine
          (to_number engine
             (toFixed engine
                (num_div bytes (Math_pow engine (num_of_Z 1024) e)) 2))
        +:+ " B".
Proof.
  split.
  - unfold formatSize.
    destruct (strict_eq (VNum bytes) (VNum (num_of_Z 0))).
    + exists "0", "B". split; [done|set_solver].
    + eexists _, _. split; [done|]. apply charAt_units.
  - intros z Hzero e He Hz. unfold formatSize. rewrite Hzero.
    fold e. unfold charAt. rewrite He.
    destruct (Z.leb_spec 0 z) as [Hpos|Hneg]; [|done].
    destruct Hz as [?|Hz]; [lia|].
    assert (Hget : String.get (Z.to_nat z) "BKMGTP" = None).
    { assert (6 ≤ Z.to_nat z)%nat as Hn by lia.
      destruct (Z.to_nat z) as [|[|[|[|[|[|n]]]]]]; [lia..|done]. }
    by rewrite Hget.
Qed.
